(** * Simplates: page normalisation, specline validation, renderer
      registry, resource construction, render dispatch and the JSON helpers.

    A shallow embedding of [aspen/simplates/simplate.py],
    [aspen/simplates/json_.py] and the path functions of
    [aspen/http/request.py].  Python exceptions are values of [exn];
    code that can raise returns [exn + A]; code that also mutates objects
    runs in the state-and-exception monad [M] over a [world] of
    namespaces (dicts used as execution contexts), heap objects and the
    log of renderer invocations.  The logic pages of a simplate are
    arbitrary code units, functions from the namespace they run in to
    [M unit]; what the theorems ask of them is stated as hypotheses. *)

From Stdlib Require Import ZArith NArith Ascii String List Bool Lia.
From stdpp Require Import base option list gmap strings fin_maps sorting pretty.

Set Warnings "-register-all".

Open Scope string_scope.
Open Scope list_scope.

(** ** Python values, exceptions and the mutable store *)

Module Py.

(** Immediate values and references to mutable heap objects. *)
Inductive value :=
| VNone
| VBool (b : bool)
| VInt (z : Z)
| VStr (s : string)
| VRef (l : nat).

Inductive exn :=
| KeyError (k : value)
| IndexError
| NameError (name : string)
| AttributeError
| TypeError
| SyntaxError (msg : string)
| ValueError (msg : string)
| ImportError (msg : string)
| RecursionError
| UserError (msg : string).

Definition result (A : Type) : Type := exn + A.

Definition Ok {A} (a : A) : result A := inr a.
Definition Raise {A} (e : exn) : result A := inl e.

Definition rbind {A B} (r : result A) (k : A -> result B) : result B :=
  match r with
  | inl e => inl e
  | inr a => k a
  end.

(** Truth value testing of a [str]: the empty string is false. *)
Definition str_truthy (s : string) : bool :=
  match s with
  | EmptyString => false
  | String _ _ => true
  end.

(** [sep.join(xs)] *)
Fixpoint join (sep : string) (xs : list string) : string :=
  match xs with
  | [] => EmptyString
  | [x] => x
  | x :: rest => x +:+ sep +:+ join sep rest
  end.

Definition newline : string := String "010" EmptyString.

(** Order of [(key, value)] pairs with distinct keys, as [sorted] uses
    it: the order of the keys, strings being compared character by
    character. *)
Definition key_le {A} (x y : string * A) : Prop := String.le x.1 y.1.

#[global] Instance key_le_dec {A} (x y : string * A) : Decision (key_le x y).
Proof. unfold key_le. apply _. Defined.

(** *** The store

    Dicts used as execution contexts (the caller's context, the run-once
    context kept by a resource, the narrowed context handed to a
    renderer) live in [namespaces]; lists and [Output] objects live in
    [objects].  A reference is an index; allocation appends.  [trace]
    logs every renderer invocation. *)

(** Modelled from the spec: the [Output] class of [aspen/output.py] is
    not part of the sources at hand; it carries the media type it was
    created with and a body that is [None] until something sets it. *)
Inductive obj :=
| OList (xs : list value)
| OOutput (media_type : string) (body : value).

Inductive event :=
| RendererCalled (renderer : string) (context : nat).

Record world := World {
  namespaces : list (gmap string value);
  objects : list obj;
  trace : list event
}.

Definition M (A : Type) : Type := world -> world * result A.

#[global] Instance M_ret : MRet M := fun A a w => (w, inr a).

#[global] Instance M_bind : MBind M := fun A B k m w =>
  match m w with
  | (w', inl e) => (w', inl e)
  | (w', inr a) => k a w'
  end.

Definition raise {A} (e : exn) : M A := fun w => (w, inl e).

Definition lift {A} (r : result A) : M A := fun w => (w, r).

(** [d[k]] on a mapping with string keys *)
Definition getitem {A} (d : gmap string A) (k : string) : result A :=
  match d !! k with
  | Some a => Ok a
  | None => Raise (KeyError (VStr k))
  end.

Definition ns_get (g : nat) : M (gmap string value) := fun w =>
  match namespaces w !! g with
  | Some d => (w, inr d)
  | None => (w, inl TypeError)
  end.

Definition ns_put (g : nat) (d : gmap string value) : M unit := fun w =>
  (World (<[g := d]> (namespaces w)) (objects w) (trace w), inr tt).

(** [g[k] = v] *)
Definition ns_setitem (g : nat) (k : string) (v : value) : M unit :=
  d ← ns_get g; ns_put g (<[k := v]> d).

(** [g.update(other)]: the entries of [other] win. *)
Definition ns_update (g : nat) (other : gmap string value) : M unit :=
  d ← ns_get g; ns_put g (other ∪ d).

(** [dict(...)]: a fresh namespace *)
Definition ns_new (d : gmap string value) : M nat := fun w =>
  (World (namespaces w ++ [d]) (objects w) (trace w),
   inr (length (namespaces w))).

Definition alloc (o : obj) : M nat := fun w =>
  (World (namespaces w) (objects w ++ [o]) (trace w),
   inr (length (objects w))).

Definition obj_put (l : nat) (o : obj) : M unit := fun w =>
  (World (namespaces w) (<[l := o]> (objects w)) (trace w), inr tt).

(** [target.body = v] *)
Definition set_body (target : value) (v : value) : M unit := fun w =>
  match target with
  | VRef l =>
      match objects w !! l with
      | Some (OOutput mt _) => obj_put l (OOutput mt v) w
      | _ => (w, inl AttributeError)
      end
  | _ => (w, inl AttributeError)
  end.

(** [target.body] *)
Definition get_body (target : value) : M value := fun w =>
  match target with
  | VRef l =>
      match objects w !! l with
      | Some (OOutput _ b) => (w, inr b)
      | _ => (w, inl AttributeError)
      end
  | _ => (w, inl AttributeError)
  end.

(** [target.append(v)], split as Python evaluates it: the attribute
    lookup comes before the argument is evaluated. *)
Definition list_append_attr (target : value) : M nat := fun w =>
  match target with
  | VRef l =>
      match objects w !! l with
      | Some (OList _) => (w, inr l)
      | _ => (w, inl AttributeError)
      end
  | _ => (w, inl AttributeError)
  end.

Definition list_append_call (l : nat) (v : value) : M unit := fun w =>
  match objects w !! l with
  | Some (OList xs) => obj_put l (OList (xs ++ [v])) w
  | _ => (w, inl AttributeError)
  end.

(** *** Code units

    What [compile] returns and [exec] runs: given the namespace that
    serves as its globals, a code unit transforms the store and returns,
    or raises. *)
Definition code : Type := nat -> M unit.

(** [exec(c, g)].  The binding of [__builtins__] that [exec] adds to
    globals that lack one is not modelled: the contents of a dict are
    given without it. *)
Definition exec (c : code) (g : nat) : M unit := c g.

(** Code units written out, as sequences of the store effects the logic
    pages of a simplate have: binding a global name, mutating in place
    the list a name refers to, setting the body of the object bound to
    [output], raising. *)
Inductive expr :=
| EConst (v : value)
| EName (x : string)
| ENewList (xs : list value).     (* a list display: a fresh list *)

Inductive stmt :=
| SAssign (x : string) (e : expr)   (* x = e *)
| SAppend (x : string) (e : expr)   (* x.append(e) *)
| SSetBody (e : expr)               (* output.body = e *)
| SRaise (msg : string).            (* raise Exception(msg) *)

Definition load_name (g : nat) (x : string) : M value :=
  d ← ns_get g;
  match d !! x with
  | Some v => mret v
  | None => raise (NameError x)
  end.

Definition eval (g : nat) (e : expr) : M value :=
  match e with
  | EConst v => mret v
  | EName x => load_name g x
  | ENewList xs => l ← alloc (OList xs); mret (VRef l)
  end.

Definition exec_stmt (g : nat) (s : stmt) : M unit :=
  match s with
  | SAssign x e => v ← eval g e; ns_setitem g x v
  | SAppend x e =>
      t ← load_name g x;
      l ← list_append_attr t;
      v ← eval g e;
      list_append_call l v
  | SSetBody e =>
      v ← eval g e;
      t ← load_name g "output";
      set_body t v
  | SRaise msg => raise (UserError msg)
  end.

(** The code unit of a sequence of statements. *)
Fixpoint block (body : list stmt) : code := fun g =>
  match body with
  | [] => mret tt
  | s :: rest => exec_stmt g s;; block rest g
  end.

(** [iter(v)], consumed to the end *)
Definition iterate (v : value) : M (list value) := fun w =>
  match v with
  | VStr s =>
      (w, inr (map (fun c => VStr (String c EmptyString))
                   (list_ascii_of_string s)))
  | VRef l =>
      match objects w !! l with
      | Some (OList xs) => (w, inr xs)
      | _ => (w, inl TypeError)
      end
  | _ => (w, inl TypeError)
  end.

(** [d[k]] for an arbitrary key object: only strings are keys of a
    namespace, and a list is not hashable. *)
Definition subscript (d : gmap string value) (k : value) : M value := fun w =>
  match k with
  | VStr s => (w, getitem d s)
  | VRef l =>
      match objects w !! l with
      | Some (OList _) => (w, inl TypeError)
      | _ => (w, inl (KeyError k))
      end
  | _ => (w, inl (KeyError k))
  end.

End Py.

(** ** The two regular expressions, with the matcher they need

    [re.match] anchors at the start of the string only.  Without the
    MULTILINE flag [$] matches at the very end of the string and just
    before a newline that is the last character. *)

Module Re.

Inductive class_item :=
| Range (lo hi : ascii)      (* lo-hi *)
| Single (c : ascii).

Definition in_item (c : ascii) (it : class_item) : bool :=
  match it with
  | Range lo hi =>
      (nat_of_ascii lo <=? nat_of_ascii c)%nat
      && (nat_of_ascii c <=? nat_of_ascii hi)%nat
  | Single d => Ascii.eqb c d
  end.

Definition in_class (cls : list class_item) (c : ascii) : bool :=
  existsb (in_item c) cls.

Inductive atom :=
| Plus (cls : list class_item)   (* [...]+ *)
| Lit (c : ascii)
| Dollar.                        (* $ *)

Definition at_dollar (s : string) : bool :=
  match s with
  | EmptyString => true
  | String c EmptyString => Ascii.eqb c "010"
  | String _ (String _ _) => false
  end.

(** Backtracking match of a sequence of atoms against a prefix of [s]. *)
Fixpoint match_here (p : list atom) (s : string) {struct p} : bool :=
  match p with
  | [] => true
  | Dollar :: p' => at_dollar s && match_here p' s
  | Lit c :: p' =>
      match s with
      | String d s' => Ascii.eqb c d && match_here p' s'
      | EmptyString => false
      end
  | Plus cls :: p' =>
      (fix more (s : string) : bool :=
         match s with
         | String d s' => in_class cls d && (more s' || match_here p' s')
         | EmptyString => false
         end) s
  end.

(** [pattern.match(s) is not None] *)
Definition re_match (p : list atom) (s : string) : bool := match_here p s.

End Re.

(** [renderer_re = re.compile(r'[a-z0-9.-_]+$')]: inside the brackets
    [.-_] is the range from ['.'] to ['_']. *)
Definition renderer_re : list Re.atom :=
  [Re.Plus [Re.Range "a" "z"; Re.Range "0" "9"; Re.Range "." "_"]; Re.Dollar].

Definition renderer_re_pattern : string := "[a-z0-9.-_]+$".

(** The class of [renderer_re] as Python reads it, and the characters it
    lets through although the specification does not name them. *)
Definition renderer_class : list Re.class_item :=
  [Re.Range "a" "z"; Re.Range "0" "9"; Re.Range "." "_"].

(** [media_type_re = re.compile(r'[A-Za-z0-9.+*-]+/[A-Za-z0-9.+*-]+$')] *)
Definition media_type_class : list Re.class_item :=
  [Re.Range "A" "Z"; Re.Range "a" "z"; Re.Range "0" "9";
   Re.Single "."; Re.Single "+"; Re.Single "*"; Re.Single "-"].

Definition media_type_re : list Re.atom :=
  [Re.Plus media_type_class; Re.Lit "/"; Re.Plus media_type_class; Re.Dollar].

Definition media_type_re_pattern : string :=
  "[A-Za-z0-9.+*-]+/[A-Za-z0-9.+*-]+$".

(** What the specification asks of a renderer name: lowercase letters,
    digits, ['.'], ['-'] and ['_'] only (and at least one of them). *)
Definition token_char (c : ascii) : bool :=
  Re.in_class [Re.Range "a" "z"; Re.Range "0" "9";
               Re.Single "."; Re.Single "-"; Re.Single "_"] c.

Fixpoint all_chars (P : ascii -> bool) (s : string) : bool :=
  match s with
  | EmptyString => true
  | String c s' => P c && all_chars P s'
  end.

Definition spec_renderer_name (s : string) : bool :=
  Py.str_truthy s && all_chars token_char s.


(** ** Pages *)

Module Pagination.

(** Modelled from the spec: the [Page] class of
    [aspen/simplates/pagination.py] is not part of the sources at hand.
    A page has a header, a content and the line offset of the content;
    [Page(content)] leaves the header empty and the offset at zero. *)
Record Page := mkPage {
  content : string;
  header : string;
  offset : nat
}.

Definition Page_ (content : string) : Page := mkPage content EmptyString 0.

Fixpoint newlines (n : nat) : string :=
  match n with
  | O => EmptyString
  | S n' => String "010" (newlines n')
  end.

(** [padded_content]: the content after [offset] blank lines. *)
Definition padded_content (p : Page) : string :=
  newlines (offset p) +:+ content p.

End Pagination.

(** ** Simplates *)

Module Simplate.

Import Py Pagination.

(** Modelled from the spec: the renderer classes of
    [aspen/simplates/renderers] are not part of the sources at hand.  A
    renderer is a pure function of the context it is called with: it
    reads the store and returns the body, or raises. *)
Record Renderer := mkRenderer {
  renderer_name : string;
  renderer_call : world -> nat -> result value
}.

(** [make_renderer(fspath, content, media_type, offset)] *)
Definition factory : Type := string -> string -> string -> nat -> result Renderer.

(** An entry of [renderer_factories]: a factory, or the [ImportError]
    kept in its place when the backing library could not be loaded. *)
Inductive entry :=
| Factory (make_renderer : factory)
| Failed (import_error : string).

Record SimplateDefaults := mkDefaults {
  renderers_by_media_type : gmap string string;
  renderer_factories : gmap string entry;
  initial_context : gmap string value
}.

Record Simplate := mkSimplate {
  fspath : string;
  default_media_type : string;
  renderers : gmap string Renderer;
  available_types : list string;
  page_one : nat;
  page_two : code
}.

(** *** [parse_into_pages] *)

Section Splitting.

(** [pagination.split_and_escape]: the pages of a simplate, in order. *)
Variable split_and_escape : string -> list Page.

Definition parse_into_pages (decoded : string) : result (list Page) :=
  let pages := split_and_escape decoded in
  let npages := length pages in
  let blank := [Page_ EmptyString] in
  if (npages =? 1)%nat then Ok (blank ++ blank ++ pages)
  else if (npages =? 2)%nat then Ok (blank ++ pages)
  else
    match pages !! 1%nat with
    | None => Raise IndexError
    | Some p1 =>
        if str_truthy (header p1) then Ok (blank ++ pages) else Ok pages
    end.

End Splitting.

(** *** [_get_renderer_factory] *)

(** [sorted(factories.keys())] *)
Definition sorted_keys (factories : gmap string entry) : list string :=
  merge_sort String.le (map fst (map_to_list factories)).

(** [sorted(factories.items())]: keys are distinct, so the order of the
    pairs is the order of their keys. *)
Definition sorted_items (factories : gmap string entry)
  : list (string * entry) :=
  merge_sort key_le (map_to_list factories).

(** How an entry shows in the list of possible renderers. *)
Definition shown (kv : string * entry) : string :=
  match kv.2 with
  | Failed _ => "*" +:+ kv.1
  | Factory _ => kv.1
  end.

(** The loop over the sorted items that builds [possible] and [legend]. *)
Fixpoint starred (items : list (string * entry)) (possible : list string)
    (legend : string) : list string * string :=
  match items with
  | [] => (possible, legend)
  | (k, v) :: rest =>
      match v with
      | Failed _ =>
          starred rest (possible ++ ["*" +:+ k])
                  " (starred are missing third-party libraries)"
      | Factory _ => starred rest (possible ++ [k]) legend
      end
  end.

Definition malformed_renderer_msg (renderer possible : string) : string :=
  "Malformed renderer " +:+ renderer +:+ ". It must match "
  +:+ renderer_re_pattern
  +:+ ". Possible renderers (might need third-party libs): "
  +:+ possible +:+ ".".

Definition unknown_renderer_msg (media_type renderer legend possible : string)
  : string :=
  "Unknown renderer for " +:+ media_type +:+ ": " +:+ renderer
  +:+ ". Possible renderers" +:+ legend +:+ ": " +:+ possible +:+ ".".

Definition _get_renderer_factory (defaults : SimplateDefaults)
    (media_type renderer : string) : result factory :=
  let factories := renderer_factories defaults in
  if negb (Re.re_match renderer_re renderer) then
    let possible := join ", " (sorted_keys factories) in
    Raise (SyntaxError (malformed_renderer_msg renderer possible))
  else
    match factories !! renderer with
    | Some (Failed e) => Raise (ImportError e)
    | None =>
        let '(possible, legend) := starred (sorted_items factories) [] EmptyString in
        let possible := join ", " possible in
        Raise (ValueError
                 (unknown_renderer_msg media_type renderer legend possible))
    | Some (Factory make_renderer) => Ok make_renderer
    end.

(** *** [_parse_specline] *)

Definition malformed_media_type_msg (media_type specline : string) : string :=
  "Malformed media type '" +:+ media_type +:+ "' in specline '"
  +:+ specline +:+ "'. It must match " +:+ media_type_re_pattern +:+ ".".

Section Parsing.

(** [pagination.parse_specline]: splits a specline into the media type
    and the renderer name it gives, either possibly empty. *)
Variable parse_specline : string -> result (string * string).

Variable defaults : SimplateDefaults.

Definition _parse_specline (default_media_type specline : string)
  : result (factory * string) :=
  rbind (parse_specline specline) (fun '(media_type, renderer) =>
  let media_type :=
    if String.eqb media_type EmptyString then default_media_type else media_type in
  rbind (if String.eqb renderer EmptyString
         then getitem (renderers_by_media_type defaults) media_type
         else Ok renderer) (fun renderer =>
  if negb (Re.re_match media_type_re media_type) then
    Raise (SyntaxError (malformed_media_type_msg media_type specline))
  else
    rbind (_get_renderer_factory defaults media_type renderer)
          (fun make_renderer =>
    Ok (make_renderer, media_type)))).

(** [compile_page] *)
Definition compile_page (fspath default_media_type : string) (page : Page)
  : result (Renderer * string) :=
  rbind (_parse_specline default_media_type (header page))
        (fun '(make_renderer, media_type) =>
  rbind (make_renderer fspath (content page) media_type (offset page))
        (fun renderer =>
  Ok (renderer, media_type))).

(** [[self.compile_page(page) for page in pages]] *)
Fixpoint compile_templates (fspath default_media_type : string)
    (pages : list Page) : result (list (Renderer * string)) :=
  match pages with
  | [] => Ok []
  | page :: rest =>
      rbind (compile_page fspath default_media_type page) (fun p =>
      rbind (compile_templates fspath default_media_type rest) (fun ps =>
      Ok (p :: ps)))
  end.

(** The builtin [compile(source, filename, 'exec')]. *)
Variable py_compile : string -> string -> result code.

(** [compile_pages]: returns what it leaves in [pages]: the run-once
    context, the run-every code and the compiled template pages. *)
Definition compile_pages (fspath default_media_type : string)
    (pages : list Page)
  : M (nat * code * list (Renderer * string)) :=
  match pages with
  | one :: two :: templates =>
      context ← ns_new ∅;
      ns_setitem context "__file__" (VStr fspath);;
      ns_update context (initial_context defaults);;
      one ← lift (py_compile (padded_content one) fspath);
      exec one context;;
      two ← lift (py_compile (padded_content two) fspath);
      templates ← lift (compile_templates fspath default_media_type templates);
      mret (context, two, templates)
  | [_] => raise (ValueError "not enough values to unpack (expected 2, got 1)")
  | [] => raise (ValueError "not enough values to unpack (expected 2, got 0)")
  end.

(** *** [__init__] *)

Definition duplicate_msg (media_type : string) : string :=
  "Two content pages defined for " +:+ media_type +:+ ".".

(** The loop of [__init__] over the compiled template pages
    [pages[2:]], threading [self.renderers] and
    [self.available_types]. *)
Fixpoint content_pages (pages : list (Renderer * string))
    (renderers : gmap string Renderer) (available_types : list string)
  : result (gmap string Renderer * list string) :=
  match pages with
  | [] => Ok (renderers, available_types)
  | (renderer, media_type) :: rest =>
      match renderers !! media_type with
      | Some _ =>
          Raise (SyntaxError (duplicate_msg media_type))
      | None =>
          content_pages rest (<[media_type := renderer]> renderers)
                        (available_types ++ [media_type])
      end
  end.

(** [s.rsplit('.', 1)[0]] *)
Fixpoint before_last_dot (s : string) : option string :=
  match s with
  | EmptyString => None
  | String c s' =>
      match before_last_dot s' with
      | Some p => Some (String c p)
      | None => if Ascii.eqb c "." then Some EmptyString else None
      end
  end.

Definition rsplit_dot_head (s : string) : string :=
  default s (before_last_dot s).

(** [request_processor.guess_media_type] *)
Variable guess_media_type : string -> string.

(** [check_resource_path] followed by opening the file and reading it
    whole. *)
Variable read_source : string -> result string.

(** [pagination.split_and_escape] *)
Variable split_and_escape : string -> list Page.

Definition __init__ (fspath : string) : M Simplate :=
  let default_media_type := guess_media_type (rsplit_dot_head fspath) in
  text ← lift (read_source fspath);
  pages ← lift (parse_into_pages split_and_escape text);
  '(page_one, page_two, templates) ←
    compile_pages fspath default_media_type pages;
  '(renderers, available_types) ← lift (content_pages templates ∅ []);
  mret (mkSimplate fspath default_media_type renderers available_types
                   page_one page_two).

End Parsing.

(** *** [render_for_type] *)

Definition is_not_none (v : value) : bool :=
  match v with
  | VNone => false
  | _ => true
  end.

(** Lines 79 to 81: create the [Output], bind it in the context and
    overlay the bindings of the run-once context. *)
Definition prepare (self : Simplate) (media_type : string) (context : nat)
  : M nat :=
  output ← alloc (OOutput media_type VNone);
  ns_setitem context "output" (VRef output);;
  first ← ns_get (page_one self);
  ns_update context first;;
  mret output.

(** Lines 79 to 83: the above, then the run-every code executed with
    the context as its globals. *)
Definition run_every (self : Simplate) (media_type : string) (context : nat)
  : M nat :=
  output ← prepare self media_type context;
  exec (page_two self) context;;
  mret output.

(** [dict((k, context[k]) for k in context['__all__'])] *)
Fixpoint export_items (d : gmap string value) (keys : list value)
  : M (list (string * value)) :=
  match keys with
  | [] => mret []
  | k :: rest =>
      v ← subscript d k;
      items ← export_items d rest;
      mret (match k with
            | VStr s => (s, v) :: items
            | _ => items
            end)
  end.

Definition narrow (context : nat) : M nat :=
  d ← ns_get context;
  match d !! "__all__" with
  | Some names =>
      keys ← iterate names;
      items ← export_items d keys;
      ns_new (foldl (fun m kv => <[kv.1 := kv.2]> m) ∅ items)
  | None => mret context
  end.

Definition call (render : Renderer) (context : nat) : M value := fun w =>
  (World (namespaces w) (objects w)
         (trace w ++ [RendererCalled (renderer_name render) context]),
   renderer_call render w context).

(** Lines 88 to 97: narrow the context, look the renderer up, call it
    and store what it returns. *)
Definition render_template (self : Simplate) (media_type : string)
    (context output : nat) : M nat :=
  context ← narrow context;
  render ← lift (getitem (renderers self) media_type);
  body ← call render context;
  set_body (VRef output) body;;
  mret output.

Definition render_for_type (self : Simplate) (media_type : string)
    (context : nat) : M nat :=
  output ← run_every self media_type context;
  body ← get_body (VRef output);
  if is_not_none body then mret output
  else render_template self media_type context output.

(** The world after [render] was called with [context] in the world
    [w] and the body [b] it returned was stored in [output]. *)
Definition rendered (w : world) (render : Renderer) (context output : nat)
    (media_type : string) (b : value) : world :=
  World (namespaces w)
        (<[output := OOutput media_type b]> (objects w))
        (trace w ++ [RendererCalled (renderer_name render) context]).

(** The world after [render] was called and raised. *)
Definition render_raised (w : world) (render : Renderer) (context : nat)
  : world :=
  World (namespaces w) (objects w)
        (trace w ++ [RendererCalled (renderer_name render) context]).

(** *** What a call leaves alone *)

(** Every namespace but [g] is as it was. *)
Definition ns_preserved (g : nat) (w w' : world) : Prop :=
  forall i d, i <> g -> namespaces w !! i = Some d ->
              namespaces w' !! i = Some d.

(** An [Output] stays an [Output] of the same media type. *)
Definition outputs_kept (w w' : world) : Prop :=
  forall l mt b, objects w !! l = Some (OOutput mt b) ->
                 exists b', objects w' !! l = Some (OOutput mt b').

(** No renderer was called. *)
Definition trace_kept (w w' : world) : Prop := trace w' = trace w.

(** A computation whose final world is related to the initial one,
    whether it returns or raises. *)
Definition preserves (R : world -> world -> Prop) {A} (m : M A) : Prop :=
  forall w, R w (m w).1.

(** A code unit that writes to no namespace but its globals. *)
Definition local (c : code) : Prop :=
  forall g, preserves (ns_preserved g) (exec c g).

(** A code unit that calls no renderer and leaves every [Output] an
    [Output] of its media type (it may set its body). *)
Definition tame (c : code) : Prop :=
  forall g, preserves outputs_kept (exec c g)
            /\ preserves trace_kept (exec c g).

(** What [__init__] establishes between [available_types] and
    [renderers]. *)
Definition compiled (self : Simplate) : Prop :=
  NoDup (available_types self)
  /\ forall mt, mt ∈ available_types self <-> is_Some (renderers self !! mt).

End Simplate.

(** ** The JSON helpers of [json_.py] *)

Module Json_.

Import Py.

(** A Python [str]: its code points, in order. *)
Abbreviation text := (list N).

(** The [str] of an ASCII literal. *)
Definition u (s : string) : text := map N_of_ascii (list_ascii_of_string s).

Definition quote : N := 34.
Definition backslash : N := 92.
Definition linefeed : N := 10.
Definition space : N := 32.

(** [s <= t] on [str]: code point by code point. *)
Fixpoint text_leb (s t : text) : bool :=
  match s, t with
  | [], _ => true
  | _ :: _, [] => false
  | c :: s', d :: t' => (c <? d)%N || ((c =? d)%N && text_leb s' t')
  end.

(** [sep.join(xs)] *)
Fixpoint tjoin (sep : text) (xs : list text) : text :=
  match xs with
  | [] => []
  | [x] => x
  | x :: rest => x ++ sep ++ tjoin sep rest
  end.

(** A [float]: a finite one is given by what [float.__repr__] returns
    for it. *)
Inductive jfloat :=
| Finite (repr : string)
| NaN
| Infinity
| NegInfinity.

(** The keys of a dict that the encoder writes: [str], [int], [bool] and
    [None].  Keys that are floats, and keys of the types the encoder
    refuses or skips, are left out. *)
Inductive key :=
| KStr (s : text)
| KInt (z : Z)
| KBool (b : bool)
| KNone.

(** Values handed to the encoder.  A list stands for a list or a tuple;
    a dict is given by its items in the order of the dict, the keys all
    different; a date, time or datetime is given by what its
    [isoformat()] returns; [JInstance] is an instance of any other
    class, given by the name of the class. *)
Inductive jvalue :=
| JNone
| JBool (b : bool)
| JInt (z : Z)
| JFloat (f : jfloat)
| JStr (s : text)
| JList (xs : list jvalue)
| JDict (items : list (key * jvalue))
| JComplex (real imag : jfloat)
| JDateTime (isoformat : text)
| JDate (isoformat : text)
| JTime (isoformat : text)
| JInstance (cls : string).

(** [obj.__class__], by name. *)
Definition class_of (obj : jvalue) : string :=
  match obj with
  | JNone => "NoneType"
  | JBool _ => "bool"
  | JInt _ => "int"
  | JFloat _ => "float"
  | JStr _ => "str"
  | JList _ => "list"
  | JDict _ => "dict"
  | JComplex _ _ => "complex"
  | JDateTime _ => "datetime.datetime"
  | JDate _ => "datetime.date"
  | JTime _ => "datetime.time"
  | JInstance cls => cls
  end.

Definition encoder : Type := jvalue -> result jvalue.

(** [register_encoder(cls, encode)] on the module-level [encoders] *)
Definition register_encoder (cls : string) (encode : encoder)
    (encoders : gmap string encoder) : gmap string encoder :=
  <[cls := encode]> encoders.

(** [unregister_encoder(cls)] *)
Definition unregister_encoder (cls : string)
    (encoders : gmap string encoder) : gmap string encoder :=
  match encoders !! cls with
  | Some _ => delete cls encoders
  | None => encoders
  end.

(** [lambda obj: [obj.real, obj.imag]] *)
Definition encode_complex : encoder := fun obj =>
  match obj with
  | JComplex real imag => Ok (JList [JFloat real; JFloat imag])
  | _ => Raise AttributeError
  end.

(** [lambda obj: obj.isoformat()] *)
Definition encode_isoformat : encoder := fun obj =>
  match obj with
  | JDateTime iso | JDate iso | JTime iso => Ok (JStr iso)
  | _ => Raise AttributeError
  end.

(** [encoders] once the module is loaded (lines 23 to 49). *)
Definition encoders0 : gmap string encoder :=
  register_encoder "datetime.time" encode_isoformat
    (register_encoder "datetime.date" encode_isoformat
       (register_encoder "datetime.datetime" encode_isoformat
          (register_encoder "complex" encode_complex ∅))).

(** [JSONEncoder.default]: always a [TypeError]. *)
Definition JSONEncoder_default : encoder := fun _ => Raise TypeError.

(** [FriendlyEncoder.default] *)
Definition FriendlyEncoder_default (encoders : gmap string encoder)
  : encoder := fun obj =>
  let cls := class_of obj in
  let encode := default JSONEncoder_default (encoders !! cls) in
  encode obj.

(** *** The backend encoder

    [_json] is [simplejson] when it is installed and the standard
    library's [json] otherwise; neither is part of the repository.  What
    follows models the [JSONEncoder] of the standard library for the
    values above and for the keywords its [dumps] takes.  Two of them
    have no effect on these values: [skipkeys], since every key is one
    the encoder writes, and [check_circular], since a value is a finite
    tree and an encoder is taken to build a new object (one that returns
    the object it was given, which the library reports as a circular
    reference, is outside the model).  [fuel] is the depth of recursion
    the interpreter allows. *)

Definition hex_digit (n : N) : N :=
  if (n <? 10)%N then (48 + n)%N else (87 + n)%N.

(** ['{0:04x}'.format(n)] for [n < 0x10000] *)
Definition hex4 (n : N) : text :=
  [hex_digit (n / 4096 mod 16); hex_digit (n / 256 mod 16);
   hex_digit (n / 16 mod 16); hex_digit (n mod 16)]%N.

Definition escaped (c : N) : text := [backslash; c].

(** A backslash, [u] and four hexadecimal digits. *)
Definition unicode_escape (n : N) : text := backslash :: 117%N :: hex4 n.

(** [ESCAPE_DCT]: the backslash, the double quote and the control
    characters. *)
Definition escape_dct (c : N) : option text :=
  if (c =? 92)%N then Some (escaped 92%N)
  else if (c =? 34)%N then Some (escaped 34%N)
  else if (c =? 8)%N then Some (escaped 98%N)
  else if (c =? 12)%N then Some (escaped 102%N)
  else if (c =? 10)%N then Some (escaped 110%N)
  else if (c =? 13)%N then Some (escaped 114%N)
  else if (c =? 9)%N then Some (escaped 116%N)
  else if (c <? 32)%N then Some (unicode_escape c)
  else None.

(** What [encode_basestring_ascii] writes for one character: every
    character outside [' '] to ['~'] is escaped, one beyond the basic
    plane as a surrogate pair. *)
Definition escape_ascii (c : N) : text :=
  match escape_dct c with
  | Some e => e
  | None =>
      if (c <=? 126)%N then [c]
      else if (c <? 65536)%N then unicode_escape c
      else
        let n := (c - 65536)%N in
        unicode_escape (N.lor 55296 (N.land (N.shiftr n 10) 1023))
        ++ unicode_escape (N.lor 56320 (N.land n 1023))
  end.

(** What [encode_basestring] writes for one character. *)
Definition escape_plain (c : N) : text :=
  default [c] (escape_dct c).

Definition encode_basestring_ascii (s : text) : text :=
  quote :: concat (map escape_ascii s) ++ [quote].

Definition encode_basestring (s : text) : text :=
  quote :: concat (map escape_plain s) ++ [quote].

(** [floatstr] *)
Definition floatstr (allow_nan : bool) (f : jfloat) : result text :=
  let out_of_range (shown written : string) : result text :=
    if allow_nan then Ok (u written)
    else Raise (ValueError
                  ("Out of range float values are not JSON compliant: "
                   +:+ shown)) in
  match f with
  | Finite repr => Ok (u repr)
  | NaN => out_of_range "nan" "NaN"
  | Infinity => out_of_range "inf" "Infinity"
  | NegInfinity => out_of_range "-inf" "-Infinity"
  end.

(** What the encoder writes for a key. *)
Definition key_text (k : key) : text :=
  match k with
  | KStr s => s
  | KInt z => u (pretty z)
  | KBool true => u "true"
  | KBool false => u "false"
  | KNone => u "null"
  end.

(** [a < b] is defined between two [str] and between numbers, a [bool]
    being the number 0 or 1; any other comparison is a [TypeError]. *)
Definition comparable (a b : key) : bool :=
  match a, b with
  | KStr _, KStr _ => true
  | (KInt _ | KBool _), (KInt _ | KBool _) => true
  | _, _ => false
  end.

Definition key_number (k : key) : Z :=
  match k with
  | KInt z => z
  | KBool true => 1
  | _ => 0
  end.

(** The order of two keys that can be compared.  Between keys that
    cannot, the order is a fixed arbitrary one, which [sorted_dict_items]
    never gets to use. *)
Definition key_leb (a b : key) : bool :=
  match a, b with
  | KStr s, KStr t => text_leb s t
  | KStr _, _ => true
  | _, KStr _ => false
  | KNone, _ => true
  | _, KNone => false
  | _, _ => (key_number a <=? key_number b)%Z
  end.

Definition item_le (x y : key * jvalue) : Prop := key_leb x.1 y.1.

#[global] Instance item_le_dec x y : Decision (item_le x y).
Proof. unfold item_le. apply _. Defined.

(** [sorted(dct.items())]: the keys being all different, two items are
    ordered by their keys. *)
Definition sorted_dict_items (items : list (key * jvalue))
  : result (list (key * jvalue)) :=
  match items with
  | [] | [_] => Ok items
  | first :: _ =>
      if forallb (fun kv : key * jvalue => comparable first.1 kv.1) items
      then Ok (merge_sort item_le items)
      else Raise TypeError
  end.

Fixpoint encode_each {A} (f : A -> result text) (xs : list A)
  : result (list text) :=
  match xs with
  | [] => Ok []
  | x :: rest =>
      rbind (f x) (fun chunk =>
      rbind (encode_each f rest) (fun chunks => Ok (chunk :: chunks)))
  end.

(** What an encoder is made with. *)
Record config := mkConfig {
  cfg_default : encoder;
  cfg_ensure_ascii : bool;
  cfg_allow_nan : bool;
  cfg_sort_keys : bool;
  cfg_indent : option text;
  cfg_item_separator : text;
  cfg_key_separator : text
}.

(** The string written for a [str]. *)
Definition written (ensure_ascii : bool) (s : text) : text :=
  if ensure_ascii then encode_basestring_ascii s else encode_basestring s.

Section Encoder.

Variable cfg : config.

Definition string_literal : text -> text := written (cfg_ensure_ascii cfg).

Definition newline_indent (level : nat) : text :=
  match cfg_indent cfg with
  | None => []
  | Some indent => linefeed :: concat (replicate level indent)
  end.

Definition bracket (level : nat) (opening closing : text)
    (chunks : list text) : text :=
  opening ++ newline_indent (S level)
  ++ tjoin (cfg_item_separator cfg ++ newline_indent (S level)) chunks
  ++ newline_indent level ++ closing.

Fixpoint iterencode (fuel : nat) (level : nat) (o : jvalue)
  : result text :=
  match fuel with
  | O => Raise RecursionError
  | S fuel' =>
      match o with
      | JStr s => Ok (string_literal s)
      | JNone => Ok (u "null")
      | JBool true => Ok (u "true")
      | JBool false => Ok (u "false")
      | JInt z => Ok (u (pretty z))
      | JFloat f => floatstr (cfg_allow_nan cfg) f
      | JList [] => Ok (u "[]")
      | JList xs =>
          rbind (encode_each (iterencode fuel' (S level)) xs)
                (fun chunks => Ok (bracket level (u "[") (u "]") chunks))
      | JDict [] => Ok (u "{}")
      | JDict items =>
          rbind (if cfg_sort_keys cfg then sorted_dict_items items
                 else Ok items) (fun items =>
          rbind (encode_each
                   (fun kv : key * jvalue =>
                      rbind (iterencode fuel' (S level) kv.2) (fun chunk =>
                      Ok (string_literal (key_text kv.1)
                          ++ cfg_key_separator cfg ++ chunk)))
                   items)
                (fun chunks => Ok (bracket level (u "{") (u "}") chunks)))
      | _ => rbind (cfg_default cfg o) (iterencode fuel' level)
      end
  end.

End Encoder.

(** The encoder classes: the two at hand, and a subclass of the
    caller's, given by its [default] method. *)
Inductive encoder_class :=
| JSONEncoder
| FriendlyEncoder
| Subclass (default_ : encoder).

(** [indent]: an [int] or a [str]. *)
Inductive indent_value :=
| IndentInt (n : Z)
| IndentStr (s : text).

(** The keyword arguments of a call of [dump] or [dumps]: for each
    keyword the backend takes, [None] when it is not passed, and the
    names of the other keywords passed.  [cls], [indent], [separators]
    and [default] can be passed as [None]. *)
Record kwargs := mkKw {
  kw_skipkeys : option bool;
  kw_ensure_ascii : option bool;
  kw_check_circular : option bool;
  kw_allow_nan : option bool;
  kw_cls : option (option encoder_class);
  kw_indent : option (option indent_value);
  kw_separators : option (option (text * text));
  kw_default : option (option encoder);
  kw_sort_keys : option bool;
  kw_other : list string
}.

Definition no_kwargs : kwargs :=
  mkKw None None None None None None None None None [].

(** [kw['cls'] = cls], [kw['sort_keys'] = b], [kw['indent'] = i] *)
Definition set_cls (cls : encoder_class) (kw : kwargs) : kwargs :=
  mkKw (kw_skipkeys kw) (kw_ensure_ascii kw) (kw_check_circular kw)
       (kw_allow_nan kw) (Some (Some cls)) (kw_indent kw) (kw_separators kw)
       (kw_default kw) (kw_sort_keys kw) (kw_other kw).

Definition set_sort_keys (b : bool) (kw : kwargs) : kwargs :=
  mkKw (kw_skipkeys kw) (kw_ensure_ascii kw) (kw_check_circular kw)
       (kw_allow_nan kw) (kw_cls kw) (kw_indent kw) (kw_separators kw)
       (kw_default kw) (Some b) (kw_other kw).

Definition set_indent (i : indent_value) (kw : kwargs) : kwargs :=
  mkKw (kw_skipkeys kw) (kw_ensure_ascii kw) (kw_check_circular kw)
       (kw_allow_nan kw) (kw_cls kw) (Some (Some i)) (kw_separators kw)
       (kw_default kw) (kw_sort_keys kw) (kw_other kw).

Section Module_state.

(** The module-level [encoders] when the call is made, and the depth
    of recursion available to the encoder. *)
Variable encoders : gmap string encoder.
Variable fuel : nat.

(** The [default] method of an encoder class. *)
Definition default_method (cls : encoder_class) : encoder :=
  match cls with
  | JSONEncoder => JSONEncoder_default
  | FriendlyEncoder => FriendlyEncoder_default encoders
  | Subclass default_ => default_
  end.

(** The encoder [_json.dumps] makes: [cls(skipkeys=..., ...)], with
    [JSONEncoder] for [cls] when none is given.  A [default] that is
    passed takes the place of the method of the class; the indent
    string is [' ' * indent] for an [int]; without [separators] the
    items are separated by a comma, followed by a space when there is no
    indent. *)
Definition make_encoder (kw : kwargs) : config :=
  let cls := default JSONEncoder (mjoin (kw_cls kw)) in
  let indent : option text :=
    (fun i => match i with
              | IndentInt n => replicate (Z.to_nat n) space
              | IndentStr s => s
              end) <$> mjoin (kw_indent kw) in
  let separators :=
    match mjoin (kw_separators kw) with
    | Some separators => separators
    | None =>
        (match indent with Some _ => u "," | None => u ", " end, u ": ")
    end in
  mkConfig (default (default_method cls) (mjoin (kw_default kw)))
           (default true (kw_ensure_ascii kw))
           (default true (kw_allow_nan kw))
           (default false (kw_sort_keys kw))
           indent separators.1 separators.2.

(** [_json.dumps(obj, **kw)]: a keyword the encoder class does not
    take is a [TypeError] when the encoder is made. *)
Definition _json_dumps (obj : jvalue) (kw : kwargs) : result text :=
  match kw_other kw with
  | [] => iterencode (make_encoder kw) fuel 0 obj
  | _ :: _ => Raise TypeError
  end.

(** The three tests [if '...' not in kw] of [dump] and [dumps]. *)
Definition with_defaults (kw : kwargs) : kwargs :=
  let kw :=
    match kw_cls kw with
    | None => set_cls FriendlyEncoder kw
    | Some _ => kw
    end in
  let kw :=
    match kw_sort_keys kw with
    | None => set_sort_keys true kw
    | Some _ => kw
    end in
  match kw_indent kw with
  | None => set_indent (IndentInt 4) kw
  | Some _ => kw
  end.

(** [dumps(obj, **kw)] *)
Definition dumps (obj : jvalue) (kw : kwargs) : result text :=
  _json_dumps obj (with_defaults kw).

(** [dump(obj, fp, **kw)]: the content of [fp] after the call, [fp]
    being the text written to the file so far.  What the backend has
    already written when the encoder raises is left out. *)
Definition dump (obj : jvalue) (fp : text) (kw : kwargs)
  : result text :=
  rbind (_json_dumps obj (with_defaults kw)) (fun chunks => Ok (fp ++ chunks)).

End Module_state.

(** *** What the specification says of the output *)

(** The values the encoder, made with the friendly encoder and the
    encoders registered when the module is loaded, can write: those
    that hold no instance of another class, no dict whose keys cannot
    be sorted and, unless [allow_nan] is in force, no float out of
    range. *)
Definition finite (f : jfloat) : bool :=
  match f with
  | Finite _ => true
  | _ => false
  end.

Definition sortable (keys : list key) : bool :=
  match keys with
  | [] | [_] => true
  | first :: _ => forallb (comparable first) keys
  end.

Fixpoint serialisable (allow_nan : bool) (o : jvalue) : bool :=
  match o with
  | JFloat f => allow_nan || finite f
  | JComplex real imag =>
      (allow_nan || finite real) && (allow_nan || finite imag)
  | JList xs => forallb (serialisable allow_nan) xs
  | JDict items =>
      sortable (map fst items)
      && forallb (fun kv : key * jvalue => serialisable allow_nan kv.2) items
  | JInstance _ => false
  | _ => true
  end.

(** How deep the encoder goes into a value it can write. *)
Fixpoint depth (o : jvalue) : nat :=
  match o with
  | JList xs => S (foldr Nat.max 0 (map depth xs))
  | JDict items =>
      S (foldr Nat.max 0 (map (fun kv : key * jvalue => depth kv.2) items))
  | JComplex _ _ => 3
  | JDateTime _ | JDate _ | JTime _ => 2
  | _ => 1
  end.

(** A line break followed by four spaces for each level. *)
Definition line (level : nat) : text :=
  linefeed :: replicate (4 * level) space.

(** The text of a float. *)
Definition float_text (f : jfloat) : text :=
  match f with
  | Finite repr => u repr
  | NaN => u "NaN"
  | Infinity => u "Infinity"
  | NegInfinity => u "-Infinity"
  end.

Section Layout.

(** The registered encoders, and how a string is written. *)
Variable encoders : gmap string encoder.
Variable literal : text -> text.

(** [pretty_printed level o out]: [out] is [o] pretty-printed with an
    indentation of four spaces, [level] levels deep: the items of a list
    or dict one per line, four spaces deeper than the brackets, the
    entries of a dict in the order of their keys; a complex number as
    the list of its real and imaginary parts, a datetime, date or time
    as the string of its ISO format; an instance of another class as
    what the encoder registered for the class makes of it. *)
Inductive pretty_printed : nat -> jvalue -> text -> Prop :=
| pp_none level : pretty_printed level JNone (u "null")
| pp_true level : pretty_printed level (JBool true) (u "true")
| pp_false level : pretty_printed level (JBool false) (u "false")
| pp_int level z : pretty_printed level (JInt z) (u (pretty z))
| pp_float level f : pretty_printed level (JFloat f) (float_text f)
| pp_str level s : pretty_printed level (JStr s) (literal s)
| pp_empty_list level : pretty_printed level (JList []) (u "[]")
| pp_list level x xs chunks :
    Forall2 (pretty_printed (S level)) (x :: xs) chunks ->
    pretty_printed level (JList (x :: xs))
      (u "[" ++ line (S level)
       ++ tjoin (u "," ++ line (S level)) chunks
       ++ line level ++ u "]")
| pp_empty_dict level : pretty_printed level (JDict []) (u "{}")
| pp_dict level kv items sorted values :
    Sorted item_le sorted ->
    sorted ≡ₚ kv :: items ->
    Forall2 (pretty_printed (S level)) (map snd sorted) values ->
    pretty_printed level (JDict (kv :: items))
      (u "{" ++ line (S level)
       ++ tjoin (u "," ++ line (S level))
            (zip_with (fun k value => literal (key_text k) ++ u ": " ++ value)
                      (map fst sorted) values)
       ++ line level ++ u "}")
| pp_complex level real imag out :
    pretty_printed level (JList [JFloat real; JFloat imag]) out ->
    pretty_printed level (JComplex real imag) out
| pp_datetime level iso : pretty_printed level (JDateTime iso) (literal iso)
| pp_date level iso : pretty_printed level (JDate iso) (literal iso)
| pp_time level iso : pretty_printed level (JTime iso) (literal iso)
| pp_instance level cls encode o out :
    encoders !! cls = Some encode ->
    encode (JInstance cls) = Ok o ->
    pretty_printed level o out ->
    pretty_printed level (JInstance cls) out.

End Layout.

(** The encoders the module registers when it is loaded are in
    place. *)
Definition registered_at_import (encoders : gmap string encoder) : Prop :=
  encoders !! "complex" = Some encode_complex
  /\ encoders !! "datetime.datetime" = Some encode_isoformat
  /\ encoders !! "datetime.date" = Some encode_isoformat
  /\ encoders !! "datetime.time" = Some encode_isoformat.

(** An encoder made with the friendly encoder over a registry that has
    the entries of the module, sorted keys, an indent of four spaces and
    the separators that go with an indent. *)
Definition friendly_pretty (encoders : gmap string encoder) (cfg : config)
  : Prop :=
  registered_at_import encoders
  /\ cfg_default cfg = FriendlyEncoder_default encoders
  /\ cfg_sort_keys cfg = true
  /\ cfg_indent cfg = Some (replicate 4 space)
  /\ cfg_item_separator cfg = u ","
  /\ cfg_key_separator cfg = u ": ".

End Json_.

(** ** Sample registries, resources and worlds *)

Module Samples.

Import Py Pagination Simplate.

(** A splitter that finds a logic page and two template pages. *)
Definition two_templates (decoded : string) : list Page :=
  [Page_ "x = 1"; mkPage "Hi" "text/plain" 2; mkPage "<b>Hi</b>" "text/html" 4].

Definition two_renderers : SimplateDefaults :=
  mkDefaults ∅
    (<["jinja2" := Failed "No module named jinja2"]>
       (<["stdlib_format" := Factory (fun _ _ _ _ => Raise TypeError)]> ∅))
    ∅.

(** A renderer that returns a fixed greeting. *)
Definition hello : Renderer :=
  mkRenderer "stdlib_format" (fun _ _ => Ok (VStr "Hello")).

(** A renderer that returns the length of the list bound to [hits]. *)
Definition count_hits : Renderer :=
  mkRenderer "count_hits" (fun w context =>
    match namespaces w !! context with
    | Some d =>
        match d !! "hits" with
        | Some (VRef l) =>
            match objects w !! l with
            | Some (OList xs) => Ok (VInt (Z.of_nat (length xs)))
            | _ => Raise TypeError
            end
        | _ => Raise (KeyError (VStr "hits"))
        end
    | None => Raise TypeError
    end).

(** Run-once left [hits = []] in namespace 0; run-every is
    [hits.append(1)]. *)
Definition counter : Simplate :=
  mkSimplate "counter.spt" "text/plain" {["text/plain" := count_hits]}
             ["text/plain"] 0 (block [SAppend "hits" (EConst (VInt 1))]).

(** Namespace 0 is the run-once context of [counter]; 1 and 2 are the
    contexts of two callers. *)
Definition counter_world : world :=
  World [{["hits" := VRef 0]}; ∅; {["name" := VStr "program"]}]
        [OList []] [].

(** Run-once left [x = 1] in namespace 0; run-every is [x = 5]. *)
Definition rebinder : Simplate :=
  mkSimplate "rebinder.spt" "text/plain" {["text/plain" := hello]}
             ["text/plain"] 0 (block [SAssign "x" (EConst (VInt 5))]).

Definition rebinder_world : world :=
  World [{["x" := VInt 1]}; ∅; {["name" := VStr "program"]}] [] [].

(** Run-every is [output.body = 'custom']. *)
Definition custom_body : Simplate :=
  mkSimplate "custom.spt" "text/plain" {["text/plain" := hello]}
             ["text/plain"] 0 (block [SSetBody (EConst (VStr "custom"))]).

(** Both logic pages are empty. *)
Definition greeting : Simplate :=
  mkSimplate "greeting.spt" "text/plain" {["text/plain" := hello]}
             ["text/plain"] 0 (block []).

(** A code unit that is not local: it binds [hits] in namespace 0
    whatever its globals are, as a call of a function defined by the
    run-once page of [counter] does when that function assigns the
    global [hits]. *)
Definition global_writer : code := fun _ => ns_setitem 0 "hits" VNone.

Definition resetter : Simplate :=
  mkSimplate "counter.spt" "text/plain" {["text/plain" := count_hits]}
             ["text/plain"] 0 global_writer.

(** Namespace 0 is an empty run-once context, 1 an empty caller
    context. *)
Definition empty_world : world := World [∅; ∅] [] [].

(** The simplate ["[---]\n[---]\nHello, %(name)s!"] stored as
    [hello.txt.spt]: what the splitter finds in it, a specline parser for
    its empty speclines, a compiler for its empty logic pages, and a
    factory whose renderer fills in [name]. *)
Definition hello_pages (decoded : string) : list Page :=
  [Page_ EmptyString; mkPage EmptyString EmptyString 1;
   mkPage "Hello, %(name)s!" EmptyString 2].

Definition no_specline (specline : string) : result (string * string) :=
  Ok (EmptyString, EmptyString).

Definition no_statements (source filename : string) : result code :=
  Ok (block []).

Definition format_name : factory := fun fspath content media_type offset =>
  Ok (mkRenderer "stdlib_format" (fun w context =>
        match namespaces w !! context with
        | Some d =>
            match d !! "name" with
            | Some (VStr name) => Ok (VStr ("Hello, " +:+ name +:+ "!"))
            | _ => Raise (KeyError (VStr "name"))
            end
        | None => Raise TypeError
        end)).

Definition hello_defaults : SimplateDefaults :=
  mkDefaults {["text/plain" := "stdlib_format"]}
             {["stdlib_format" := Factory format_name]} ∅.

(** The context of a caller, [{'name': 'program'}], alone in the store. *)
Definition program_world : world :=
  World [{["name" := VStr "program"]}] [] [].

End Samples.

(** ** URL paths, [aspen/http/request.py] *)

Module Request.

Import Py.

(** [s.lstrip(c)] for a single character [c] *)
Fixpoint lstrip (c : ascii) (s : string) : string :=
  match s with
  | EmptyString => EmptyString
  | String d s' => if Ascii.eqb d c then lstrip c s' else s
  end.

(** [s.split(sep)] for a single character [sep]: never an empty list. *)
Fixpoint split (sep : ascii) (s : string) : list string :=
  match s with
  | EmptyString => [EmptyString]
  | String c s' =>
      if Ascii.eqb c sep then EmptyString :: split sep s'
      else
        match split sep s' with
        | [] => [String c EmptyString]
        | piece :: pieces => String c piece :: pieces
        end
  end.

(** [c in s] *)
Fixpoint contains (c : ascii) (s : string) : bool :=
  match s with
  | EmptyString => false
  | String d s' => Ascii.eqb d c || contains c s'
  end.

(** [k, v = s.split(sep, 1)] for an [s] that holds [sep] *)
Fixpoint split_once (sep : ascii) (s : string) : string * string :=
  match s with
  | EmptyString => (EmptyString, EmptyString)
  | String c s' =>
      if Ascii.eqb c sep then (EmptyString, s')
      else let '(k, v) := split_once sep s' in (String c k, v)
  end.

(** How many times [c] occurs in [s]. *)
Fixpoint count (c : ascii) (s : string) : nat :=
  match s with
  | EmptyString => 0
  | String d s' => (if Ascii.eqb d c then 1 else 0) + count c s'
  end.

Section Paths.

(** [urllib.parse.unquote] *)
Variable unquote : string -> string.

(** The [Mapping] class of [aspen/http/mapping.py], with [Mapping()] and
    [params.add(k, v)], which returns the mapping as [add] leaves it. *)
Variable Mapping : Type.
Variable Mapping_ : Mapping.
Variable add : Mapping -> string -> string -> Mapping.

(** [PathPart(value, params=None)]: a [str] with the attribute
    [params]. *)
Record PathPart := mkPathPart {
  segment : string;
  params : option Mapping
}.

(** One round of the loop over [parts[1:]] *)
Definition add_param (params : Mapping) (p : string) : Mapping :=
  let '(k, v) :=
    if contains "=" p then split_once "=" p else (p, EmptyString) in
  add params (unquote k) (unquote v).

(** The body of the loop over [pathsegs] *)
Definition extract_component (component : string) : result PathPart :=
  let parts := split ";" component in
  let params := Mapping_ in
  match parts with
  | [] => Raise IndexError
  | first :: rest =>
      let segment := unquote first in
      let params := foldl add_param params rest in
      Ok (mkPathPart segment (Some params))
  end.

(** What the loop makes of a component: the text before the first
    semicolon, decoded, and the parameters behind it, added in order. *)
Definition part_of (component : string) (part : PathPart) : Prop :=
  exists first rest,
    split ";" component = first :: rest
    /\ part = mkPathPart (unquote first) (Some (foldl add_param Mapping_ rest)).

Fixpoint extract_components (pathsegs : list string)
    (segments_with_params : list PathPart) : result (list PathPart) :=
  match pathsegs with
  | [] => Ok segments_with_params
  | component :: rest =>
      rbind (extract_component component) (fun part =>
      extract_components rest (segments_with_params ++ [part]))
  end.

Definition extract_rfc2396_params (path : string) : result (list PathPart) :=
  let pathsegs := split "/" (lstrip "/" path) in
  extract_components pathsegs [].

Definition split_path_no_params (path : string) : list PathPart :=
  map (fun s => mkPathPart (unquote s) None) (split "/" (lstrip "/" path)).

End Paths.

End Request.

(** ** More samples *)

Module More_samples.

Import Py Pagination Simplate Samples.

(** Run-once bound [a], [b] and [output]; the caller's context 1 binds
    [b], [c] and exports [a] and [c]; object 0 is the export list. *)
Definition exporter : Simplate :=
  mkSimplate "export.spt" "text/plain" {["text/plain" := hello]}
             ["text/plain"] 0 (block []).

Definition export_world : world :=
  World [{["a" := VInt 1]};
         <["__all__" := VRef 0]> (<["a" := VInt 1]> (<["c" := VInt 3]> ∅))]
        [OList [VStr "a"; VStr "c"]] [].




(** A compiler for [hello.txt.spt] with a run-every page that is not
    empty: the code of an empty source does nothing, the code of any
    other source writes to namespace 0 when it is run. *)
Definition writer_unless_empty (source filename : string) : result code :=
  Ok (if String.eqb source EmptyString then block [] else global_writer).

(** Run-every is [__all__ = 'b']: the one name it exports is not bound. *)
Definition unbound_export : Simplate :=
  mkSimplate "export.spt" "text/plain" {["text/plain" := hello]}
             ["text/plain"] 0 (block [SAssign "__all__" (EConst (VStr "b"))]).

(** Run-every sets the body to the empty string. *)
Definition empty_body : Simplate :=
  mkSimplate "empty.spt" "text/plain" {["text/plain" := hello]}
             ["text/plain"] 0 (block [SSetBody (EConst (VStr EmptyString))]).

(** The values the backend encoder hands to [default]: those it does
    not serialise by itself. *)
Definition handed_to_default (obj : Json_.jvalue) : bool :=
  match obj with
  | Json_.JComplex _ _ | Json_.JDateTime _ | Json_.JDate _ | Json_.JTime _
  | Json_.JInstance _ => true
  | _ => false
  end.

(** The keywords of a call that passes [default=lambda obj: 'n/a'] and
    nothing else. *)
Definition constant_default : Json_.kwargs :=
  Json_.mkKw None None None None None None None
             (Some (Some (fun _ => Ok (Json_.JStr (Json_.u "n/a"))))) None [].

(** The keywords of a call that passes [separators=(',', ':')] and
    nothing else. *)
Definition compact_separators : Json_.kwargs :=
  Json_.mkKw None None None None None None
             (Some (Some (Json_.u ",", Json_.u ":"))) None None [].

(** [{'complex': complex(1, 2)}] *)
Definition complex_entry : Json_.jvalue :=
  Json_.JDict [(Json_.KStr (Json_.u "complex"),
                Json_.JComplex (Json_.Finite "1.0") (Json_.Finite "2.0"))].

(** The note [starred] adds to the message once an entry has failed. *)
Definition starred_legend : string :=
  " (starred are missing third-party libraries)".

(** A path segment written out: the name, then each parameter behind a
    semicolon, as [k=v] or as a bare [k]. *)
Definition written_param (p : string * option string) : string :=
  match p.2 with
  | Some v => p.1 +:+ String "=" v
  | None => p.1
  end.

Fixpoint written_params (ps : list (string * option string)) : string :=
  match ps with
  | [] => EmptyString
  | p :: rest => String ";" (written_param p +:+ written_params rest)
  end.

Definition written_component (name : string)
    (ps : list (string * option string)) : string :=
  name +:+ written_params ps.

(** A mapping as the list of the pairs added to it, in order. *)
Definition add_pair (m : list (string * string)) (k v : string)
  : list (string * string) := m ++ [(k, v)].

End More_samples.

(** * Properties *)

Import Py Pagination Simplate Samples.

(** ** Page normalisation *)

Section Normalisation.

Let blank : Page := Page_ EmptyString.

Variable split_and_escape : string -> list Page.

Lemma str_truthy_empty (s : string) : str_truthy s = false <-> s = EmptyString.
Proof. destruct s; simpl; split; congruence. Qed.

(** The source has no branch for a split without pages: the lookup of
    [pages[1]] raises. *)
Lemma parse_into_pages_nil (decoded : string) :
  split_and_escape decoded = [] ->
  parse_into_pages split_and_escape decoded = Raise IndexError.
Proof. intros H. unfold parse_into_pages. by rewrite H. Qed.

(** Whatever comes back keeps the split pages as its tail, behind at
    most two blank pages. *)
Lemma parse_into_pages_suffix (decoded : string) (out : list Page) :
  parse_into_pages split_and_escape decoded = Ok out ->
  out = split_and_escape decoded
  \/ out = blank :: split_and_escape decoded
  \/ out = blank :: blank :: split_and_escape decoded.
Proof.
  unfold parse_into_pages, Ok.
  destruct (length _ =? 1)%nat; [intros [= <-]; auto |].
  destruct (length _ =? 2)%nat; [intros [= <-]; auto |].
  destruct (_ !! 1%nat) as [p1|]; [| discriminate].
  destruct (str_truthy (header p1)); intros [= <-]; auto.
Qed.

(** C1: normalisation of a split of one or more pages follows the
    page-count/header table: one page gets two blank pages in front,
    two pages get one; three or more pages get one blank page in front
    when the second page has a header and are returned unchanged when it
    has none.  In every case at least two logic pages come before the
    template pages. *)
Theorem parse_into_pages_table (decoded : string) (pages : list Page) :
  split_and_escape decoded = pages ->
  (1 <= length pages)%nat ->
  exists out : list Page,
    parse_into_pages split_and_escape decoded = Ok out
    /\ (3 <= length out)%nat
    /\ (forall p, pages = [p] -> out = [blank; blank; p])
    /\ (forall p0 p1, pages = [p0; p1] -> out = [blank; p0; p1])
    /\ (forall p1, (3 <= length pages)%nat -> pages !! 1%nat = Some p1 ->
          header p1 <> EmptyString -> out = blank :: pages)
    /\ (forall p1, (3 <= length pages)%nat -> pages !! 1%nat = Some p1 ->
          header p1 = EmptyString -> out = pages).
Proof.
  intros Hsplit Hlen. unfold parse_into_pages. rewrite Hsplit.
  destruct pages as [|p0 [|p1 [|p2 rest]]]; simpl in Hlen; [lia | | |].
  - exists [blank; blank; p0].
    split_and!; simpl; try done; try lia; intros; simplify_eq/=; done || lia.
  - exists [blank; p0; p1].
    split_and!; simpl; try done; try lia; intros; simplify_eq/=; done || lia.
  - cbn [length Nat.eqb lookup list_lookup].
    destruct (str_truthy (header p1)) eqn:Hh.
    + eexists; split; [reflexivity |].
      split_and!; simpl; try done; try lia.
      intros q _ [= <-] Hq. apply str_truthy_empty in Hq. congruence.
    + eexists; split; [reflexivity |].
      split_and!; simpl; try done; try lia.
      intros q _ [= <-] Hq. apply str_truthy_empty in Hh. congruence.
Qed.

End Normalisation.

Lemma parse_into_pages_table_witness :
  (1 <= length (two_templates "x = 1 ..."))%nat
  /\ parse_into_pages two_templates "x = 1 ..."
     = Ok (Page_ EmptyString :: two_templates "x = 1 ...").
Proof.
  split; [simpl; lia |].
  destruct (parse_into_pages_table two_templates "x = 1 ..."
              (two_templates "x = 1 ...") eq_refl)
    as (out & Hout & _ & _ & _ & Hheader & _); [simpl; lia |].
  rewrite Hout. f_equal.
  apply (Hheader (mkPage "Hi" "text/plain" 2));
    [simpl; lia | reflexivity | discriminate].
Defined.


(** ** The regular expressions *)

Section Regex.

Lemma append_cons (c : ascii) (a b : string) :
  String c a +:+ b = String c (a +:+ b).
Proof. reflexivity. Qed.

Lemma append_nil_r (a : string) : a +:+ EmptyString = a.
Proof. induction a as [|c a IH]; [done |]. by rewrite append_cons, IH. Qed.

Lemma append_assoc (a b c : string) : (a +:+ b) +:+ c = a +:+ b +:+ c.
Proof.
  induction a as [|d a IH]; [done |]. by rewrite !append_cons, IH.
Qed.

Lemma match_plus_cons cls p d s :
  Re.match_here (Re.Plus cls :: p) (String d s)
  = Re.in_class cls d
    && (Re.match_here (Re.Plus cls :: p) s || Re.match_here p s).
Proof. reflexivity. Qed.

Lemma match_lit_cons c p d s :
  Re.match_here (Re.Lit c :: p) (String d s)
  = Ascii.eqb c d && Re.match_here p s.
Proof. reflexivity. Qed.

Lemma match_plus_nil cls p :
  Re.match_here (Re.Plus cls :: p) EmptyString = false.
Proof. reflexivity. Qed.

(** [[...]+] followed by [p] matches when a non-empty run of the class
    is followed by a match of [p]. *)
Lemma match_plus_iff cls p s :
  Re.match_here (Re.Plus cls :: p) s = true <->
  exists body rest,
    s = body +:+ rest /\ body <> EmptyString
    /\ all_chars (Re.in_class cls) body = true
    /\ Re.match_here p rest = true.
Proof.
  induction s as [|d s IH].
  - rewrite match_plus_nil. split; [done |].
    intros (body & rest & Hs & Hne & _). by destruct body.
  - rewrite match_plus_cons, andb_true_iff, orb_true_iff, IH. split.
    + intros [Hd [(body & rest & -> & Hne & Hall & Hp) | Hp]].
      * exists (String d body), rest. simpl. by rewrite Hd, Hall.
      * exists (String d EmptyString), s. simpl. by rewrite Hd.
    + intros (body & rest & Hs & Hne & Hall & Hp).
      destruct body as [|d' body]; [done |].
      rewrite append_cons in Hs. injection Hs as -> ->.
      simpl in Hall. apply andb_true_iff in Hall as [Hd Hall].
      split; [done |].
      destruct body as [|d'' body]; [by right |].
      left. by exists (String d'' body), rest.
Qed.

Lemma at_dollar_iff s :
  Re.at_dollar s = true <-> s = EmptyString \/ s = newline.
Proof.
  destruct s as [|c [|c' s]]; simpl; unfold newline.
  - split; auto.
  - rewrite Ascii.eqb_eq. split; [intros ->; auto |].
    by intros [[=] | [= ->]].
  - split; [done |]. by intros [[=] | [=]].
Qed.

Lemma match_dollar_iff s :
  Re.match_here [Re.Dollar] s = true <-> s = EmptyString \/ s = newline.
Proof. simpl. rewrite andb_true_r. apply at_dollar_iff. Qed.

(** What [renderer_re] accepts: a non-empty run of its class, possibly
    followed by one newline. *)
Lemma renderer_re_accepts s :
  Re.re_match renderer_re s = true <->
  exists body,
    body <> EmptyString
    /\ all_chars (Re.in_class renderer_class) body = true
    /\ (s = body \/ s = body +:+ newline).
Proof.
  unfold Re.re_match, renderer_re. rewrite match_plus_iff. split.
  - intros (body & rest & -> & Hne & Hall & [-> | ->]%match_dollar_iff);
      exists body; rewrite ?append_nil_r; auto.
  - intros (body & Hne & Hall & [-> | ->]).
    + exists body, EmptyString. by rewrite append_nil_r.
    + exists body, newline. split_and!; try done.
  Qed.

(** What [media_type_re] accepts: two non-empty runs of letters, digits
    and [. + * -] around one slash, possibly followed by one newline. *)
Lemma media_type_re_accepts s :
  Re.re_match media_type_re s = true <->
  exists type subtype,
    type <> EmptyString /\ subtype <> EmptyString
    /\ all_chars (Re.in_class media_type_class) type = true
    /\ all_chars (Re.in_class media_type_class) subtype = true
    /\ (s = type +:+ "/" +:+ subtype
        \/ s = type +:+ "/" +:+ subtype +:+ newline).
Proof.
  unfold Re.re_match, media_type_re. rewrite match_plus_iff. split.
  - intros (type & rest & -> & Hne & Hall & Hrest).
    destruct rest as [|c rest]; [done |].
    rewrite match_lit_cons in Hrest.
    apply andb_true_iff in Hrest as [<-%Ascii.eqb_eq Hrest].
    apply match_plus_iff in Hrest
      as (subtype & rest' & -> & Hne' & Hall' & [-> | ->]%match_dollar_iff);
      exists type, subtype; rewrite ?append_nil_r; split_and!; auto.
  - intros (type & subtype & Hne & Hne' & Hall & Hall' & Hs).
    assert (exists tail, s = type +:+ String "/" (subtype +:+ tail)
                         /\ (tail = EmptyString \/ tail = newline))
      as (tail & -> & Htail).
    { destruct Hs as [-> | ->].
      - exists EmptyString. by rewrite append_nil_r; auto.
      - exists newline. auto. }
    exists type, (String "/" (subtype +:+ tail)).
    split_and!; try done.
    rewrite match_lit_cons, Ascii.eqb_refl, andb_true_l.
    apply match_plus_iff. exists subtype, tail. split_and!; try done.
    by apply match_dollar_iff.
Qed.

End Regex.

(** ** Validation of renderer names *)

Section Renderer_names.

(** C6: the renderer pattern does not accept exactly the names made of
    lowercase letters, digits, ['.'], ['-'] and ['_'].  In
    [[a-z0-9.-_]] the hyphen makes a range from ['.'] to ['_']: a name
    with a hyphen is refused with a [SyntaxError] although it is made of
    the listed characters only, and a name in capitals goes through
    validation and is resolved. *)
Theorem renderer_re_hyphen_is_a_range :
  spec_renderer_name "my-renderer" = true
  /\ Re.re_match renderer_re "my-renderer" = false
  /\ (forall defaults media_type,
        _get_renderer_factory defaults media_type "my-renderer"
        = Raise (SyntaxError
                   (malformed_renderer_msg "my-renderer"
                      (join ", " (sorted_keys (renderer_factories defaults))))))
  /\ spec_renderer_name "JINJA2" = false
  /\ Re.re_match renderer_re "JINJA2" = true
  /\ (forall media_type make_renderer,
        _get_renderer_factory
          (mkDefaults ∅ (<["JINJA2" := Factory make_renderer]> ∅) ∅)
          media_type "JINJA2"
        = Ok make_renderer).
Proof.
  split_and!; reflexivity.
Qed.

(** No name with a hyphen in it gets past the pattern. *)
Lemma renderer_re_refuses_hyphen (s t : string) :
  Re.re_match renderer_re (s +:+ String "-" t) = false.
Proof.
  unfold Re.re_match, renderer_re.
  induction s as [|c s IH].
  - reflexivity.
  - rewrite append_cons, match_plus_cons, IH.
    assert (Re.match_here [Re.Dollar] (s +:+ String "-" t) = false) as ->.
    { destruct s as [|d s]; [by destruct t | by destruct s]. }
    apply andb_false_r.
Qed.

(** The media type pattern, for its part, is the one the specification
    describes: a media type of the form type/subtype over the listed
    characters is accepted. *)
Lemma media_type_re_complete (type subtype : string) :
  type <> EmptyString -> subtype <> EmptyString ->
  all_chars (Re.in_class media_type_class) type = true ->
  all_chars (Re.in_class media_type_class) subtype = true ->
  Re.re_match media_type_re (type +:+ "/" +:+ subtype) = true.
Proof.
  intros. apply media_type_re_accepts. exists type, subtype. auto 10.
Qed.

End Renderer_names.

(** ** Resolution of a renderer name *)

Section Registry.

Implicit Types factories : gmap string entry.

Lemma starred_spec (items : list (string * entry)) possible legend :
  (starred items possible legend).1 = possible ++ map shown items.
Proof.
  revert possible legend.
  induction items as [|[k v] items IH]; intros possible legend; simpl.
  - by rewrite app_nil_r.
  - destruct v; rewrite IH, <- app_assoc; reflexivity.
Qed.

Lemma sorted_items_perm factories :
  sorted_items factories ≡ₚ map_to_list factories.
Proof. apply merge_sort_Permutation. Qed.

Lemma shown_registered factories k v :
  factories !! k = Some v ->
  shown (k, v) ∈ map shown (sorted_items factories).
Proof.
  intros Hk. apply list_elem_of_fmap. exists (k, v). split; [done |].
  rewrite sorted_items_perm. by apply elem_of_map_to_list.
Qed.

(** Validation comes first: a name the pattern refuses never reaches the
    registry. *)
Lemma _get_renderer_factory_malformed defaults media_type renderer :
  Re.re_match renderer_re renderer = false ->
  _get_renderer_factory defaults media_type renderer
  = Raise (SyntaxError
             (malformed_renderer_msg renderer
                (join ", " (sorted_keys (renderer_factories defaults))))).
Proof. intros H. unfold _get_renderer_factory. by rewrite H. Qed.

(** C5, as the code has it, for the names on which the renderer pattern
    as the specification words it and the pattern as the code reads it
    agree.  For a name both accept, exactly one of three things happens:
    a registered factory is returned; a stored import failure is raised
    again as it is; for a name that is not registered a [ValueError] is
    raised whose message lists every registered name once, the names of
    failed entries with a star in front.  A name both refuse is refused
    with a [SyntaxError] ahead of the lookup, registered or not.  Nothing
    is said of the names on which the two readings differ. *)
Theorem _get_renderer_factory_outcomes defaults media_type renderer :
  (spec_renderer_name renderer = true ->
   Re.re_match renderer_re renderer = true ->
   match renderer_factories defaults !! renderer with
   | Some (Factory make_renderer) =>
       _get_renderer_factory defaults media_type renderer = Ok make_renderer
   | Some (Failed e) =>
       _get_renderer_factory defaults media_type renderer
       = Raise (ImportError e)
   | None =>
       exists possible legend,
         _get_renderer_factory defaults media_type renderer
         = Raise (ValueError
                    (unknown_renderer_msg media_type renderer legend
                       (join ", " possible)))
         /\ possible ≡ₚ map shown (map_to_list (renderer_factories defaults))
         /\ (forall k make_renderer,
               renderer_factories defaults !! k = Some (Factory make_renderer) ->
               k ∈ possible)
         /\ (forall k e,
               renderer_factories defaults !! k = Some (Failed e) ->
               ("*" +:+ k) ∈ possible)
   end)
  /\ (spec_renderer_name renderer = false ->
      Re.re_match renderer_re renderer = false ->
      _get_renderer_factory defaults media_type renderer
      = Raise (SyntaxError
                 (malformed_renderer_msg renderer
                    (join ", "
                       (sorted_keys (renderer_factories defaults)))))).
Proof.
  split.
  - intros _ Hre. unfold _get_renderer_factory. rewrite Hre. simpl.
    destruct (renderer_factories defaults !! renderer) as [[f | e] |] eqn:Hr;
      [done | done |].
    pose proof (starred_spec (sorted_items (renderer_factories defaults))
                  [] EmptyString) as Hst.
    destruct (starred _ _ _) as [possible legend]. simpl in Hst. subst possible.
    eexists _, legend. split; [reflexivity |]. split_and!.
    + by rewrite sorted_items_perm.
    + intros k f Hk. apply (shown_registered _ _ _ Hk).
    + intros k e Hk. apply (shown_registered _ _ _ Hk).
  - intros _ Hre. by apply _get_renderer_factory_malformed.
Qed.

Lemma _get_renderer_factory_outcomes_witness :
  (spec_renderer_name "pystache" = true
   /\ Re.re_match renderer_re "pystache" = true
   /\ exists possible legend,
        _get_renderer_factory two_renderers "text/html" "pystache"
        = Raise (ValueError
                   (unknown_renderer_msg "text/html" "pystache" legend
                      (join ", " possible)))
        /\ "*jinja2" ∈ possible)
  /\ (spec_renderer_name "std format" = false
      /\ Re.re_match renderer_re "std format" = false
      /\ _get_renderer_factory two_renderers "text/html" "std format"
         = Raise (SyntaxError
                    (malformed_renderer_msg "std format"
                       "jinja2, stdlib_format"))).
Proof.
  split.
  - split; [reflexivity |]. split; [reflexivity |].
    destruct (_get_renderer_factory_outcomes two_renderers "text/html"
                "pystache") as [Haccepted _].
    destruct (Haccepted eq_refl eq_refl)
      as (possible & legend & Heq & _ & _ & Hfailed).
    exists possible, legend. split; [exact Heq |].
    apply (Hfailed "jinja2" "No module named jinja2"). reflexivity.
  - split; [reflexivity |]. split; [reflexivity |].
    destruct (_get_renderer_factory_outcomes two_renderers "text/html"
                "std format") as [_ Hrefused].
    rewrite (Hrefused eq_refl eq_refl). reflexivity.
Defined.

(** C5, as stated, fails on a name the pattern refuses, under either
    reading of the pattern: the outcome is a [SyntaxError], none of the
    three, both for a name that is not registered and for one that
    is. *)
Lemma _get_renderer_factory_fourth_outcome :
  spec_renderer_name "No Such Renderer" = false
  /\ renderer_factories two_renderers !! "No Such Renderer" = None
  /\ _get_renderer_factory two_renderers "text/html" "No Such Renderer"
     = Raise (SyntaxError
                (malformed_renderer_msg "No Such Renderer"
                   "jinja2, stdlib_format"))
  /\ spec_renderer_name "my renderer" = false
  /\ _get_renderer_factory
       (mkDefaults ∅ (<["my renderer" := Factory format_name]> ∅) ∅)
       "text/html" "my renderer"
     = Raise (SyntaxError
                (malformed_renderer_msg "my renderer" "my renderer")).
Proof. split_and!; reflexivity. Qed.

End Registry.

(** ** Template pages and their media types *)

Section Content_pages.

Implicit Types pages : list (Renderer * string).
Implicit Types renderers : gmap string Renderer.

Lemma content_pages_cons renderer media_type pages renderers available :
  content_pages ((renderer, media_type) :: pages) renderers available
  = match renderers !! media_type with
    | Some _ => Raise (SyntaxError (duplicate_msg media_type))
    | None =>
        content_pages pages (<[media_type := renderer]> renderers)
                      (available ++ [media_type])
    end.
Proof. reflexivity. Qed.

(** Distinct media types, none of them taken yet: every page is
    recorded, in order. *)
Lemma content_pages_fresh pages : forall renderers available,
  NoDup pages.*2 ->
  (forall mt, mt ∈ pages.*2 -> renderers !! mt = None) ->
  exists renderers',
    content_pages pages renderers available
    = Ok (renderers', available ++ pages.*2)
    /\ forall mt r,
         renderers' !! mt = Some r
         <-> renderers !! mt = Some r \/ (r, mt) ∈ pages.
Proof.
  induction pages as [|[r0 m0] pages IH]; intros renderers available Hnd Hfresh.
  - exists renderers. simpl. rewrite app_nil_r. split; [done |].
    intros mt r. rewrite elem_of_nil. tauto.
  - rewrite content_pages_cons. cbn [fmap list_fmap snd] in *.
    apply NoDup_cons in Hnd as [Hm0 Hnd].
    rewrite (Hfresh m0) by apply list_elem_of_here.
    destruct (IH (<[m0 := r0]> renderers) (available ++ [m0]) Hnd)
      as (renderers' & Heq & Hlookup).
    { intros mt Hmt. rewrite lookup_insert_ne by (intros ->; done).
      apply Hfresh. by apply list_elem_of_further. }
    exists renderers'. split.
    { rewrite Heq. by rewrite <- app_assoc. }
    intros mt r. rewrite Hlookup, elem_of_cons.
    destruct (decide (m0 = mt)) as [<- | Hne].
    + rewrite lookup_insert_eq, (Hfresh m0) by apply list_elem_of_here.
      split.
      * intros [[= <-] | Hin]; auto.
      * intros [[=] | [[= <-] | Hin]]; auto.
    + rewrite lookup_insert_ne by done. split.
      * intros [? | ?]; auto.
      * intros [? | [[= <- <-] | ?]]; auto. done.
Qed.

(** When the loop raises, it is for a media type met before. *)
Lemma content_pages_raises pages : forall renderers available e,
  content_pages pages renderers available = Raise e ->
  exists mt j,
    e = SyntaxError (duplicate_msg mt)
    /\ pages.*2 !! j = Some mt
    /\ (is_Some (renderers !! mt)
        \/ exists i, (i < j)%nat /\ pages.*2 !! i = Some mt).
Proof.
  induction pages as [|[r0 m0] pages IH]; intros renderers available e.
  - discriminate.
  - rewrite content_pages_cons.
    destruct (renderers !! m0) as [r|] eqn:Hm0.
    + intros [= <-]. exists m0, 0%nat. split_and!; [done | done |].
      left. by exists r.
    + intros (mt & j & -> & Hj & Hclash)%IH.
      exists mt, (S j). split_and!; [done | done |].
      destruct Hclash as [Hsome | (i & Hij & Hi)].
      * destruct (decide (m0 = mt)) as [<- | Hne].
        -- right. exists 0%nat. split; [lia | done].
        -- left. by rewrite lookup_insert_ne in Hsome.
      * right. exists (S i). split; [lia | done].
Qed.

(** When the loop returns, the media types were distinct and free. *)
Lemma content_pages_returns pages : forall renderers available out,
  content_pages pages renderers available = Ok out ->
  NoDup pages.*2 /\ forall mt, mt ∈ pages.*2 -> renderers !! mt = None.
Proof.
  induction pages as [|[r0 m0] pages IH]; intros renderers available out.
  - intros _. split; [constructor |]. by intros mt ?%elem_of_nil.
  - rewrite content_pages_cons.
    destruct (renderers !! m0) as [r|] eqn:Hm0; [discriminate |].
    intros [Hnd Hfresh]%IH. cbn [fmap list_fmap snd]. split.
    + apply NoDup_cons. split; [| done].
      intros Hin. specialize (Hfresh m0 Hin).
      by rewrite lookup_insert_eq in Hfresh.
    + intros mt [-> | Hin]%elem_of_cons; [done |].
      specialize (Hfresh mt Hin).
      destruct (decide (m0 = mt)) as [<- | Hne].
      * by rewrite lookup_insert_eq in Hfresh.
      * by rewrite lookup_insert_ne in Hfresh.
Qed.


End Content_pages.

(** ** The store monad *)

Section Monad.

Context {A B : Type}.

Lemma bind_unfold (m : M A) (k : A -> M B) (w : world) :
  (m ≫= k) w
  = match m w with
    | (w', inl e) => (w', inl e)
    | (w', inr a) => k a w'
    end.
Proof. reflexivity. Qed.

Lemma bind_ok (m : M A) (k : A -> M B) w w' a :
  m w = (w', Ok a) -> (m ≫= k) w = k a w'.
Proof. intros H. by rewrite bind_unfold, H. Qed.

Lemma bind_raise (m : M A) (k : A -> M B) w w' e :
  m w = (w', Raise e) -> (m ≫= k) w = (w', Raise e).
Proof. intros H. by rewrite bind_unfold, H. Qed.

Lemma bind_ok_inv (m : M A) (k : A -> M B) w w' b :
  (m ≫= k) w = (w', Ok b) ->
  exists w1 a, m w = (w1, Ok a) /\ k a w1 = (w', Ok b).
Proof.
  rewrite bind_unfold. destruct (m w) as [w1 [e | a]]; [discriminate |].
  intros H. by exists w1, a.
Qed.

Lemma preserves_bind (R : world -> world -> Prop) `{!Transitive R}
    (m : M A) (k : A -> M B) :
  preserves R m -> (forall a, preserves R (k a)) -> preserves R (m ≫= k).
Proof.
  intros Hm Hk w. rewrite bind_unfold. specialize (Hm w).
  destruct (m w) as [w1 [e | a]]; [done |].
  simpl in Hm. etrans; [exact Hm | apply Hk].
Qed.

End Monad.

Section Frames.

#[local] Instance ns_preserved_refl g : Reflexive (ns_preserved g).
Proof. by intros w i d. Qed.

#[local] Instance ns_preserved_trans g : Transitive (ns_preserved g).
Proof. intros w1 w2 w3 H12 H23 i d Hi Hd. eauto. Qed.

#[local] Instance outputs_kept_refl : Reflexive outputs_kept.
Proof. intros w l mt b H. eauto. Qed.

#[local] Instance outputs_kept_trans : Transitive outputs_kept.
Proof.
  intros w1 w2 w3 H12 H23 l mt b H.
  destruct (H12 _ _ _ H) as [b' H']. eauto.
Qed.

#[local] Instance trace_kept_refl : Reflexive trace_kept.
Proof. by intros w. Qed.

#[local] Instance trace_kept_trans : Transitive trace_kept.
Proof. unfold trace_kept. intros w1 w2 w3 H12 H23. congruence. Qed.

(** A computation that leaves the world as it is preserves any
    reflexive relation. *)
Lemma preserves_pure {A} (R : world -> world -> Prop) `{!Reflexive R}
    (m : M A) :
  (forall w, (m w).1 = w) -> preserves R m.
Proof. intros H w. by rewrite H. Qed.

Lemma ns_get_pure g w : (ns_get g w).1 = w.
Proof. unfold ns_get. by destruct (namespaces w !! g). Qed.

Lemma get_body_pure t w : (get_body t w).1 = w.
Proof.
  unfold get_body. destruct t; try done.
  by destruct (objects w !! l) as [[]|].
Qed.

Lemma list_append_attr_pure t w : (list_append_attr t w).1 = w.
Proof.
  unfold list_append_attr. destruct t; try done.
  by destruct (objects w !! l) as [[]|].
Qed.

Lemma iterate_pure v w : (iterate v w).1 = w.
Proof.
  unfold iterate. destruct v; try done.
  by destruct (objects w !! l) as [[]|].
Qed.

Lemma subscript_pure d k w : (subscript d k w).1 = w.
Proof.
  unfold subscript. destruct k; try done.
  by destruct (objects w !! l) as [[]|].
Qed.

(** *** Namespaces *)

Lemma ns_put_ns_preserved g d : preserves (ns_preserved g) (ns_put g d).
Proof.
  intros w i d' Hi Hd. simpl. by rewrite list_lookup_insert_ne.
Qed.

Lemma ns_new_ns_preserved g d : preserves (ns_preserved g) (ns_new d).
Proof. intros w i d' Hi Hd. simpl. by apply lookup_app_l_Some. Qed.

Lemma same_namespaces_preserved g {A} (m : M A) :
  (forall w, namespaces (m w).1 = namespaces w) ->
  preserves (ns_preserved g) m.
Proof. intros H w i d Hi Hd. by rewrite H. Qed.

Lemma obj_put_namespaces l o w : namespaces (obj_put l o w).1 = namespaces w.
Proof. reflexivity. Qed.

Lemma set_body_namespaces t v w : namespaces (set_body t v w).1 = namespaces w.
Proof.
  unfold set_body. destruct t; try done.
  by destruct (objects w !! l) as [[]|].
Qed.

Lemma list_append_call_namespaces l v w :
  namespaces (list_append_call l v w).1 = namespaces w.
Proof.
  unfold list_append_call. by destruct (objects w !! l) as [[]|].
Qed.

Lemma alloc_namespaces o w : namespaces (alloc o w).1 = namespaces w.
Proof. reflexivity. Qed.

Lemma call_namespaces r c w : namespaces (call r c w).1 = namespaces w.
Proof. reflexivity. Qed.

Ltac frame_bind := apply preserves_bind; [apply _ | | intros ?].

Lemma ns_setitem_ns_preserved g k v :
  preserves (ns_preserved g) (ns_setitem g k v).
Proof.
  unfold ns_setitem. frame_bind.
  - apply preserves_pure; [apply _ | apply ns_get_pure].
  - apply ns_put_ns_preserved.
Qed.

Lemma ns_update_ns_preserved g other :
  preserves (ns_preserved g) (ns_update g other).
Proof.
  unfold ns_update. frame_bind.
  - apply preserves_pure; [apply _ | apply ns_get_pure].
  - apply ns_put_ns_preserved.
Qed.

Lemma load_name_pure g x w : (load_name g x w).1 = w.
Proof.
  unfold load_name. rewrite bind_unfold.
  pose proof (ns_get_pure g w) as H.
  destruct (ns_get g w) as [w1 [e | d]]; simpl in *; subst; [done |].
  by destruct (d !! x).
Qed.

Lemma eval_ns_preserved g g' e : preserves (ns_preserved g) (eval g' e).
Proof.
  destruct e; simpl.
  - by apply preserves_pure; [apply _ |].
  - apply preserves_pure; [apply _ | apply load_name_pure].
  - by apply same_namespaces_preserved.
Qed.

Lemma exec_stmt_ns_preserved g s :
  preserves (ns_preserved g) (exec_stmt g s).
Proof.
  destruct s; simpl.
  - frame_bind; [apply eval_ns_preserved | apply ns_setitem_ns_preserved].
  - frame_bind; [apply preserves_pure; [apply _ | apply load_name_pure] |].
    frame_bind;
      [apply preserves_pure; [apply _ | apply list_append_attr_pure] |].
    frame_bind; [apply eval_ns_preserved |].
    apply same_namespaces_preserved, list_append_call_namespaces.
  - frame_bind; [apply eval_ns_preserved |].
    frame_bind; [apply preserves_pure; [apply _ | apply load_name_pure] |].
    apply same_namespaces_preserved, set_body_namespaces.
  - by apply preserves_pure; [apply _ |].
Qed.

(** A sequence of statements writes to its globals only. *)
Lemma block_local body : local (block body).
Proof.
  intros g. unfold exec.
  induction body as [|s body IH]; simpl.
  - by apply preserves_pure; [apply _ |].
  - frame_bind; [apply exec_stmt_ns_preserved | apply IH].
Qed.

Lemma prepare_ns_preserved self mt g :
  preserves (ns_preserved g) (prepare self mt g).
Proof.
  unfold prepare.
  frame_bind; [by apply same_namespaces_preserved |].
  frame_bind; [apply ns_setitem_ns_preserved |].
  frame_bind; [apply preserves_pure; [apply _ | apply ns_get_pure] |].
  frame_bind; [apply ns_update_ns_preserved |].
  by apply preserves_pure; [apply _ |].
Qed.

Lemma run_every_ns_preserved self mt g :
  local (page_two self) ->
  preserves (ns_preserved g) (run_every self mt g).
Proof.
  intros Hlocal. unfold run_every.
  frame_bind; [apply prepare_ns_preserved |].
  frame_bind; [apply Hlocal |].
  by apply preserves_pure; [apply _ |].
Qed.

Lemma export_items_pure d keys w : (export_items d keys w).1 = w.
Proof.
  induction keys as [|k keys IH]; simpl; [done |].
  rewrite bind_unfold. pose proof (subscript_pure d k w) as Hs.
  destruct (subscript d k w) as [w1 [e | v]]; simpl in *; subst; [done |].
  rewrite bind_unfold.
  destruct (export_items d keys w) as [w1 [e | items]]; simpl in *; by subst.
Qed.

Lemma narrow_ns_preserved g g' : preserves (ns_preserved g) (narrow g').
Proof.
  unfold narrow.
  frame_bind; [apply preserves_pure; [apply _ | apply ns_get_pure] |].
  destruct (_ !! "__all__"); [| by apply preserves_pure; [apply _ |]].
  frame_bind; [apply preserves_pure; [apply _ | apply iterate_pure] |].
  frame_bind; [apply preserves_pure; [apply _ | apply export_items_pure] |].
  apply ns_new_ns_preserved.
Qed.

Lemma render_template_ns_preserved self mt g output :
  preserves (ns_preserved g) (render_template self mt g output).
Proof.
  unfold render_template.
  frame_bind; [apply narrow_ns_preserved |].
  frame_bind; [by apply preserves_pure; [apply _ |] |].
  frame_bind; [by apply same_namespaces_preserved |].
  frame_bind; [apply same_namespaces_preserved, set_body_namespaces |].
  by apply preserves_pure; [apply _ |].
Qed.

(** With run-every code that writes to its globals only, and whether
    [render_for_type] returns or raises, every namespace other than the
    context it was given is afterwards what it was before. *)
Lemma render_for_type_ns_preserved self mt g :
  local (page_two self) ->
  preserves (ns_preserved g) (render_for_type self mt g).
Proof.
  intros Hlocal. unfold render_for_type.
  frame_bind; [by apply run_every_ns_preserved |].
  frame_bind; [apply preserves_pure; [apply _ | apply get_body_pure] |].
  destruct (is_not_none _).
  - by apply preserves_pure; [apply _ |].
  - apply render_template_ns_preserved.
Qed.

(** *** Outputs and the trace during the run-every phase *)

Lemma same_objects_kept {A} (m : M A) :
  (forall w, objects (m w).1 = objects w) -> preserves outputs_kept m.
Proof. intros H w l mt b Hl. rewrite H. eauto. Qed.

Lemma same_trace_kept {A} (m : M A) :
  (forall w, trace (m w).1 = trace w) -> preserves trace_kept m.
Proof. intros H w. apply H. Qed.

Lemma alloc_outputs_kept o : preserves outputs_kept (alloc o).
Proof.
  intros w l mt b Hl. exists b. simpl. by apply lookup_app_l_Some.
Qed.

Lemma set_body_outputs_kept t v : preserves outputs_kept (set_body t v).
Proof.
  intros w l mt b Hl. unfold set_body.
  destruct t as [| | | |l']; try (simpl; eauto).
  destruct (objects w !! l') as [[xs | mt' b'] |] eqn:Hl'; simpl; eauto.
  destruct (decide (l' = l)) as [-> | Hne].
  - exists v. rewrite list_lookup_insert_eq by (by eapply lookup_lt_Some).
    congruence.
  - exists b. by rewrite list_lookup_insert_ne.
Qed.

Lemma list_append_call_outputs_kept l v :
  preserves outputs_kept (list_append_call l v).
Proof.
  intros w l' mt b Hl'. unfold list_append_call.
  destruct (objects w !! l) as [[xs | mt' b'] |] eqn:Hl; simpl; eauto.
  exists b. rewrite list_lookup_insert_ne; [done | congruence].
Qed.

Lemma ns_setitem_objects g k v w :
  objects (ns_setitem g k v w).1 = objects w.
Proof.
  unfold ns_setitem. rewrite bind_unfold. unfold ns_get.
  by destruct (namespaces w !! g).
Qed.

Lemma ns_update_objects g other w :
  objects (ns_update g other w).1 = objects w.
Proof.
  unfold ns_update. rewrite bind_unfold. unfold ns_get.
  by destruct (namespaces w !! g).
Qed.

Lemma ns_setitem_trace g k v w : trace (ns_setitem g k v w).1 = trace w.
Proof.
  unfold ns_setitem. rewrite bind_unfold. unfold ns_get.
  by destruct (namespaces w !! g).
Qed.

Lemma ns_update_trace g other w : trace (ns_update g other w).1 = trace w.
Proof.
  unfold ns_update. rewrite bind_unfold. unfold ns_get.
  by destruct (namespaces w !! g).
Qed.

Lemma set_body_trace t v w : trace (set_body t v w).1 = trace w.
Proof.
  unfold set_body. destruct t; try done.
  by destruct (objects w !! l) as [[]|].
Qed.

Lemma list_append_call_trace l v w :
  trace (list_append_call l v w).1 = trace w.
Proof.
  unfold list_append_call. by destruct (objects w !! l) as [[]|].
Qed.

Lemma eval_outputs_kept g e : preserves outputs_kept (eval g e).
Proof.
  destruct e; simpl.
  - by apply preserves_pure; [apply _ |].
  - apply preserves_pure; [apply _ | apply load_name_pure].
  - frame_bind; [apply alloc_outputs_kept |].
    by apply preserves_pure; [apply _ |].
Qed.

Lemma eval_trace_kept g e : preserves trace_kept (eval g e).
Proof.
  destruct e; simpl.
  - by apply preserves_pure; [apply _ |].
  - apply preserves_pure; [apply _ | apply load_name_pure].
  - by apply same_trace_kept.
Qed.

Lemma exec_stmt_outputs_kept g s : preserves outputs_kept (exec_stmt g s).
Proof.
  destruct s; simpl.
  - frame_bind; [apply eval_outputs_kept |].
    apply same_objects_kept, ns_setitem_objects.
  - frame_bind; [apply preserves_pure; [apply _ | apply load_name_pure] |].
    frame_bind;
      [apply preserves_pure; [apply _ | apply list_append_attr_pure] |].
    frame_bind; [apply eval_outputs_kept |].
    apply list_append_call_outputs_kept.
  - frame_bind; [apply eval_outputs_kept |].
    frame_bind; [apply preserves_pure; [apply _ | apply load_name_pure] |].
    apply set_body_outputs_kept.
  - by apply preserves_pure; [apply _ |].
Qed.

Lemma exec_stmt_trace_kept g s : preserves trace_kept (exec_stmt g s).
Proof.
  destruct s; simpl.
  - frame_bind; [apply eval_trace_kept |].
    apply same_trace_kept, ns_setitem_trace.
  - frame_bind; [apply preserves_pure; [apply _ | apply load_name_pure] |].
    frame_bind;
      [apply preserves_pure; [apply _ | apply list_append_attr_pure] |].
    frame_bind; [apply eval_trace_kept |].
    apply same_trace_kept, list_append_call_trace.
  - frame_bind; [apply eval_trace_kept |].
    frame_bind; [apply preserves_pure; [apply _ | apply load_name_pure] |].
    apply same_trace_kept, set_body_trace.
  - by apply preserves_pure; [apply _ |].
Qed.

(** A sequence of statements is tame. *)
Lemma block_tame body : tame (block body).
Proof.
  intros g. unfold exec. split.
  - induction body as [|s body IH]; simpl.
    + by apply preserves_pure; [apply _ |].
    + frame_bind; [apply exec_stmt_outputs_kept | apply IH].
  - induction body as [|s body IH]; simpl.
    + by apply preserves_pure; [apply _ |].
    + frame_bind; [apply exec_stmt_trace_kept | apply IH].
Qed.

Lemma prepare_trace_kept self mt g : preserves trace_kept (prepare self mt g).
Proof.
  unfold prepare.
  frame_bind; [by apply same_trace_kept |].
  frame_bind; [apply same_trace_kept, ns_setitem_trace |].
  frame_bind; [apply preserves_pure; [apply _ | apply ns_get_pure] |].
  frame_bind; [apply same_trace_kept, ns_update_trace |].
  by apply preserves_pure; [apply _ |].
Qed.

(** No renderer is called before tame run-every code has run. *)
Lemma run_every_trace_kept self mt g :
  tame (page_two self) ->
  preserves trace_kept (run_every self mt g).
Proof.
  intros Htame. unfold run_every.
  frame_bind; [apply prepare_trace_kept |].
  frame_bind; [apply Htame |].
  by apply preserves_pure; [apply _ |].
Qed.

(** [prepare] returns the [Output] it has just created, its body still
    unset. *)
Lemma prepare_output self mt g w w0 out :
  prepare self mt g w = (w0, Ok out) ->
  objects w0 !! out = Some (OOutput mt VNone).
Proof.
  unfold prepare. intros (wa & out' & Ha & Hrest)%bind_ok_inv.
  injection Ha as <- <-.
  apply bind_ok_inv in Hrest as (w1 & [] & H1 & Hrest).
  apply bind_ok_inv in Hrest as (w2 & first & H2 & Hrest).
  apply bind_ok_inv in Hrest as (w3 & [] & H3 & Hrest).
  injection Hrest as <- <-.
  pose proof (ns_update_objects g first w2) as E3. rewrite H3 in E3.
  pose proof (ns_get_pure (page_one self) w1) as E2. rewrite H2 in E2.
  pose proof (ns_setitem_objects g "output"
                (VRef (length (objects w)))
                (World (namespaces w) (objects w ++ [OOutput mt VNone])
                       (trace w))) as E1.
  rewrite H1 in E1. simpl in *. subst w2.
  rewrite E3, E1. by rewrite lookup_app_r, Nat.sub_diag.
Qed.

(** When the run-every phase returns, with tame code, what it returns is
    an [Output] carrying the requested media type. *)
Lemma run_every_output self mt g w w1 out :
  tame (page_two self) ->
  run_every self mt g w = (w1, Ok out) ->
  exists body, objects w1 !! out = Some (OOutput mt body).
Proof.
  intros Htame. unfold run_every. intros (w0 & out' & Hp & Hrest)%bind_ok_inv.
  apply bind_ok_inv in Hrest as (w1' & [] & He & Hrest).
  injection Hrest as <- <-.
  apply prepare_output in Hp.
  destruct (Htame g) as [Hk _]. specialize (Hk w0).
  rewrite He in Hk. by apply (Hk out' mt VNone).
Qed.

(** *** The two paths of [render_for_type] *)

Lemma render_for_type_after_run_every self mt g w w1 out m body :
  run_every self mt g w = (w1, Ok out) ->
  objects w1 !! out = Some (OOutput m body) ->
  render_for_type self mt g w
  = if is_not_none body then (w1, Ok out)
    else render_template self mt g out w1.
Proof.
  intros Hrun Hout. unfold render_for_type.
  rewrite (bind_ok _ _ _ _ _ Hrun), bind_unfold.
  unfold get_body. rewrite Hout. by destruct (is_not_none body).
Qed.

Lemma is_not_none_true v : is_not_none v = true <-> v <> VNone.
Proof. destruct v; simpl; split; congruence. Qed.

Lemma narrow_objects g w : objects (narrow g w).1 = objects w.
Proof.
  unfold narrow. rewrite bind_unfold. unfold ns_get.
  destruct (namespaces w !! g) as [d|]; [| done].
  destruct (d !! "__all__") as [names|]; [| done].
  rewrite bind_unfold. pose proof (iterate_pure names w) as Hi.
  destruct (iterate names w) as [wi [e | keys]]; simpl in Hi; subst wi;
    [done |].
  rewrite bind_unfold. pose proof (export_items_pure d keys w) as He.
  by destruct (export_items d keys w) as [we [e | items]]; simpl in He;
    subst we.
Qed.

Lemma render_template_unsupported self mt g out w1 w2 g' :
  narrow g w1 = (w2, Ok g') ->
  renderers self !! mt = None ->
  render_template self mt g out w1 = (w2, Raise (KeyError (VStr mt))).
Proof.
  intros Hn Hr. unfold render_template.
  rewrite (bind_ok _ _ _ _ _ Hn), bind_unfold.
  unfold lift, getitem. by rewrite Hr.
Qed.

Lemma render_template_narrow_raises self mt g out w1 w2 e :
  narrow g w1 = (w2, Raise e) ->
  render_template self mt g out w1 = (w2, Raise e).
Proof. intros Hn. unfold render_template. by rewrite (bind_raise _ _ _ _ _ Hn). Qed.

Lemma render_template_rendered self mt g out w1 w2 g' render m body :
  narrow g w1 = (w2, Ok g') ->
  renderers self !! mt = Some render ->
  objects w1 !! out = Some (OOutput m body) ->
  render_template self mt g out w1
  = match renderer_call render w2 g' with
    | inr b => (rendered w2 render g' out m b, Ok out)
    | inl e => (render_raised w2 render g', Raise e)
    end.
Proof.
  intros Hn Hr Hout. unfold render_template.
  rewrite (bind_ok _ _ _ _ _ Hn), bind_unfold.
  unfold lift, getitem. rewrite Hr. unfold Ok. rewrite bind_unfold.
  unfold call. destruct (renderer_call render w2 g') as [e | b]; [done |].
  rewrite bind_unfold. unfold set_body. cbn [objects].
  pose proof (narrow_objects g w1) as Ho. rewrite Hn in Ho. simpl in Ho.
  rewrite <- Ho in Hout. by rewrite Hout.
Qed.

Lemma narrow_trace g w : trace (narrow g w).1 = trace w.
Proof.
  unfold narrow. rewrite bind_unfold. unfold ns_get.
  destruct (namespaces w !! g) as [d|]; [| done].
  destruct (d !! "__all__") as [names|]; [| done].
  rewrite bind_unfold. pose proof (iterate_pure names w) as Hi.
  destruct (iterate names w) as [wi [e | keys]]; simpl in Hi; subst wi;
    [done |].
  rewrite bind_unfold. pose proof (export_items_pure d keys w) as He.
  by destruct (export_items d keys w) as [we [e | items]]; simpl in He;
    subst we.
Qed.

(** C3, as the code has it: once the run-every phase has returned, if
    it has left the body of the [Output] set, that is, not [None],
    [render_for_type] returns that [Output] in the very world the
    run-every code left, so that no renderer has been called.  If the
    body is still [None] the context is narrowed first.  When narrowing
    returns, the renderer registered for the media type is called once,
    with the narrowed context, and what it returns becomes the body (what
    it raises is raised).  When narrowing raises, that is what the call
    raises, and no renderer has been called.  The run-every code is any
    tame code unit. *)
Theorem body_set_skips_rendering self mt g w w1 out :
  tame (page_two self) ->
  run_every self mt g w = (w1, Ok out) ->
  exists body,
    objects w1 !! out = Some (OOutput mt body)
    /\ trace w1 = trace w
    /\ (body <> VNone -> render_for_type self mt g w = (w1, Ok out))
    /\ (body = VNone ->
         forall render,
           renderers self !! mt = Some render ->
           trace (narrow g w1).1 = trace w
           /\ render_for_type self mt g w
              = match narrow g w1 with
                | (w2, inr g') =>
                    match renderer_call render w2 g' with
                    | inr b => (rendered w2 render g' out mt b, Ok out)
                    | inl e => (render_raised w2 render g', Raise e)
                    end
                | (w2, inl e) => (w2, Raise e)
                end).
Proof.
  intros Htame Hrun.
  destruct (run_every_output _ _ _ _ _ _ Htame Hrun) as [body Hout].
  assert (trace w1 = trace w) as Htrace.
  { pose proof (run_every_trace_kept self mt g Htame w) as Ht.
    by rewrite Hrun in Ht. }
  exists body. split_and!; [done | done | |].
  - intros Hset%is_not_none_true.
    by rewrite (render_for_type_after_run_every _ _ _ _ _ _ _ _ Hrun Hout),
      Hset.
  - intros -> render Hr. split.
    { by rewrite narrow_trace. }
    rewrite (render_for_type_after_run_every _ _ _ _ _ _ _ _ Hrun Hout).
    simpl. destruct (narrow g w1) as [w2 [e | g']] eqn:Hn.
    + by apply render_template_narrow_raises.
    + by apply render_template_rendered with (body := VNone).
Qed.

(** C10: for a media type no renderer is registered for, and once the
    run-every phase has returned: if the body was set,
    [render_for_type] returns the [Output] with that media type and
    body and raises nothing; the lookup of the renderer, and the
    [KeyError] it ends in, belong to the path where the body is still
    [None]. *)
Theorem body_set_needs_no_renderer self mt g w w1 out :
  tame (page_two self) ->
  renderers self !! mt = None ->
  run_every self mt g w = (w1, Ok out) ->
  exists body,
    objects w1 !! out = Some (OOutput mt body)
    /\ (body <> VNone -> render_for_type self mt g w = (w1, Ok out))
    /\ (body = VNone ->
         render_for_type self mt g w
         = match narrow g w1 with
           | (w2, inr _) => (w2, Raise (KeyError (VStr mt)))
           | (w2, inl e) => (w2, Raise e)
           end).
Proof.
  intros Htame Hr Hrun.
  destruct (run_every_output _ _ _ _ _ _ Htame Hrun) as [body Hout].
  exists body. split_and!; [done | |].
  - intros Hset%is_not_none_true.
    by rewrite (render_for_type_after_run_every _ _ _ _ _ _ _ _ Hrun Hout),
      Hset.
  - intros ->.
    rewrite (render_for_type_after_run_every _ _ _ _ _ _ _ _ Hrun Hout).
    simpl. destruct (narrow g w1) as [w2 [e | g']] eqn:Hn.
    + by apply render_template_narrow_raises.
    + by apply render_template_unsupported with (g' := g').
Qed.

(** C7, as the code has it: for a compiled resource and a media type
    that is not one of its available types, [render_for_type] raises
    the [KeyError] for that media type when the run-every code returns
    without setting the body and the narrowing of the context goes
    through. *)
Theorem unsupported_media_type_raises self mt g w w1 out w2 g' :
  compiled self ->
  mt ∉ available_types self ->
  run_every self mt g w = (w1, Ok out) ->
  objects w1 !! out = Some (OOutput mt VNone) ->
  narrow g w1 = (w2, Ok g') ->
  render_for_type self mt g w = (w2, Raise (KeyError (VStr mt))).
Proof.
  intros [_ Hav] Hmt Hrun Hout Hn.
  rewrite (render_for_type_after_run_every _ _ _ _ _ _ _ _ Hrun Hout).
  simpl. apply render_template_unsupported with (g' := g'); [done |].
  apply eq_None_not_Some. by rewrite <- Hav.
Qed.

Lemma body_set_skips_rendering_witness :
  run_every custom_body "text/plain" 1 empty_world
  = ((run_every custom_body "text/plain" 1 empty_world).1, Ok 0%nat)
  /\ render_for_type custom_body "text/plain" 1 empty_world
     = ((run_every custom_body "text/plain" 1 empty_world).1, Ok 0%nat)
  /\ trace (render_for_type custom_body "text/plain" 1 empty_world).1 = [].
Proof.
  assert (run_every custom_body "text/plain" 1 empty_world
          = ((run_every custom_body "text/plain" 1 empty_world).1, Ok 0%nat))
    as Hrun by (vm_compute; reflexivity).
  destruct (body_set_skips_rendering custom_body "text/plain" 1 empty_world
              _ 0%nat (block_tame _) Hrun) as (body & Hout & Htrace & Hset & _).
  assert (body = VStr "custom") as -> by (vm_compute in Hout; congruence).
  split; [exact Hrun |]. split; [by apply Hset |].
  rewrite (Hset ltac:(done)). exact Htrace.
Defined.

(** C3, as stated, fails in two places.  With the body unset and a
    renderer registered for the media type, the renderer is not called
    when narrowing raises: here [__all__] names [b], which the context
    does not bind, the call raises the [KeyError] and the body is still
    [None].  And a body set to the empty string is set, the test being
    [is not None]: the call returns at once and calls no renderer. *)
Lemma body_unset_renderer_not_invoked :
  renderers More_samples.unbound_export !! "text/plain" = Some hello
  /\ (render_for_type More_samples.unbound_export "text/plain" 1
                      empty_world).2
     = Raise (KeyError (VStr "b"))
  /\ objects (render_for_type More_samples.unbound_export "text/plain" 1
                              empty_world).1 !! 0%nat
     = Some (OOutput "text/plain" VNone)
  /\ trace (render_for_type More_samples.unbound_export "text/plain" 1
                            empty_world).1 = []
  /\ (render_for_type More_samples.empty_body "text/plain" 1 empty_world).2
     = Ok 0%nat
  /\ objects (render_for_type More_samples.empty_body "text/plain" 1
                              empty_world).1 !! 0%nat
     = Some (OOutput "text/plain" (VStr EmptyString))
  /\ trace (render_for_type More_samples.empty_body "text/plain" 1
                            empty_world).1 = [].
Proof. split_and!; vm_compute; reflexivity. Qed.

Lemma body_set_needs_no_renderer_witness :
  renderers custom_body !! "image/png" = None
  /\ render_for_type custom_body "image/png" 1 empty_world
     = ((run_every custom_body "image/png" 1 empty_world).1, Ok 0%nat)
  /\ objects (render_for_type custom_body "image/png" 1 empty_world).1 !! 0%nat
     = Some (OOutput "image/png" (VStr "custom")).
Proof.
  assert (run_every custom_body "image/png" 1 empty_world
          = ((run_every custom_body "image/png" 1 empty_world).1, Ok 0%nat))
    as Hrun by (vm_compute; reflexivity).
  destruct (body_set_needs_no_renderer custom_body "image/png" 1 empty_world
              _ 0%nat (block_tame _) eq_refl Hrun) as (body & Hout & Hset & _).
  assert (body = VStr "custom") as -> by (vm_compute in Hout; congruence).
  split; [reflexivity |]. split; [by apply Hset |].
  rewrite (Hset ltac:(done)). exact Hout.
Defined.

Lemma greeting_compiled : compiled greeting.
Proof.
  split; simpl.
  - apply NoDup_singleton.
  - intros mt. rewrite list_elem_of_singleton. split.
    + intros ->. by eexists.
    + intros [r Hr]. destruct (decide (mt = "text/plain")) as [| Hne]; [done |].
      by rewrite lookup_singleton_ne in Hr.
Qed.

Lemma unsupported_media_type_raises_witness :
  ("image/png" ∉ available_types greeting)
  /\ render_for_type greeting "image/png" 1 empty_world
     = ((run_every greeting "image/png" 1 empty_world).1,
        Raise (KeyError (VStr "image/png"))).
Proof.
  assert ("image/png" ∉ available_types greeting) as Hmt.
  { simpl. rewrite list_elem_of_singleton. discriminate. }
  split; [exact Hmt |].
  apply (unsupported_media_type_raises greeting "image/png" 1 empty_world
           (run_every greeting "image/png" 1 empty_world).1 0%nat
           (run_every greeting "image/png" 1 empty_world).1 1%nat
           greeting_compiled Hmt);
    vm_compute; reflexivity.
Defined.

(** C7, as stated, fails when the run-every code sets the body: the
    media type is not among the available types of the resource and
    the call returns all the same. *)
Lemma unsupported_media_type_returns :
  ("image/png" ∉ available_types custom_body)
  /\ (render_for_type custom_body "image/png" 1 empty_world).2 = Ok 0%nat
  /\ objects (render_for_type custom_body "image/png" 1 empty_world).1 !! 0%nat
     = Some (OOutput "image/png" (VStr "custom")).
Proof.
  split; [simpl; rewrite list_elem_of_singleton; discriminate |].
  split; vm_compute; reflexivity.
Qed.

(** *** Successive calls *)

(** What [prepare] makes of a context: the bindings of the run-once
    context laid over the caller's, [output] included. *)
Lemma prepare_overlay self mt g w first d :
  g <> page_one self ->
  namespaces w !! page_one self = Some first ->
  namespaces w !! g = Some d ->
  exists w' out,
    prepare self mt g w = (w', Ok out)
    /\ namespaces w' !! g = Some (first ∪ <["output" := VRef out]> d).
Proof.
  intros Hne Hfirst Hd.
  assert (g < length (namespaces w))%nat as Hlen by (by eapply lookup_lt_Some).
  unfold prepare, ns_setitem, ns_update, ns_get, ns_put, alloc.
  unfold mbind, M_bind, mret, M_ret. cbn [namespaces objects trace].
  rewrite Hd. cbn [namespaces objects trace].
  rewrite list_lookup_insert_ne, Hfirst by done.
  cbn [namespaces objects trace].
  rewrite list_lookup_insert_eq by done.
  cbn [namespaces objects trace].
  eexists _, _. split; [reflexivity |]. cbn [namespaces].
  apply list_lookup_insert_eq. by rewrite length_insert.
Qed.

(** C2, as the code has it: a call copies the bindings of the run-once
    context into the context it is given and does not write to the
    run-once context itself; with run-every code that writes to no dict
    but its globals, whatever names it binds there, the run-once context
    is afterwards what it was and the next call starts from every
    run-once binding again.  (The objects those bindings refer to are
    shared, not copied.) *)
Theorem run_once_bindings_survive self mt1 mt2 c1 c2 w w1 r1 first d2 :
  local (page_two self) ->
  c1 <> page_one self -> c2 <> page_one self ->
  namespaces w !! page_one self = Some first ->
  render_for_type self mt1 c1 w = (w1, r1) ->
  namespaces w1 !! c2 = Some d2 ->
  namespaces w1 !! page_one self = Some first
  /\ exists w2 out env,
       prepare self mt2 c2 w1 = (w2, Ok out)
       /\ namespaces w2 !! c2 = Some env
       /\ forall x v, first !! x = Some v -> env !! x = Some v.
Proof.
  intros Hlocal Hc1 Hc2 Hfirst Hrender Hd2.
  assert (namespaces w1 !! page_one self = Some first) as Hfirst1.
  { pose proof (render_for_type_ns_preserved self mt1 c1 Hlocal w) as Hp.
    rewrite Hrender in Hp. apply Hp; [congruence | done]. }
  split; [done |].
  destruct (prepare_overlay self mt2 c2 w1 first d2 Hc2 Hfirst1 Hd2)
    as (w2 & out & Hprep & Henv).
  exists w2, out, (first ∪ <["output" := VRef out]> d2).
  split_and!; [done | done |].
  intros x v Hx. by apply lookup_union_Some_l.
Qed.

Lemma run_once_bindings_survive_witness :
  namespaces (render_for_type rebinder "text/plain" 1 rebinder_world).1
    !! 1%nat = Some (<["x" := VInt 5]> (<["output" := VRef 0]> ∅))
  /\ namespaces (render_for_type rebinder "text/plain" 1 rebinder_world).1
       !! 0%nat = Some {["x" := VInt 1]}
  /\ exists w2 out env,
       prepare rebinder "text/plain" 2
         (render_for_type rebinder "text/plain" 1 rebinder_world).1
       = (w2, Ok out)
       /\ namespaces w2 !! 2%nat = Some env
       /\ env !! "x" = Some (VInt 1).
Proof.
  split; [vm_compute; reflexivity |].
  destruct (run_once_bindings_survive rebinder "text/plain" "text/plain"
              1 2 rebinder_world
              (render_for_type rebinder "text/plain" 1 rebinder_world).1
              (render_for_type rebinder "text/plain" 1 rebinder_world).2
              {["x" := VInt 1]} {["name" := VStr "program"]})
    as (Hone & w2 & out & env & Hprep & Henv & Hx);
    [apply block_local | done | done | reflexivity | by destruct (render_for_type _ _ _ _)
     | vm_compute; reflexivity |].
  split; [exact Hone |].
  exists w2, out, env. split_and!; [done | done |].
  apply Hx. reflexivity.
Defined.

(** C2, as stated, fails for a binding mutated in place.  Run-once bound
    [hits] to an empty list and run-every appends to it: after the first
    call the list has one element, and the second call, made with another
    context, renders a list of two. *)
Lemma in_place_mutation_leaks :
  objects counter_world !! 0%nat = Some (OList [])
  /\ (render_for_type counter "text/plain" 1 counter_world).2 = Ok 1%nat
  /\ objects (render_for_type counter "text/plain" 1 counter_world).1 !! 0%nat
     = Some (OList [VInt 1])
  /\ (render_for_type counter "text/plain" 2
        (render_for_type counter "text/plain" 1 counter_world).1).2
     = Ok 2%nat
  /\ objects
       (render_for_type counter "text/plain" 2
          (render_for_type counter "text/plain" 1 counter_world).1).1
       !! 2%nat
     = Some (OOutput "text/plain" (VInt 2)).
Proof. split_and!; vm_compute; reflexivity. Qed.

(** C8, as the code has it: the call writes to the context handed to
    it, which it updates in place, and to no other dict; with run-every
    code that writes to no dict but its globals, and whether the call
    returns or raises, every dict other than that context is afterwards
    what it was before, the run-once context of the resource among
    them. *)
Theorem render_for_type_leaves_other_namespaces self mt g w i d :
  local (page_two self) ->
  i <> g ->
  namespaces w !! i = Some d ->
  namespaces (render_for_type self mt g w).1 !! i = Some d.
Proof. intros Hlocal Hi Hd. by apply render_for_type_ns_preserved. Qed.

Lemma render_for_type_leaves_other_namespaces_witness :
  namespaces (render_for_type counter "text/plain" 1 counter_world).1 !! 0%nat
  = Some {["hits" := VRef 0]}.
Proof.
  apply (render_for_type_leaves_other_namespaces counter "text/plain" 1
           counter_world 0 {["hits" := VRef 0]});
    [apply block_local | discriminate | reflexivity].
Defined.

(** The condition on the run-every code is needed: a code unit that
    binds a name of the run-once context rewrites the resource. *)
Example run_once_context_rewritten :
  namespaces counter_world !! 0%nat = Some {["hits" := VRef 0]}
  /\ namespaces (render_for_type resetter "text/plain" 1 counter_world).1
       !! 0%nat
     = Some {["hits" := VNone]}.
Proof. split; vm_compute; reflexivity. Qed.

(** C8, as stated, fails on the context of the caller: with both logic
    pages empty, an empty context comes back holding [output], and the
    store holds a new [Output]. *)
Lemma render_for_type_updates_context :
  namespaces empty_world !! 1%nat = Some ∅
  /\ (render_for_type greeting "text/plain" 1 empty_world).2 = Ok 0%nat
  /\ namespaces (render_for_type greeting "text/plain" 1 empty_world).1
       !! 1%nat
     = Some {["output" := VRef 0]}
  /\ namespaces (render_for_type greeting "text/plain" 1 empty_world).1
     <> namespaces empty_world.
Proof.
  split_and!; try (vm_compute; reflexivity).
  intros H. apply (f_equal (fun ns => ns !! 1%nat ≫= (.!! "output"))) in H.
  vm_compute in H. discriminate.
Qed.

End Frames.

(** ** Construction *)

Section Construction.

Variable parse_specline : string -> result (string * string).
Variable defaults : SimplateDefaults.
Variable py_compile : string -> string -> result code.
Variable guess_media_type : string -> string.
Variable read_source : string -> result string.
Variable split_and_escape : string -> list Page.

(** A resource that [__init__] returns is compiled: its available types
    are distinct and are the media types it has a renderer for. *)
Lemma __init___compiled fspath w w' self :
  __init__ parse_specline defaults py_compile guess_media_type read_source
           split_and_escape fspath w = (w', Ok self) ->
  compiled self.
Proof.
  unfold __init__.
  intros (w1 & text & _ & H)%bind_ok_inv.
  apply bind_ok_inv in H as (w2 & pages & _ & H).
  apply bind_ok_inv in H as (w3 & [[one two] templates] & _ & H).
  apply bind_ok_inv in H as (w4 & [renderers available] & Hloop & H).
  injection H as _ <-. unfold compiled. simpl.
  unfold lift in Hloop. injection Hloop as _ Hloop.
  destruct (content_pages_returns _ _ _ _ Hloop) as [Hnd _].
  destruct (content_pages_fresh templates ∅ [] Hnd) as (rs & Heq & Hlookup).
  { intros. apply lookup_empty. }
  rewrite Hloop in Heq. injection Heq as -> ->. simpl.
  split; [done |].
  intros mt. rewrite list_elem_of_fmap. split.
  - intros ([r mt'] & -> & Hin). exists r. apply Hlookup. by right.
  - intros [r Hr]. apply Hlookup in Hr as [Hr | Hr].
    + by rewrite lookup_empty in Hr.
    + by exists (r, mt).
Qed.

End Construction.

(** Loading [hello.txt.spt] and rendering it for a caller whose context
    holds [name = 'program'] gives the body ['Hello, program!']. *)
Example hello_program :
  match __init__ no_specline hello_defaults no_statements
                 (fun _ => "text/plain") (fun _ => Ok "...") hello_pages
                 "hello.txt.spt" program_world with
  | (w, inr self) =>
      available_types self = ["text/plain"]
      /\ page_one self = 1%nat
      /\ (render_for_type self "text/plain" 0 w).2 = Ok 0%nat
      /\ objects (render_for_type self "text/plain" 0 w).1 !! 0%nat
         = Some (OOutput "text/plain" (VStr "Hello, program!"))
  | (_, inl _) => False
  end.
Proof. vm_compute. split_and!; reflexivity. Qed.

(** ** JSON *)

Section Json.

Import Json_.

Lemma text_leb_total (s t : text) : text_leb s t = true \/ text_leb t s = true.
Proof.
  revert t. induction s as [|c s IH]; intros [|d t]; simpl; auto.
  destruct (N.lt_trichotomy c d) as [Hlt | [-> | Hgt]].
  - left. apply orb_true_iff. left. by apply N.ltb_lt.
  - rewrite N.ltb_irrefl, N.eqb_refl. simpl. apply IH.
  - right. apply orb_true_iff. left. by apply N.ltb_lt.
Qed.

Lemma key_leb_total (a b : key) : key_leb a b = true \/ key_leb b a = true.
Proof.
  destruct a as [s | z | [] |], b as [t | z' | [] |]; simpl; auto;
    try apply text_leb_total;
    rewrite !Z.leb_le; lia.
Qed.

#[local] Instance item_le_total : Total item_le.
Proof.
  intros x y. unfold item_le.
  destruct (key_leb_total x.1 y.1) as [H | H]; rewrite H; auto.
Qed.

Lemma forallb_map {A B} (f : B -> bool) (g : A -> B) (xs : list A) :
  forallb f (map g xs) = forallb (fun x => f (g x)) xs.
Proof. induction xs as [|x xs IH]; simpl; [done |]. by rewrite IH. Qed.

(** A dict whose keys can be compared is sorted by its keys. *)
Lemma sorted_dict_items_sortable (items : list (key * jvalue)) :
  sortable (map fst items) = true ->
  exists sorted,
    sorted_dict_items items = Ok sorted
    /\ Sorted item_le sorted /\ sorted ≡ₚ items.
Proof.
  destruct items as [|first [|second items]].
  - exists []. split_and!; [done | constructor | done].
  - exists [first]. split_and!; [done | repeat constructor | done].
  - intros Hs. exists (merge_sort item_le (first :: second :: items)).
    split_and!.
    + assert (forallb (fun kv : key * jvalue => comparable first.1 kv.1)
                      (first :: second :: items) = true) as Hall.
      { rewrite <- Hs. symmetry.
        apply (forallb_map (comparable first.1) fst). }
      unfold sorted_dict_items. by rewrite Hall.
    + apply (Sorted_merge_sort item_le).
    + apply merge_sort_Permutation.
Qed.

Lemma encode_each_Forall2 {A} (f : A -> result text) (P : A -> text -> Prop)
    (xs : list A) :
  Forall (fun x => exists chunk, f x = Ok chunk /\ P x chunk) xs ->
  exists chunks, encode_each f xs = Ok chunks /\ Forall2 P xs chunks.
Proof.
  induction 1 as [|x xs (chunk & Hx & HP) _ (chunks & Hxs & HPs)].
  - exists []. split; [done | constructor].
  - exists (chunk :: chunks). split; [| by constructor].
    simpl. by rewrite Hx, Hxs.
Qed.

Lemma encode_each_items (f : jvalue -> result text) (lit : key -> text)
    (sep : text) (P : jvalue -> text -> Prop) (items : list (key * jvalue)) :
  Forall (fun kv => exists chunk, f kv.2 = Ok chunk /\ P kv.2 chunk) items ->
  exists values,
    encode_each (fun kv : key * jvalue =>
                   rbind (f kv.2) (fun chunk =>
                   Ok (lit kv.1 ++ sep ++ chunk))) items
    = Ok (zip_with (fun k value => lit k ++ sep ++ value)
                   (map fst items) values)
    /\ Forall2 P (map snd items) values.
Proof.
  induction 1 as [|kv items (chunk & Hkv & HP) _ (values & Hitems & HPs)].
  - exists []. split; [done | constructor].
  - exists (chunk :: values). split; [| by constructor].
    simpl. by rewrite Hkv, Hitems.
Qed.

Lemma concat_replicate_replicate {A} (n m : nat) (x : A) :
  concat (replicate n (replicate m x)) = replicate (m * n) x.
Proof.
  induction n as [|n IH]; simpl.
  - by rewrite Nat.mul_0_r.
  - rewrite IH, <- replicate_add. f_equal. lia.
Qed.

Lemma depth_pos (o : jvalue) : (1 <= depth o)%nat.
Proof. destruct o; simpl; lia. Qed.

Lemma foldr_max_le (ns : list nat) (n : nat) :
  (foldr Nat.max 0 ns <= n)%nat -> Forall (fun m => (m <= n)%nat) ns.
Proof.
  induction ns as [|m ns IH]; simpl; intros H; constructor; [lia |].
  apply IH. lia.
Qed.

Lemma floatstr_serialisable allow_nan f :
  allow_nan || finite f = true -> floatstr allow_nan f = Ok (float_text f).
Proof. by destruct allow_nan, f. Qed.

Lemma iterencode_pretty encoders cfg :
  friendly_pretty encoders cfg ->
  forall fuel level o,
    serialisable (cfg_allow_nan cfg) o = true ->
    (depth o <= fuel)%nat ->
    exists out,
      iterencode cfg fuel level o = Ok out
      /\ pretty_printed encoders (written (cfg_ensure_ascii cfg)) level o out.
Proof.
  intros ((Hcomplex & Hdatetime & Hdate & Htime) & Hdefault & Hsort & Hindent
          & Hitem & Hkey).
  destruct cfg as [default_ ensure_ascii allow_nan sort_keys indent
                   item_separator key_separator].
  cbn [cfg_default cfg_sort_keys cfg_indent cfg_item_separator
       cfg_key_separator cfg_allow_nan cfg_ensure_ascii] in *.
  subst.
  set (cfg := mkConfig (FriendlyEncoder_default encoders) ensure_ascii
                       allow_nan true (Some (replicate 4 space)) (u ",")
                       (u ": ")).
  assert (forall level, newline_indent cfg level = line level) as Hline.
  { intros level. unfold newline_indent, line, cfg. cbn [cfg_indent].
    by rewrite concat_replicate_replicate. }
  induction fuel as [|fuel IH]; intros level o Hs Hd.
  { pose proof (depth_pos o). lia. }
  destruct o as [| [] | z | f | s | [|x xs] | [|kv items] | real imag
                 | iso | iso | iso | cls].
  - eexists. split; [reflexivity | constructor].
  - eexists. split; [reflexivity | constructor].
  - eexists. split; [reflexivity | constructor].
  - eexists. split; [reflexivity | constructor].
  - eexists. split; [by apply floatstr_serialisable | constructor].
  - eexists. split; [reflexivity | constructor].
  - eexists. split; [reflexivity | constructor].
  - destruct (encode_each_Forall2 (iterencode cfg fuel (S level))
                (pretty_printed encoders (written ensure_ascii) (S level))
                (x :: xs)) as (chunks & Heq & Hchunks).
    { cbn [serialisable] in Hs. rewrite forallb_forall in Hs.
      cbn [depth] in Hd.
      assert (Forall (fun m => (m <= fuel)%nat) (map depth (x :: xs))) as Hds
        by (apply foldr_max_le; lia).
      apply Forall_forall. intros y Hy. apply IH.
      - apply Hs. by apply list_elem_of_In.
      - rewrite Forall_forall in Hds. apply Hds.
        apply list_elem_of_fmap. by exists y. }
    eexists. split.
    + cbn [iterencode]. rewrite Heq. reflexivity.
    + unfold bracket. rewrite !Hline. by constructor.
  - eexists. split; [reflexivity | constructor].
  - cbn [serialisable] in Hs. apply andb_true_iff in Hs as [Hkeys Hs].
    destruct (sorted_dict_items_sortable (kv :: items) Hkeys)
      as (sorted & Hsorted_eq & Hsorted & Hperm).
    destruct (encode_each_items (iterencode cfg fuel (S level))
                (fun k => written ensure_ascii (key_text k)) (u ": ")
                (pretty_printed encoders (written ensure_ascii) (S level))
                sorted) as (values & Heq & Hvalues).
    { rewrite forallb_forall in Hs. cbn [depth] in Hd.
      assert (Forall (fun m => (m <= fuel)%nat)
                     (map (fun kv : key * jvalue => depth kv.2) (kv :: items)))
        as Hds by (apply foldr_max_le; lia).
      apply Forall_forall. intros kv' Hkv'. rewrite Hperm in Hkv'. apply IH.
      - apply Hs. by apply list_elem_of_In.
      - rewrite Forall_forall in Hds. apply Hds.
        apply list_elem_of_fmap. by exists kv'. }
    eexists. split.
    + cbn [iterencode]. cbn [cfg_sort_keys cfg]. rewrite Hsorted_eq.
      cbn [rbind Ok]. unfold string_literal. cbn [cfg_key_separator cfg_ensure_ascii cfg].
      rewrite Heq. reflexivity.
    + unfold bracket. rewrite !Hline. by constructor.
  - cbn [serialisable] in Hs.
    destruct (IH level (JList [JFloat real; JFloat imag]))
      as (out & Heq & Hout).
    { cbn [serialisable forallb]. by rewrite andb_true_r. }
    { cbn [depth] in *. simpl. lia. }
    exists out. split; [| by constructor].
    cbn [iterencode]. cbn [cfg_default cfg].
    unfold FriendlyEncoder_default. cbn [class_of]. rewrite Hcomplex.
    exact Heq.
  - destruct (IH level (JStr iso)) as (out & Heq & Hout);
      [done | cbn [depth] in *; lia |].
    exists out. split.
    + cbn [iterencode]. cbn [cfg_default cfg].
      unfold FriendlyEncoder_default. cbn [class_of]. rewrite Hdatetime.
      exact Heq.
    + inversion Hout; subst. constructor.
  - destruct (IH level (JStr iso)) as (out & Heq & Hout);
      [done | cbn [depth] in *; lia |].
    exists out. split.
    + cbn [iterencode]. cbn [cfg_default cfg].
      unfold FriendlyEncoder_default. cbn [class_of]. rewrite Hdate.
      exact Heq.
    + inversion Hout; subst. constructor.
  - destruct (IH level (JStr iso)) as (out & Heq & Hout);
      [done | cbn [depth] in *; lia |].
    exists out. split.
    + cbn [iterencode]. cbn [cfg_default cfg].
      unfold FriendlyEncoder_default. cbn [class_of]. rewrite Htime.
      exact Heq.
    + inversion Hout; subst. constructor.
  - discriminate.
Qed.

Lemma encode_each_ok_inv {A} (f : A -> result text) (xs : list A) :
  forall chunks,
    encode_each f xs = Ok chunks ->
    Forall2 (fun x chunk => f x = Ok chunk) xs chunks.
Proof.
  induction xs as [|x xs IH]; intros chunks.
  - intros [= <-]. constructor.
  - simpl. destruct (f x) as [e | chunk] eqn:Hx; [discriminate |]. simpl.
    destruct (encode_each f xs) as [e | rest]; [discriminate |].
    intros [= <-]. constructor; [done | by apply IH].
Qed.

Lemma encode_each_items_ok_inv (f : jvalue -> result text) (lit : key -> text)
    (sep : text) (items : list (key * jvalue)) :
  forall chunks,
    encode_each (fun kv : key * jvalue =>
                   rbind (f kv.2) (fun chunk =>
                   Ok (lit kv.1 ++ sep ++ chunk))) items
    = Ok chunks ->
    exists values,
      chunks = zip_with (fun k value => lit k ++ sep ++ value)
                        (map fst items) values
      /\ Forall2 (fun o value => f o = Ok value) (map snd items) values.
Proof.
  induction items as [|kv items IH]; intros chunks.
  - intros [= <-]. exists []. split; [done | constructor].
  - simpl. destruct (f kv.2) as [e | chunk] eqn:Hkv; [discriminate |]. simpl.
    destruct (encode_each _ items) as [e | rest]; [discriminate |].
    intros [= <-]. destruct (IH rest eq_refl) as (values & -> & Hvalues).
    exists (chunk :: values). split; [done | by constructor].
Qed.

Lemma sorted_dict_items_ok (items sorted : list (key * jvalue)) :
  sorted_dict_items items = Ok sorted ->
  Sorted item_le sorted /\ sorted ≡ₚ items.
Proof.
  destruct items as [|first [|second items]].
  - intros [= <-]. split; [constructor | done].
  - intros [= <-]. split; [repeat constructor | done].
  - unfold sorted_dict_items. destruct (forallb _ _); [| discriminate].
    intros [= <-]. split.
    + apply (Sorted_merge_sort item_le).
    + apply merge_sort_Permutation.
Qed.

(** Whatever the friendly, pretty encoder returns is pretty-printed. *)
Lemma iterencode_sound encoders cfg :
  friendly_pretty encoders cfg ->
  forall fuel level o out,
    iterencode cfg fuel level o = Ok out ->
    pretty_printed encoders (written (cfg_ensure_ascii cfg)) level o out.
Proof.
  intros ((Hcomplex & Hdatetime & Hdate & Htime) & Hdefault & Hsort & Hindent
          & Hitem & Hkey).
  destruct cfg as [default_ ensure_ascii allow_nan sort_keys indent
                   item_separator key_separator].
  cbn [cfg_default cfg_sort_keys cfg_indent cfg_item_separator
       cfg_key_separator cfg_allow_nan cfg_ensure_ascii] in *.
  subst.
  set (cfg := mkConfig (FriendlyEncoder_default encoders) ensure_ascii
                       allow_nan true (Some (replicate 4 space)) (u ",")
                       (u ": ")).
  assert (forall level, newline_indent cfg level = line level) as Hline.
  { intros level. unfold newline_indent, line, cfg. cbn [cfg_indent].
    by rewrite concat_replicate_replicate. }
  induction fuel as [|fuel IH]; intros level o out; [discriminate |].
  destruct o as [| [] | z | f | s | [|x xs] | [|kv items] | real imag
                 | iso | iso | iso | cls]; cbn [iterencode].
  - intros [= <-]. constructor.
  - intros [= <-]. constructor.
  - intros [= <-]. constructor.
  - intros [= <-]. constructor.
  - cbn [cfg_allow_nan cfg]. destruct f, allow_nan; intros [= <-];
      constructor.
  - intros [= <-]. constructor.
  - intros [= <-]. constructor.
  - destruct (encode_each _ (x :: xs)) as [e | chunks] eqn:Heq;
      [discriminate |].
    intros [= <-]. apply encode_each_ok_inv in Heq.
    unfold bracket. rewrite !Hline. constructor.
    eapply Forall2_impl; [exact Heq |]. intros y chunk. apply IH.
  - intros [= <-]. constructor.
  - cbn [cfg_sort_keys cfg].
    destruct (sorted_dict_items (kv :: items)) as [e | sorted] eqn:Hsorted;
      [discriminate |].
    apply sorted_dict_items_ok in Hsorted as [Hsorted Hperm].
    cbn [rbind]. unfold string_literal.
    cbn [cfg_key_separator cfg_ensure_ascii cfg].
    destruct (encode_each _ sorted) as [e | chunks] eqn:Heq; [discriminate |].
    intros [= <-].
    apply (encode_each_items_ok_inv (iterencode cfg fuel (S level))
             (fun k => written ensure_ascii (key_text k)) (u ": "))
      in Heq as (values & -> & Hvalues).
    unfold bracket. rewrite !Hline. constructor; [done | done |].
    eapply Forall2_impl; [exact Hvalues |]. intros y chunk. apply IH.
  - cbn [cfg_default cfg]. unfold FriendlyEncoder_default. cbn [class_of].
    rewrite Hcomplex. intros Hout%IH. by constructor.
  - cbn [cfg_default cfg]. unfold FriendlyEncoder_default. cbn [class_of].
    rewrite Hdatetime. intros Hout%IH. inversion Hout; subst. constructor.
  - cbn [cfg_default cfg]. unfold FriendlyEncoder_default. cbn [class_of].
    rewrite Hdate. intros Hout%IH. inversion Hout; subst. constructor.
  - cbn [cfg_default cfg]. unfold FriendlyEncoder_default. cbn [class_of].
    rewrite Htime. intros Hout%IH. inversion Hout; subst. constructor.
  - cbn [cfg_default cfg]. unfold FriendlyEncoder_default. cbn [class_of].
    destruct (encoders !! cls) as [encode|] eqn:Hcls; [| discriminate].
    simpl. destruct (encode (JInstance cls)) as [e | o] eqn:Ho;
      [discriminate |].
    intros Hout%IH. by apply pp_instance with (encode := encode) (o := o).
Qed.

(** What [dump] and [dumps] make of the keywords of a call that passes
    none of [cls], [sort_keys], [indent], [default] and [separators]. *)
Lemma make_encoder_with_defaults encoders kw :
  kw_cls kw = None -> kw_sort_keys kw = None -> kw_indent kw = None ->
  mjoin (kw_default kw) = None -> mjoin (kw_separators kw) = None ->
  make_encoder encoders (with_defaults kw)
  = mkConfig (FriendlyEncoder_default encoders)
             (default true (kw_ensure_ascii kw))
             (default true (kw_allow_nan kw))
             true (Some (replicate 4 space)) (u ",") (u ": ").
Proof.
  destruct kw as [skipkeys ensure_ascii check_circular allow_nan cls indent
                  separators default_ sort_keys other].
  cbn [kw_cls kw_sort_keys kw_indent kw_default kw_separators
       kw_ensure_ascii kw_allow_nan].
  intros -> -> -> Hdefault Hseparators.
  unfold make_encoder, with_defaults, set_cls, set_sort_keys, set_indent.
  cbn [kw_cls kw_sort_keys kw_indent kw_default kw_separators
       kw_ensure_ascii kw_allow_nan kw_skipkeys kw_check_circular].
  rewrite Hdefault, Hseparators. reflexivity.
Qed.

(** [dump] and [dumps] leave the other keywords as they are passed. *)
Lemma with_defaults_other kw : kw_other (with_defaults kw) = kw_other kw.
Proof.
  destruct kw as [skipkeys ensure_ascii check_circular allow_nan cls indent
                  separators default_ sort_keys other].
  by destruct cls, sort_keys, indent.
Qed.

(** C9, as the code has it: for a call that passes none of [cls],
    [sort_keys], [indent], [default] and [separators], and with the
    encoders of the module in place, what [dumps] returns for a value is
    the value pretty-printed with an indentation of four spaces and
    sorted keys, a complex number as the list of its real and imaginary
    parts, a datetime, date or time as the string of its ISO format, and
    [dump] writes the same text.  When every keyword is one the backend
    takes, [dumps] returns for every value that holds no instance of
    another class, no dict whose keys cannot be sorted and no float that
    is refused, given the depth of recursion the value needs; and the
    text for [{'a': 1}] is the one the specification gives. *)
Theorem dumps_is_pretty_sorted_friendly encoders kw :
  kw_cls kw = None -> kw_sort_keys kw = None -> kw_indent kw = None ->
  mjoin (kw_default kw) = None -> mjoin (kw_separators kw) = None ->
  registered_at_import encoders ->
  (forall fuel obj out,
     dumps encoders fuel obj kw = Ok out ->
     pretty_printed encoders (written (default true (kw_ensure_ascii kw)))
                    0 obj out
     /\ forall fp, dump encoders fuel obj fp kw = Ok (fp ++ out))
  /\ (kw_other kw = [] ->
      (forall fuel obj,
         serialisable (default true (kw_allow_nan kw)) obj = true ->
         (depth obj <= fuel)%nat ->
         exists out, dumps encoders fuel obj kw = Ok out)
      /\ (forall fuel,
            dumps encoders (S (S fuel)) (JDict [(KStr (u "a"), JInt 1)]) kw
            = Ok (u "{" ++ [linefeed] ++ u "    " ++ [quote] ++ u "a"
                  ++ [quote] ++ u ": 1" ++ [linefeed] ++ u "}"))).
Proof.
  intros Hcls Hsort Hindent Hdefault Hseparators Hregistered.
  pose proof (make_encoder_with_defaults encoders kw Hcls Hsort Hindent
                Hdefault Hseparators) as Hcfg.
  assert (friendly_pretty encoders (make_encoder encoders (with_defaults kw)))
    as Hfriendly by (rewrite Hcfg; by split_and!).
  split.
  - intros fuel obj out Heq. split.
    + unfold dumps, _json_dumps in Heq.
      destruct (kw_other (with_defaults kw)); [| discriminate].
      apply (iterencode_sound _ _ Hfriendly) in Heq. by rewrite Hcfg in Heq.
    + intros fp. unfold dump. unfold dumps in Heq. by rewrite Heq.
  - intros Hother. split.
    + intros fuel obj Hs Hd.
      destruct (iterencode_pretty _ _ Hfriendly fuel 0%nat obj)
        as (out & Heq & _); [by rewrite Hcfg | done |].
      exists out. unfold dumps, _json_dumps.
      by rewrite with_defaults_other, Hother.
    + intros fuel. unfold dumps, _json_dumps.
      rewrite with_defaults_other, Hother, Hcfg.
      by destruct (kw_ensure_ascii kw) as [[]|].
Qed.

Lemma dumps_is_pretty_sorted_friendly_witness :
  exists out,
    dumps encoders0 4 More_samples.complex_entry no_kwargs = Ok out
    /\ pretty_printed encoders0 encode_basestring_ascii 0
                      More_samples.complex_entry out
    /\ out = u "{" ++ [linefeed] ++ u "    " ++ [quote] ++ u "complex"
             ++ [quote] ++ u ": [" ++ [linefeed] ++ u "        1.0,"
             ++ [linefeed] ++ u "        2.0" ++ [linefeed] ++ u "    ]"
             ++ [linefeed] ++ u "}".
Proof.
  destruct (dumps_is_pretty_sorted_friendly encoders0 no_kwargs)
    as (Hpretty & Hreturns); try reflexivity.
  { by split_and!. }
  destruct (Hreturns eq_refl) as [Hreturns' _].
  destruct (Hreturns' 4%nat More_samples.complex_entry)
    as (out & Heq); [reflexivity | simpl; lia |].
  exists out. split_and!; [exact Heq | by apply (Hpretty 4%nat) |].
  assert (dumps encoders0 4 More_samples.complex_entry no_kwargs
          = Ok (u "{" ++ [linefeed] ++ u "    " ++ [quote] ++ u "complex"
                ++ [quote] ++ u ": [" ++ [linefeed] ++ u "        1.0,"
                ++ [linefeed] ++ u "        2.0" ++ [linefeed] ++ u "    ]"
                ++ [linefeed] ++ u "}")) as Heq'
    by (vm_compute; reflexivity).
  rewrite Heq in Heq'. by injection Heq'.
Defined.

(** The texts the tests of the repository expect for a character beyond
    ASCII and for a date: [{'Greetings': chr(181)}] and
    [{'created': datetime.date(2011, 5, 9)}]. *)
Example dumps_handles_unicode_and_dates :
  dumps encoders0 3 (JDict [(KStr (u "Greetings"), JStr [181%N])]) no_kwargs
  = Ok (u "{" ++ [linefeed] ++ u "    " ++ [quote] ++ u "Greetings" ++ [quote]
        ++ u ": " ++ [quote; backslash] ++ u "u00b5" ++ [quote; linefeed]
        ++ u "}")
  /\ dumps encoders0 3 (JDict [(KStr (u "created"), JDate (u "2011-05-09"))])
           no_kwargs
     = Ok (u "{" ++ [linefeed] ++ u "    " ++ [quote] ++ u "created" ++ [quote]
           ++ u ": " ++ [quote] ++ u "2011-05-09" ++ [quote; linefeed]
           ++ u "}").
Proof. split; reflexivity. Qed.

(** C9, as stated, fails for a call that passes none of [cls],
    [sort_keys] and [indent] but passes [default]: the function takes the
    place of the [default] method of the friendly encoder, and a complex
    number is written as whatever it returns.  It also fails for one that
    passes [separators]: the text for [{'a': 1}] has no space after the
    colon.  And once the encoder of [complex] is unregistered, a complex
    number is a [TypeError]. *)
Lemma dumps_default_keyword_wins :
  kw_cls More_samples.constant_default = None
  /\ kw_sort_keys More_samples.constant_default = None
  /\ kw_indent More_samples.constant_default = None
  /\ dumps encoders0 3 (JComplex (Finite "1.0") (Finite "2.0")) no_kwargs
     = Ok (u "[" ++ [linefeed] ++ u "    1.0," ++ [linefeed] ++ u "    2.0"
           ++ [linefeed] ++ u "]")
  /\ dumps encoders0 3 (JComplex (Finite "1.0") (Finite "2.0"))
           More_samples.constant_default
     = Ok ([quote] ++ u "n/a" ++ [quote])
  /\ kw_cls More_samples.compact_separators = None
  /\ kw_sort_keys More_samples.compact_separators = None
  /\ kw_indent More_samples.compact_separators = None
  /\ dumps encoders0 3 (JDict [(KStr (u "a"), JInt 1)])
           More_samples.compact_separators
     = Ok (u "{" ++ [linefeed] ++ u "    " ++ [quote] ++ u "a" ++ [quote]
           ++ u ":1" ++ [linefeed] ++ u "}")
  /\ dumps (unregister_encoder "complex" encoders0) 3
           (JComplex (Finite "1.0") (Finite "2.0")) no_kwargs
     = Raise TypeError.
Proof. split_and!; reflexivity. Qed.

End Json.


(** * Further properties *)

(** ** Speclines *)

Section Speclines.

Variable parse_specline : string -> result (string * string).
Variable defaults : SimplateDefaults.

Lemma rbind_ok_inv {A B} (r : result A) (k : A -> result B) (b : B) :
  rbind r k = Ok b -> exists a, r = Ok a /\ k a = Ok b.
Proof. destruct r as [e | a]; [discriminate |]. intros H. by exists a. Qed.

Lemma _get_renderer_factory_ok media_type renderer make_renderer :
  _get_renderer_factory defaults media_type renderer = Ok make_renderer ->
  Re.re_match renderer_re renderer = true
  /\ renderer_factories defaults !! renderer = Some (Factory make_renderer).
Proof.
  unfold _get_renderer_factory.
  destruct (Re.re_match renderer_re renderer); [| discriminate]. simpl.
  destruct (renderer_factories defaults !! renderer) as [[f | e] |];
    [| discriminate |].
  - by intros [= ->].
  - by destruct (starred _ _ _).
Qed.

(** When [_parse_specline] returns, the media type is the one of the
    specline, or the default one when the specline gives none, and it
    matches the media type pattern; the factory is the one registered
    under the renderer name of the specline, or under the default
    renderer of that media type when the specline names none, and that
    name matches the renderer pattern. *)
Theorem _parse_specline_resolves default_media_type specline make_renderer
    media_type :
  _parse_specline parse_specline defaults default_media_type specline
  = Ok (make_renderer, media_type) ->
  exists given_type given_renderer renderer,
    parse_specline specline = Ok (given_type, given_renderer)
    /\ media_type = (if String.eqb given_type EmptyString
                     then default_media_type else given_type)
    /\ (if String.eqb given_renderer EmptyString
        then renderers_by_media_type defaults !! media_type = Some renderer
        else renderer = given_renderer)
    /\ Re.re_match media_type_re media_type = true
    /\ Re.re_match renderer_re renderer = true
    /\ renderer_factories defaults !! renderer = Some (Factory make_renderer).
Proof.
  unfold _parse_specline.
  intros ([given_type given_renderer] & Hparse & H)%rbind_ok_inv.
  apply rbind_ok_inv in H as (renderer & Hrenderer & H).
  destruct (Re.re_match media_type_re _) eqn:Hmt; [| discriminate].
  apply rbind_ok_inv in H as (f & Hf & [= -> <-]).
  apply _get_renderer_factory_ok in Hf as [Hre Hreg].
  exists given_type, given_renderer, renderer. split_and!; try done.
  destruct (String.eqb given_renderer EmptyString).
  - unfold getitem in Hrenderer.
    by destruct (renderers_by_media_type defaults !! _); simplify_eq.
  - by injection Hrenderer.
Qed.

(** The order in which [_parse_specline] finds fault.  A specline without
    a renderer whose media type has no default renderer is a [KeyError]
    for that media type, whether or not the media type is well formed.
    Once a renderer name is at hand, a malformed media type is a
    [SyntaxError] naming the media type and the specline, whatever the
    renderer name is. *)
Theorem _parse_specline_error_order default_media_type specline given_type
    given_renderer :
  parse_specline specline = Ok (given_type, given_renderer) ->
  (given_renderer = EmptyString ->
   renderers_by_media_type defaults
     !! (if String.eqb given_type EmptyString
         then default_media_type else given_type) = None ->
   _parse_specline parse_specline defaults default_media_type specline
   = Raise (KeyError
              (VStr (if String.eqb given_type EmptyString
                     then default_media_type else given_type))))
  /\ (forall renderer,
        (if String.eqb given_renderer EmptyString
         then renderers_by_media_type defaults
                !! (if String.eqb given_type EmptyString
                    then default_media_type else given_type) = Some renderer
         else renderer = given_renderer) ->
      Re.re_match media_type_re
        (if String.eqb given_type EmptyString
         then default_media_type else given_type) = false ->
      _parse_specline parse_specline defaults default_media_type specline
      = Raise (SyntaxError
                 (malformed_media_type_msg
                    (if String.eqb given_type EmptyString
                     then default_media_type else given_type) specline))).
Proof.
  intros Hparse. unfold _parse_specline. rewrite Hparse. simpl. split.
  - intros -> Hnone. simpl. unfold getitem. by rewrite Hnone.
  - intros renderer Hrenderer Hmt.
    destruct (String.eqb given_renderer EmptyString); simpl.
    + unfold getitem. rewrite Hrenderer. simpl. by rewrite Hmt.
    + by rewrite Hmt.
Qed.

End Speclines.

Lemma _parse_specline_resolves_witness :
  _parse_specline no_specline hello_defaults "text/plain" EmptyString
  = Ok (format_name, "text/plain")
  /\ renderer_factories hello_defaults !! "stdlib_format"
     = Some (Factory format_name).
Proof.
  split; [reflexivity |].
  destruct (_parse_specline_resolves no_specline hello_defaults "text/plain"
              EmptyString format_name "text/plain" eq_refl)
    as (given_type & given_renderer & renderer & Hp & _ & Hr & _ & _ & Hf).
  injection Hp as <- <-. simpl in Hr.
  assert (renderer = "stdlib_format") as <- by (vm_compute in Hr; congruence).
  exact Hf.
Defined.

Lemma _parse_specline_error_order_witness :
  _parse_specline no_specline two_renderers "text/plain" EmptyString
  = Raise (KeyError (VStr "text/plain"))
  /\ _parse_specline no_specline two_renderers "no slash" EmptyString
     = Raise (KeyError (VStr "no slash")).
Proof.
  split.
  - apply (_parse_specline_error_order no_specline two_renderers "text/plain"
             EmptyString EmptyString EmptyString eq_refl);
      reflexivity.
  - apply (_parse_specline_error_order no_specline two_renderers "no slash"
             EmptyString EmptyString EmptyString eq_refl);
      reflexivity.
Defined.

(** ** Compiling the pages *)

Section Compilation.

Variable parse_specline : string -> result (string * string).
Variable defaults : SimplateDefaults.
Variable py_compile : string -> string -> result code.
Variable guess_media_type : string -> string.
Variable read_source : string -> result string.
Variable split_and_escape : string -> list Page.

#[local] Abbreviation compile_page_ := (compile_page parse_specline defaults).
#[local] Abbreviation compile_templates_ := (compile_templates parse_specline defaults).
#[local] Abbreviation compile_pages_ := (compile_pages parse_specline defaults py_compile).
#[local] Abbreviation init_ :=
  (__init__ parse_specline defaults py_compile guess_media_type read_source
            split_and_escape).

Lemma compile_templates_cons fspath dmt page pages :
  compile_templates_ fspath dmt (page :: pages)
  = rbind (compile_page_ fspath dmt page) (fun p =>
    rbind (compile_templates_ fspath dmt pages) (fun ps => Ok (p :: ps))).
Proof. reflexivity. Qed.

(** The list comprehension over the template pages returns when every
    page compiles, with the compiled pages in the order of the pages;
    otherwise it raises what the first page that does not compile
    raises. *)
Theorem compile_templates_all_or_first fspath dmt pages :
  (forall out,
     compile_templates_ fspath dmt pages = Ok out
     <-> Forall2 (fun page p => compile_page_ fspath dmt page = Ok p) pages out)
  /\ (forall e,
        compile_templates_ fspath dmt pages = Raise e
        <-> exists i page,
              pages !! i = Some page
              /\ compile_page_ fspath dmt page = Raise e
              /\ forall j earlier, (j < i)%nat -> pages !! j = Some earlier ->
                   exists p, compile_page_ fspath dmt earlier = Ok p).
Proof.
  induction pages as [|page pages [IHok IHraise]].
  - split.
    + intros out. simpl. split.
      * intros [= <-]. constructor.
      * by intros ->%Forall2_nil_inv_l.
    + intros e. simpl. split; [discriminate |].
      by intros (i & page & Hi & _).
  - split.
    + intros out. rewrite compile_templates_cons. split.
      * destruct (compile_page_ fspath dmt page) as [e | p] eqn:Hp;
          [discriminate |]. simpl.
        destruct (compile_templates_ fspath dmt pages) as [e | ps] eqn:Hps;
          [discriminate |]. simpl.
        intros [= <-]. constructor; [done |]. by apply IHok.
      * intros (p & ps & Hp & Hps & ->)%Forall2_cons_inv_l.
        apply IHok in Hps. by rewrite Hp, Hps.
    + intros e. rewrite compile_templates_cons. split.
      * destruct (compile_page_ fspath dmt page) as [e' | p] eqn:Hp.
        -- intros [= <-]. exists 0%nat, page. split_and!; [done | done |].
           intros j earlier Hj. lia.
        -- simpl.
           destruct (compile_templates_ fspath dmt pages) as [e' | ps] eqn:Hps;
             [| discriminate].
           intros [= <-].
           destruct (proj1 (IHraise e') eq_refl) as (i & page' & Hi & He & Hbefore).
           exists (S i), page'. split_and!; [done | done |].
           intros [|j] earlier Hj Hearlier.
           ++ injection Hearlier as <-. by exists p.
           ++ apply (Hbefore j); [lia | done].
      * intros ([|i] & page' & Hi & He & Hbefore).
        -- injection Hi as <-. by rewrite He.
        -- destruct (Hbefore 0%nat page) as [p Hp]; [lia | done |].
           rewrite Hp. simpl.
           assert (compile_templates_ fspath dmt pages = Raise e) as ->; [| done].
           apply IHraise. exists i, page'. split_and!; [done | done |].
           intros j earlier Hj Hearlier. apply (Hbefore (S j)); [lia | done].
Qed.

Lemma compile_page_media_type fspath dmt page p :
  compile_page_ fspath dmt page = Ok p ->
  Re.re_match media_type_re p.2 = true.
Proof.
  unfold compile_page.
  intros ([f mt] & Hspec & H)%rbind_ok_inv.
  apply rbind_ok_inv in H as (r & _ & [= <-]). simpl.
  unfold _parse_specline in Hspec.
  apply rbind_ok_inv in Hspec as ([gt gr] & _ & H).
  apply rbind_ok_inv in H as (renderer & _ & H).
  destruct (Re.re_match media_type_re _) eqn:Hmt; [| discriminate].
  by apply rbind_ok_inv in H as (f' & _ & [= _ <-]).
Qed.

Lemma compile_templates_media_types fspath dmt pages out :
  compile_templates_ fspath dmt pages = Ok out ->
  length out = length pages
  /\ Forall (fun mt => Re.re_match media_type_re mt = true) out.*2.
Proof.
  revert out. induction pages as [|page pages IH]; intros out.
  - intros [= <-]. split; [done | constructor].
  - rewrite compile_templates_cons.
    intros (p & Hp & H)%rbind_ok_inv.
    apply rbind_ok_inv in H as (ps & Hps & [= <-]).
    destruct (IH _ Hps) as [Hlen Hall]. split; [simpl; by rewrite Hlen |].
    constructor; [by eapply compile_page_media_type | done].
Qed.

Lemma parse_into_pages_length decoded out :
  parse_into_pages split_and_escape decoded = Ok out ->
  (3 <= length out)%nat.
Proof.
  unfold parse_into_pages.
  destruct (split_and_escape decoded) as [|p0 [|p1 [|p2 rest]]]; simpl.
  - discriminate.
  - intros [= <-]. simpl. lia.
  - intros [= <-]. simpl. lia.
  - destruct (str_truthy (header p1)); intros [= <-]; simpl; lia.
Qed.

(** What [compile_pages] returns: the index of the namespace it has just
    created and the compiled template pages, one for each page after
    the second. *)
Lemma compile_pages_ok_inv fspath dmt pages w w' ctx two templates :
  compile_pages_ fspath dmt pages w = (w', Ok (ctx, two, templates)) ->
  ctx = length (namespaces w)
  /\ exists p1 p2 rest,
       pages = p1 :: p2 :: rest
       /\ compile_templates_ fspath dmt rest = Ok templates.
Proof.
  unfold compile_pages. destruct pages as [|p1 [|p2 rest]]; [done | done |].
  intros (w1 & ctx' & Hnew & H)%bind_ok_inv. injection Hnew as <- <-.
  apply bind_ok_inv in H as (w2 & [] & _ & H).
  apply bind_ok_inv in H as (w3 & [] & _ & H).
  apply bind_ok_inv in H as (w4 & one & _ & H).
  apply bind_ok_inv in H as (w5 & [] & _ & H).
  apply bind_ok_inv in H as (w6 & two' & _ & H).
  apply bind_ok_inv in H as (w7 & ts & Hts & H).
  injection H as _ <- _ <-. split; [done |].
  exists p1, p2, rest. split; [done |].
  unfold lift in Hts. by injection Hts.
Qed.

(** A simplate that [__init__] returns keeps the path it was loaded from
    and the media type guessed from the path without its last extension;
    its run-once context is a namespace that did not exist before; it
    has at least one available type; its available types are distinct,
    are exactly the media types it has a renderer for, and all match the
    media type pattern. *)
Theorem __init___invariants fspath w w' self :
  init_ fspath w = (w', Ok self) ->
  Simplate.fspath self = fspath
  /\ default_media_type self = guess_media_type (rsplit_dot_head fspath)
  /\ page_one self = length (namespaces w)
  /\ available_types self <> []
  /\ NoDup (available_types self)
  /\ (forall mt, mt ∈ available_types self <-> is_Some (renderers self !! mt))
  /\ Forall (fun mt => Re.re_match media_type_re mt = true)
            (available_types self).
Proof.
  intros Hinit.
  destruct (__init___compiled _ _ _ _ _ _ _ _ _ _ Hinit) as [Hnd Hdom].
  unfold __init__ in Hinit.
  apply bind_ok_inv in Hinit as (w1 & text & Hread & H).
  apply bind_ok_inv in H as (w2 & pages & Hparse & H).
  apply bind_ok_inv in H as (w3 & [[one two] templates] & Hcompile & H).
  apply bind_ok_inv in H as (w4 & [renderers available] & Hloop & H).
  injection H as _ <-. simpl in *.
  unfold lift in Hread, Hparse, Hloop.
  injection Hread as <- _. injection Hparse as <- Hparse.
  injection Hloop as _ Hloop.
  apply compile_pages_ok_inv in Hcompile as (-> & p1 & p2 & rest & -> & Hts).
  apply parse_into_pages_length in Hparse. simpl in Hparse.
  apply compile_templates_media_types in Hts as [Hlen Hall].
  destruct (content_pages_returns _ _ _ _ Hloop) as [Hnd' _].
  destruct (content_pages_fresh templates ∅ [] Hnd') as (rs & Heq & _).
  { intros. apply lookup_empty. }
  rewrite Hloop in Heq. injection Heq as _ ->. simpl.
  split_and!; try done.
  intros Hnil. apply (f_equal length) in Hnil.
  rewrite length_fmap, Hlen in Hnil. simpl in Hnil. lia.
Qed.

End Compilation.

Lemma __init___invariants_witness :
  exists w' self,
    __init__ no_specline hello_defaults no_statements
             (fun _ => "text/plain") (fun _ => Ok "...") hello_pages
             "hello.txt.spt" program_world = (w', Ok self)
    /\ page_one self = 1%nat
    /\ default_media_type self = "text/plain"
    /\ available_types self <> [].
Proof.
  destruct (__init__ no_specline hello_defaults no_statements
              (fun _ => "text/plain") (fun _ => Ok "...") hello_pages
              "hello.txt.spt" program_world) as [w' [e | self]] eqn:Hinit.
  - vm_compute in Hinit. discriminate.
  - exists w', self. split; [reflexivity |].
    destruct (__init___invariants _ _ _ _ _ _ _ _ _ _ Hinit)
      as (_ & Hdmt & Hone & Hne & _).
    split_and!; done.
Defined.

(** ** The available types of a simplate *)

Section Available_types.

Variable parse_specline : string -> result (string * string).
Variable defaults : SimplateDefaults.
Variable py_compile : string -> string -> result code.
Variable guess_media_type : string -> string.
Variable read_source : string -> result string.
Variable split_and_escape : string -> list Page.

#[local] Abbreviation resolve_ := (_parse_specline parse_specline defaults).
#[local] Abbreviation construct_ :=
  (__init__ parse_specline defaults py_compile guess_media_type read_source
            split_and_escape).





End Available_types.


(** ** The run-once context *)

Section Run_once.

Variable parse_specline : string -> result (string * string).
Variable defaults : SimplateDefaults.
Variable py_compile : string -> string -> result code.
Variable guess_media_type : string -> string.
Variable read_source : string -> result string.
Variable split_and_escape : string -> list Page.

#[local] Instance ns_preserved_reflexive g : Reflexive (ns_preserved g).
Proof. by intros w i d. Qed.

#[local] Instance ns_preserved_transitive g : Transitive (ns_preserved g).
Proof. intros w1 w2 w3 H12 H23 i d Hi Hd. eauto. Qed.

Ltac frame_step := apply preserves_bind; [apply _ | | intros ?].

Lemma lift_pure {A} (r : result A) w : (lift r w).1 = w.
Proof. reflexivity. Qed.

(** The run-once code runs first, in a namespace created for it that
    holds the initial context and, unless the initial context binds that
    name itself, [__file__] bound to the path.  What it raises is raised
    by [compile_pages]; only when it has returned is the second page
    compiled and are the speclines of the template pages looked at. *)
Theorem compile_pages_runs_once_first fspath dmt one two templates c w :
  py_compile (padded_content one) fspath = Ok c ->
  exists seed,
    (forall x,
       seed !! x
       = match initial_context defaults !! x with
         | Some v => Some v
         | None => if decide (x = "__file__") then Some (VStr fspath) else None
         end)
    /\ compile_pages parse_specline defaults py_compile fspath dmt
                     (one :: two :: templates) w
       = match exec c (length (namespaces w))
                    (World (namespaces w ++ [seed]) (objects w) (trace w)) with
         | (w1, inl e) => (w1, inl e)
         | (w1, inr _) =>
             (w1,
              rbind (py_compile (padded_content two) fspath) (fun two' =>
              rbind (compile_templates parse_specline defaults fspath dmt
                                       templates) (fun compiled_templates =>
              Ok (length (namespaces w), two', compiled_templates))))
         end.
Proof.
  intros Hc.
  exists (initial_context defaults ∪ <["__file__" := VStr fspath]> ∅). split.
  - intros x. rewrite lookup_union.
    destruct (initial_context defaults !! x) as [v|] eqn:Hx.
    + by destruct (<["__file__" := VStr fspath]> ∅ !! x).
    + destruct (decide (x = "__file__")) as [-> | Hne].
      * by rewrite lookup_insert_eq.
      * by rewrite lookup_insert_ne, lookup_empty.
  - unfold compile_pages, ns_new, ns_setitem, ns_update, ns_get, ns_put, lift.
    unfold mbind, M_bind, mret, M_ret. cbn [namespaces objects trace].
    rewrite lookup_app_r, Nat.sub_diag by done. cbn [lookup list_lookup].
    cbn [namespaces objects trace].
    rewrite insert_app_r_alt, Nat.sub_diag by done. cbn [insert list_insert].
    rewrite lookup_app_r, Nat.sub_diag by done. cbn [lookup list_lookup].
    cbn [namespaces objects trace].
    rewrite insert_app_r_alt, Nat.sub_diag by done. cbn [insert list_insert].
    rewrite Hc. unfold Ok.
    destruct (exec c _ _) as [w1 [e | []]]; [done |].
    destruct (py_compile (padded_content two) fspath) as [e | two']; [done |].
    simpl.
    by destruct (compile_templates _ _ _ _ _) as [e | ts].
Qed.

Lemma preserves_lift_bind {A B} (R : world -> world -> Prop) `{!Reflexive R}
    (r : result A) (k : A -> M B) :
  (forall a, r = Ok a -> preserves R (k a)) -> preserves R (lift r ≫= k).
Proof.
  intros Hk w. rewrite bind_unfold. unfold lift.
  destruct r as [e | a]; [done |]. by apply Hk.
Qed.

Lemma compile_pages_frame fspath dmt pages w i d :
  (forall one rest c,
     pages = one :: rest ->
     py_compile (padded_content one) fspath = Ok c -> local c) ->
  namespaces w !! i = Some d ->
  namespaces (compile_pages parse_specline defaults py_compile fspath dmt
                            pages w).1 !! i = Some d.
Proof.
  intros Hlocal Hi. unfold compile_pages.
  destruct pages as [|p1 [|p2 rest]]; [done | done |].
  rewrite bind_unfold. cbn [ns_new].
  set (ctx := length (namespaces w)).
  set (w0 := World (namespaces w ++ [∅]) (objects w) (trace w)).
  assert (i <> ctx) as Hne.
  { apply lookup_lt_Some in Hi. unfold ctx. lia. }
  assert (namespaces w0 !! i = Some d) as Hi0.
  { simpl. by apply lookup_app_l_Some. }
  match goal with
  | |- namespaces (?m w0).1 !! i = Some d =>
      assert (preserves (ns_preserved ctx) m) as Hm
  end.
  { frame_step; [apply ns_setitem_ns_preserved |].
    frame_step; [apply ns_update_ns_preserved |].
    apply preserves_lift_bind; [apply _ |]. intros c Hc.
    frame_step; [apply (Hlocal p1 (p2 :: rest) c eq_refl Hc) |].
    frame_step; [by apply preserves_pure; [apply _ |] |].
    frame_step; [by apply preserves_pure; [apply _ |] |].
    by apply preserves_pure; [apply _ |]. }
  by apply (Hm w0).
Qed.

(** When the code compiled from the run-once page writes to no dict but
    its globals, [__init__] leaves every dict that exists when it is
    called as it is, whether it returns or raises.  Nothing is asked of
    the run-every code, which [__init__] compiles and does not run. *)
Theorem __init___leaves_namespaces fspath w i d :
  (forall text one rest c,
     read_source fspath = Ok text ->
     parse_into_pages split_and_escape text = Ok (one :: rest) ->
     py_compile (padded_content one) fspath = Ok c -> local c) ->
  namespaces w !! i = Some d ->
  namespaces (__init__ parse_specline defaults py_compile guess_media_type
                       read_source split_and_escape fspath w).1 !! i
  = Some d.
Proof.
  intros Hlocal Hi. unfold __init__.
  rewrite bind_unfold. unfold lift at 1.
  destruct (read_source fspath) as [e | text] eqn:Hread; [done |].
  rewrite bind_unfold. unfold lift at 1.
  destruct (parse_into_pages split_and_escape text) as [e | pages] eqn:Hparse;
    [done |].
  rewrite bind_unfold.
  pose proof (compile_pages_frame fspath
                (guess_media_type (rsplit_dot_head fspath)) pages w i d)
    as Hframe.
  destruct (compile_pages _ _ _ _ _ _ w) as [w1 [e | [[one two] templates]]];
    simpl in Hframe.
  - apply Hframe; [| done]. intros one rest c -> Hc.
    by apply (Hlocal text one rest c).
  - rewrite bind_unfold. unfold lift at 1.
    assert (namespaces w1 !! i = Some d) as Hw1.
    { apply Hframe; [| done]. intros one' rest c -> Hc.
      by apply (Hlocal text one' rest c). }
    by destruct (content_pages templates ∅ []) as [e | [rs av]].
Qed.

End Run_once.

Lemma compile_pages_runs_once_first_witness :
  (compile_pages no_specline hello_defaults no_statements "hello.txt.spt"
                 "text/plain" (hello_pages "...") program_world).2
  = Ok (1%nat, block [],
        [(mkRenderer "stdlib_format"
            (fun w context =>
               match namespaces w !! context with
               | Some d =>
                   match d !! "name" with
                   | Some (VStr name) => Ok (VStr ("Hello, " +:+ name +:+ "!"))
                   | _ => Raise (KeyError (VStr "name"))
                   end
               | None => Raise TypeError
               end), "text/plain")]).
Proof.
  destruct (compile_pages_runs_once_first no_specline hello_defaults
              no_statements "hello.txt.spt" "text/plain"
              (Page_ EmptyString) (mkPage EmptyString EmptyString 1)
              [mkPage "Hello, %(name)s!" EmptyString 2] (block [])
              program_world eq_refl) as (seed & _ & Heq).
  unfold hello_pages. rewrite Heq. reflexivity.
Defined.

Lemma __init___leaves_namespaces_witness :
  namespaces
    (__init__ no_specline hello_defaults More_samples.writer_unless_empty
              (fun _ => "text/plain") (fun _ => Ok "...") hello_pages
              "hello.txt.spt" program_world).1 !! 0%nat
  = Some {["name" := VStr "program"]}.
Proof.
  apply (__init___leaves_namespaces no_specline hello_defaults
           More_samples.writer_unless_empty
           (fun _ => "text/plain") (fun _ => Ok "...") hello_pages
           "hello.txt.spt" program_world 0 {["name" := VStr "program"]}).
  - intros text one rest c _ Hparse Hc.
    injection Hparse as <- _. injection Hc as <-. apply (block_local []).
  - reflexivity.
Defined.

(** ** The context a render call builds *)

Section Context.

Import More_samples.

(** Who wins in the context [render_for_type] prepares: a binding of the
    run-once context comes first, then [output], bound to the [Output]
    created for the call, then what the caller had put in the context.
    A run-once page that binds [output] hides the [Output] of the call
    from the run-every code. *)
Theorem prepare_precedence self mt g w first d :
  g <> page_one self ->
  namespaces w !! page_one self = Some first ->
  namespaces w !! g = Some d ->
  exists w' env,
    prepare self mt g w = (w', Ok (length (objects w)))
    /\ objects w' = objects w ++ [OOutput mt VNone]
    /\ namespaces w' !! g = Some env
    /\ forall x,
         env !! x
         = match first !! x with
           | Some v => Some v
           | None =>
               if decide (x = "output") then Some (VRef (length (objects w)))
               else d !! x
           end.
Proof.
  intros Hne Hfirst Hd.
  destruct (prepare_overlay self mt g w first d Hne Hfirst Hd)
    as (w' & out & Hprep & Henv).
  assert (out = length (objects w) /\ objects w' = objects w ++ [OOutput mt VNone])
    as [-> Hobjs].
  { unfold prepare in Hprep.
    apply bind_ok_inv in Hprep as (wa & out' & Ha & H).
    injection Ha as <- <-.
    apply bind_ok_inv in H as (w1 & [] & H1 & H).
    apply bind_ok_inv in H as (w2 & first' & H2 & H).
    apply bind_ok_inv in H as (w3 & [] & H3 & H).
    injection H as <- <-. split; [done |].
    pose proof (ns_update_objects g first' w2) as E3. rewrite H3 in E3.
    pose proof (ns_get_pure (page_one self) w1) as E2. rewrite H2 in E2.
    pose proof (ns_setitem_objects g "output" (VRef (length (objects w)))
                  (World (namespaces w) (objects w ++ [OOutput mt VNone])
                         (trace w))) as E1.
    rewrite H1 in E1. simpl in *. subst w2. by rewrite E3, E1. }
  exists w', (first ∪ <["output" := VRef (length (objects w))]> d).
  split_and!; [done | done | done |].
  intros x. rewrite lookup_union.
  destruct (first !! x) as [v|] eqn:Hx.
  - by destruct (<["output" := VRef (length (objects w))]> d !! x).
  - destruct (decide (x = "output")) as [-> | Hx'].
    + by rewrite lookup_insert_eq.
    + rewrite lookup_insert_ne by done. by destruct (d !! x).
Qed.

Lemma prepare_precedence_witness :
  exists w' env,
    prepare exporter "text/plain" 1 export_world = (w', Ok 1%nat)
    /\ namespaces w' !! 1%nat = Some env
    /\ env !! "a" = Some (VInt 1)
    /\ env !! "output" = Some (VRef 1)
    /\ env !! "c" = Some (VInt 3).
Proof.
  destruct (prepare_precedence exporter "text/plain" 1 export_world
              {["a" := VInt 1]}
              (<["__all__" := VRef 0]> (<["a" := VInt 1]> (<["c" := VInt 3]> ∅))))
    as (w' & env & Hprep & _ & Henv & Hlookup);
    [discriminate | reflexivity | reflexivity |].
  exists w', env. split_and!; [exact Hprep | exact Henv | | |];
    rewrite Hlookup; reflexivity.
Defined.

(** *** Narrowing to [__all__] *)

Lemma export_items_names d names w :
  (forall k, k ∈ names -> is_Some (d !! k)) ->
  exists items,
    export_items d (VStr <$> names) w = (w, Ok items)
    /\ items.*1 = names
    /\ forall k v, (k, v) ∈ items -> d !! k = Some v.
Proof.
  induction names as [|k names IH]; intros Hbound.
  - exists []. split_and!; [done | done |]. by intros k v ?%elem_of_nil.
  - destruct (Hbound k) as [v Hv]; [apply list_elem_of_here |].
    destruct IH as (items & Heq & Hkeys & Hvals).
    { intros k' Hk'. apply Hbound. by apply list_elem_of_further. }
    exists ((k, v) :: items). split_and!.
    + cbn [fmap list_fmap export_items]. rewrite bind_unfold.
      unfold subscript, getitem. rewrite Hv. unfold Ok.
      rewrite bind_unfold, Heq. reflexivity.
    + rewrite fmap_cons. simpl. by f_equal.
    + intros k' v' [[= -> ->] | Hin]%elem_of_cons; [done | by apply Hvals].
Qed.

Lemma export_items_missing d before k after w :
  (forall k', k' ∈ before -> is_Some (d !! k')) ->
  d !! k = None ->
  export_items d (VStr <$> before ++ k :: after) w
  = (w, Raise (KeyError (VStr k))).
Proof.
  intros Hbound Hk. induction before as [|b before IH].
  - cbn [app fmap list_fmap export_items]. rewrite bind_unfold.
    unfold subscript, getitem. by rewrite Hk.
  - destruct (Hbound b) as [v Hv]; [apply list_elem_of_here |].
    cbn [app fmap list_fmap export_items]. rewrite bind_unfold.
    unfold subscript, getitem. rewrite Hv. unfold Ok.
    rewrite bind_unfold.
    change (list_fmap string value VStr (before ++ k :: after))
      with (VStr <$> before ++ k :: after).
    rewrite IH; [done |].
    intros k' Hk'. apply Hbound. by apply list_elem_of_further.
Qed.

Lemma foldl_insert_lookup (d : gmap string value) items :
  (forall k v, (k, v) ∈ items -> d !! k = Some v) ->
  forall (m : gmap string value) k,
    foldl (fun m kv => <[kv.1 := kv.2]> m) m items !! k
    = if decide (k ∈ items.*1) then d !! k else m !! k.
Proof.
  induction items as [|[k0 v0] items IH]; intros Hvals m k.
  - simpl. destruct (decide (k ∈ [])) as [Hin | _]; [| done].
    by apply elem_of_nil in Hin.
  - cbn [foldl]. rewrite IH.
    2:{ intros k' v' Hin. apply Hvals. by apply list_elem_of_further. }
    cbn [fmap list_fmap fst].
    destruct (decide (k ∈ items.*1)) as [Hin | Hnin].
    + rewrite decide_True; [done |]. by apply list_elem_of_further.
    + destruct (decide (k = k0)) as [-> | Hne].
      * rewrite decide_True by apply list_elem_of_here.
        simpl. rewrite lookup_insert_eq. symmetry. apply Hvals.
        apply list_elem_of_here.
      * rewrite decide_False.
        -- simpl. by rewrite lookup_insert_ne.
        -- intros [-> | Hin]%elem_of_cons; done.
Qed.

(** When the context has an [__all__] whose items are names the context
    binds, the renderer is handed a new dict that binds exactly those
    names, each as the context binds it; the context itself and every
    other dict are left as they are. *)
Theorem narrow_exports g w d all names :
  namespaces w !! g = Some d ->
  d !! "__all__" = Some all ->
  iterate all w = (w, Ok (VStr <$> names)) ->
  (forall k, k ∈ names -> is_Some (d !! k)) ->
  exists d',
    narrow g w
    = (World (namespaces w ++ [d']) (objects w) (trace w),
       Ok (length (namespaces w)))
    /\ forall k, d' !! k = if decide (k ∈ names) then d !! k else None.
Proof.
  intros Hg Hall Hiter Hbound.
  destruct (export_items_names d names w Hbound) as (items & Hitems & Hkeys & Hvals).
  exists (foldl (fun m kv => <[kv.1 := kv.2]> m) ∅ items). split.
  - unfold narrow. rewrite bind_unfold. unfold ns_get. rewrite Hg, Hall.
    rewrite bind_unfold, Hiter. unfold Ok. rewrite bind_unfold, Hitems.
    reflexivity.
  - intros k. rewrite (foldl_insert_lookup d items Hvals), Hkeys.
    by rewrite lookup_empty.
Qed.

(** A name of [__all__] that the context does not bind is a [KeyError]
    for the first such name, and nothing has changed when it is
    raised. *)
Theorem narrow_missing_name g w d all before k after :
  namespaces w !! g = Some d ->
  d !! "__all__" = Some all ->
  iterate all w = (w, Ok (VStr <$> before ++ k :: after)) ->
  (forall k', k' ∈ before -> is_Some (d !! k')) ->
  d !! k = None ->
  narrow g w = (w, Raise (KeyError (VStr k))).
Proof.
  intros Hg Hall Hiter Hbound Hk.
  unfold narrow. rewrite bind_unfold. unfold ns_get. rewrite Hg, Hall.
  rewrite bind_unfold, Hiter. unfold Ok. rewrite bind_unfold.
  by rewrite (export_items_missing d before k after w Hbound Hk).
Qed.

Lemma narrow_exports_witness :
  exists d',
    narrow 1 export_world
    = (World (namespaces export_world ++ [d']) (objects export_world) [],
       Ok 2%nat)
    /\ d' !! "a" = Some (VInt 1)
    /\ d' !! "c" = Some (VInt 3)
    /\ d' !! "__all__" = None.
Proof.
  destruct (narrow_exports 1 export_world
              (<["__all__" := VRef 0]> (<["a" := VInt 1]> (<["c" := VInt 3]> ∅)))
              (VRef 0) ["a"; "c"])
    as (d' & Hnarrow & Hlookup); [reflexivity | reflexivity | reflexivity | |].
  { intros k [-> | [-> | []%elem_of_nil]%elem_of_cons]%elem_of_cons;
      by eexists. }
  exists d'. split_and!; [exact Hnarrow | | |]; rewrite Hlookup; reflexivity.
Defined.

Lemma narrow_missing_name_witness :
  narrow 1
    (World [∅; <["__all__" := VStr "ab"]> (<["a" := VInt 1]> ∅)] [] [])
  = (World [∅; <["__all__" := VStr "ab"]> (<["a" := VInt 1]> ∅)] [] [],
     Raise (KeyError (VStr "b"))).
Proof.
  apply (narrow_missing_name 1 _
           (<["__all__" := VStr "ab"]> (<["a" := VInt 1]> ∅))
           (VStr "ab") ["a"] "b" []);
    [reflexivity | reflexivity | reflexivity | | reflexivity].
  intros k' ->%list_elem_of_singleton. by eexists.
Defined.

(** For a compiled resource and one of its available types, when the
    run-every code has left the body unset and the context has been
    narrowed, the renderer of that type is there and is called: the call
    returns the [Output] with what the renderer returned as its body, or
    raises what the renderer raised, unchanged. *)
Theorem available_media_type_renders self mt g w w1 out w2 g' :
  compiled self ->
  mt ∈ available_types self ->
  run_every self mt g w = (w1, Ok out) ->
  objects w1 !! out = Some (OOutput mt VNone) ->
  narrow g w1 = (w2, Ok g') ->
  exists render,
    renderers self !! mt = Some render
    /\ render_for_type self mt g w
       = match renderer_call render w2 g' with
         | inr b => (rendered w2 render g' out mt b, Ok out)
         | inl e => (render_raised w2 render g', Raise e)
         end.
Proof.
  intros [_ Hav] Hmt Hrun Hout Hn.
  destruct (proj1 (Hav mt) Hmt) as [render Hr].
  exists render. split; [done |].
  rewrite (render_for_type_after_run_every _ _ _ _ _ _ _ _ Hrun Hout).
  simpl. by apply render_template_rendered with (body := VNone).
Qed.

Lemma available_media_type_renders_witness :
  (render_for_type greeting "text/plain" 1 empty_world).2 = Ok 0%nat
  /\ objects (render_for_type greeting "text/plain" 1 empty_world).1 !! 0%nat
     = Some (OOutput "text/plain" (VStr "Hello")).
Proof.
  destruct (available_media_type_renders greeting "text/plain" 1 empty_world
              (run_every greeting "text/plain" 1 empty_world).1 0%nat
              (run_every greeting "text/plain" 1 empty_world).1 1%nat
              greeting_compiled)
    as (render & Hr & Heq);
    [apply list_elem_of_here | vm_compute; reflexivity
     | vm_compute; reflexivity | vm_compute; reflexivity |].
  assert (renderers greeting !! "text/plain" = Some hello) as Hh
    by reflexivity.
  rewrite Hh in Hr. injection Hr as <-.
  rewrite Heq. split; vm_compute; reflexivity.
Defined.

End Context.

(** ** The path without its last extension *)

Section Extension.

Import Request.

Lemma before_last_dot_none s :
  contains "." s = false -> before_last_dot s = None.
Proof.
  induction s as [|c s IH]; [done |]. simpl.
  intros [Hc Hs]%orb_false_iff. by rewrite (IH Hs), Hc.
Qed.

Lemma before_last_dot_app s ext :
  contains "." ext = false ->
  before_last_dot (s +:+ String "." ext) = Some s.
Proof.
  intros Hext. induction s as [|c s IH].
  - change (EmptyString +:+ String "." ext) with (String "." ext).
    cbn [before_last_dot]. by rewrite (before_last_dot_none _ Hext).
  - rewrite append_cons. cbn [before_last_dot]. by rewrite IH.
Qed.

(** [fspath.rsplit('.', 1)[0]] takes the last extension off, and only
    the last one; a path without a dot is left as it is. *)
Theorem rsplit_dot_head_strips_last_extension :
  (forall s ext,
     contains "." ext = false ->
     rsplit_dot_head (s +:+ String "." ext) = s)
  /\ (forall s, contains "." s = false -> rsplit_dot_head s = s).
Proof.
  split.
  - intros s ext Hext. unfold rsplit_dot_head.
    by rewrite (before_last_dot_app s ext Hext).
  - intros s Hs. unfold rsplit_dot_head.
    by rewrite (before_last_dot_none s Hs).
Qed.

Lemma rsplit_dot_head_strips_last_extension_witness :
  rsplit_dot_head "index.html.spt" = "index.html"
  /\ rsplit_dot_head "README" = "README".
Proof.
  destruct rsplit_dot_head_strips_last_extension as [Hext Hnone].
  split.
  - apply (Hext "index.html" "spt"). reflexivity.
  - apply (Hnone "README"). reflexivity.
Defined.

End Extension.

(** ** The names listed in the error messages *)

Section Listing.

Import More_samples.

#[local] Instance key_le_is_total {A} : Total (@key_le A).
Proof. intros x y. unfold key_le. apply String.le_total. Qed.

Lemma starred_legend_spec (items : list (string * entry)) possible legend :
  (starred items possible legend).2
  = if existsb (fun kv => match kv.2 with Failed _ => true | _ => false end)
               items
    then starred_legend else legend.
Proof.
  revert possible legend.
  induction items as [|[k v] items IH]; intros possible legend; [done |].
  cbn [starred existsb snd]. destruct v; rewrite IH; simpl; [done |].
  by destruct (existsb _ items).
Qed.

(** Both error messages of [_get_renderer_factory] list the registered
    names in the order of [sorted], each once.  The message for an
    unknown renderer carries the note on starred names exactly when some
    registered entry is a stored import failure. *)
Theorem _get_renderer_factory_listing defaults media_type renderer :
  (Re.re_match renderer_re renderer = false ->
   exists names,
     _get_renderer_factory defaults media_type renderer
     = Raise (SyntaxError (malformed_renderer_msg renderer (join ", " names)))
     /\ Sorted String.le names
     /\ names ≡ₚ (map_to_list (renderer_factories defaults)).*1)
  /\ (Re.re_match renderer_re renderer = true ->
      renderer_factories defaults !! renderer = None ->
      exists items legend,
        _get_renderer_factory defaults media_type renderer
        = Raise (ValueError
                   (unknown_renderer_msg media_type renderer legend
                      (join ", " (shown <$> items))))
        /\ Sorted key_le items
        /\ items ≡ₚ map_to_list (renderer_factories defaults)
        /\ (legend = EmptyString \/ legend = starred_legend)
        /\ (legend = starred_legend
            <-> exists k e, renderer_factories defaults !! k = Some (Failed e))).
Proof.
  split.
  - intros Hre. exists (sorted_keys (renderer_factories defaults)).
    split_and!.
    + by apply _get_renderer_factory_malformed.
    + apply (Sorted_merge_sort String.le).
    + apply merge_sort_Permutation.
  - intros Hre Hnone. unfold _get_renderer_factory. rewrite Hre, Hnone. simpl.
    pose proof (starred_spec (sorted_items (renderer_factories defaults))
                  [] EmptyString) as Hpossible.
    pose proof (starred_legend_spec (sorted_items (renderer_factories defaults))
                  [] EmptyString) as Hlegend.
    destruct (starred _ _ _) as [possible legend]. simpl in *. subst possible.
    exists (sorted_items (renderer_factories defaults)), legend.
    split_and!.
    + reflexivity.
    + apply (Sorted_merge_sort key_le).
    + apply sorted_items_perm.
    + rewrite Hlegend. destruct (existsb _ _); auto.
    + rewrite Hlegend. split.
      * destruct (existsb _ _) eqn:Hex; [| discriminate]. intros _.
        apply existsb_exists in Hex as ([k v] & Hin & Hv).
        destruct v as [f | e]; [done |]. exists k, e.
        apply elem_of_map_to_list. rewrite <- sorted_items_perm.
        by apply list_elem_of_In.
      * intros (k & e & Hk).
        assert (existsb (fun kv : string * entry =>
                           match kv.2 with Failed _ => true | _ => false end)
                        (sorted_items (renderer_factories defaults)) = true)
          as ->; [| done].
        apply existsb_exists. exists (k, Failed e). split; [| done].
        apply list_elem_of_In. rewrite sorted_items_perm.
        by apply elem_of_map_to_list.
Qed.

Lemma _get_renderer_factory_listing_witness :
  exists items,
    _get_renderer_factory two_renderers "text/html" "pystache"
    = Raise (ValueError
               (unknown_renderer_msg "text/html" "pystache" starred_legend
                  (join ", " (shown <$> items))))
    /\ Sorted key_le items.
Proof.
  destruct (_get_renderer_factory_listing two_renderers "text/html" "pystache")
    as [_ Hunknown].
  destruct (Hunknown eq_refl eq_refl)
    as (items & legend & Heq & Hsorted & _ & _ & Hlegend).
  assert (legend = starred_legend) as ->.
  { apply Hlegend. exists "jinja2", "No module named jinja2". reflexivity. }
  exists items. split; [exact Heq | exact Hsorted].
Defined.

End Listing.

(** ** The registry of encoders and the keyword arguments *)

Section Encoders.

Import Json_ More_samples.

(** Registering an encoder for a class makes [FriendlyEncoder.default]
    use it for the objects of that class, and of that class only;
    unregistering the class makes it a [TypeError] for them again and
    leaves the other classes alone.  Unregistering a class that is not
    registered changes nothing, and unregistering after registering a
    new class gives the registry back. *)
Theorem encoder_registry encoders cls encode obj :
  (class_of obj = cls ->
   FriendlyEncoder_default (register_encoder cls encode encoders) obj
   = encode obj
   /\ FriendlyEncoder_default (unregister_encoder cls encoders) obj
      = Raise TypeError)
  /\ (class_of obj <> cls ->
      FriendlyEncoder_default (register_encoder cls encode encoders) obj
      = FriendlyEncoder_default encoders obj
      /\ FriendlyEncoder_default (unregister_encoder cls encoders) obj
         = FriendlyEncoder_default encoders obj)
  /\ (encoders !! cls = None ->
      unregister_encoder cls encoders = encoders
      /\ unregister_encoder cls (register_encoder cls encode encoders)
         = encoders).
Proof.
  unfold FriendlyEncoder_default, register_encoder, unregister_encoder.
  split_and!.
  - intros <-. split.
    + by rewrite lookup_insert_eq.
    + destruct (encoders !! class_of obj) eqn:H.
      * by rewrite lookup_delete_eq.
      * by rewrite H.
  - intros Hne. split.
    + by rewrite lookup_insert_ne.
    + destruct (encoders !! cls); [| done]. by rewrite lookup_delete_ne.
  - intros Hnone. split.
    + by rewrite Hnone.
    + rewrite lookup_insert_eq, delete_insert_eq. by apply delete_id.
Qed.

Lemma encoder_registry_witness :
  FriendlyEncoder_default (unregister_encoder "complex" encoders0)
                          (JComplex (Finite "1.0") (Finite "2.0"))
  = Raise TypeError
  /\ FriendlyEncoder_default (unregister_encoder "complex" encoders0)
                             (JDate (u "2011-05-09"))
     = Ok (JStr (u "2011-05-09")).
Proof.
  destruct (encoder_registry encoders0 "complex" encode_complex
              (JComplex (Finite "1.0") (Finite "2.0"))) as (Hsame & _ & _).
  destruct (encoder_registry encoders0 "complex" encode_complex
              (JDate (u "2011-05-09"))) as (_ & Hother & _).
  split.
  - apply Hsame. reflexivity.
  - destruct Hother as [_ ->]; [discriminate | reflexivity].
Defined.

Lemma iterencode_hands_over cfg fuel level obj :
  handed_to_default obj = true ->
  iterencode cfg (S fuel) level obj
  = rbind (cfg_default cfg obj) (iterencode cfg fuel level).
Proof. by destruct obj. Qed.

(** An object the backend hands to [default] is a [TypeError] when the
    call passes no [default] and no encoder class of the caller's own,
    and either its class has no registered encoder, or the call passes
    [cls=JSONEncoder] or [cls=None], whatever is registered.  The other
    keywords make no difference. *)
Theorem dumps_unknown_class encoders fuel obj kw :
  handed_to_default obj = true ->
  mjoin (kw_default kw) = None ->
  match kw_cls kw with
  | None | Some (Some FriendlyEncoder) => encoders !! class_of obj = None
  | Some None | Some (Some JSONEncoder) => True
  | Some (Some (Subclass _)) => False
  end ->
  dumps encoders (S fuel) obj kw = Raise TypeError.
Proof.
  intros Hobj Hdefault Hcls. unfold dumps, _json_dumps.
  destruct (kw_other (with_defaults kw)); [| done].
  rewrite (iterencode_hands_over _ _ _ _ Hobj).
  assert (cfg_default (make_encoder encoders (with_defaults kw)) obj
          = Raise TypeError) as ->; [| done].
  destruct kw as [skipkeys ensure_ascii check_circular allow_nan cls indent
                  separators default_ sort_keys other].
  cbn [kw_cls kw_default] in Hcls, Hdefault.
  unfold make_encoder, with_defaults, set_cls, set_sort_keys, set_indent.
  destruct cls as [[[] |] |], sort_keys, indent;
    cbn [kw_cls kw_sort_keys kw_indent kw_default kw_separators
         kw_ensure_ascii kw_allow_nan kw_skipkeys kw_check_circular
         cfg_default];
    rewrite Hdefault; simpl; try done;
    unfold FriendlyEncoder_default; by rewrite Hcls.
Qed.

Lemma dumps_unknown_class_witness :
  dumps encoders0 1 (JInstance "Foo") no_kwargs = Raise TypeError
  /\ dumps encoders0 1 (JComplex (Finite "1.0") (Finite "2.0"))
           (mkKw None None None None (Some (Some JSONEncoder)) None None None
                 None [])
     = Raise TypeError.
Proof.
  split.
  - apply dumps_unknown_class; reflexivity.
  - apply dumps_unknown_class; [reflexivity | reflexivity | exact I].
Defined.

End Encoders.

(** ** URL paths *)

Section Splitting_strings.

Import Request.

Lemma split_cons_sep sep s :
  split sep (String sep s) = EmptyString :: split sep s.
Proof. simpl. by rewrite Ascii.eqb_refl. Qed.

Lemma split_not_nil sep s : exists piece pieces, split sep s = piece :: pieces.
Proof.
  induction s as [|c s (piece & pieces & IH)]; simpl; [by eexists _, _ |].
  destruct (Ascii.eqb c sep); [by eexists _, _ |].
  rewrite IH. by eexists _, _.
Qed.

Lemma split_cons_other sep c s piece pieces :
  Ascii.eqb c sep = false -> split sep s = piece :: pieces ->
  split sep (String c s) = String c piece :: pieces.
Proof. intros Hc Hs. simpl. by rewrite Hc, Hs. Qed.

Lemma length_split sep s : length (split sep s) = S (count sep s).
Proof.
  induction s as [|c s IH]; [done |].
  destruct (split_not_nil sep s) as (piece & pieces & Hs).
  simpl. destruct (Ascii.eqb c sep) eqn:Hc.
  - simpl. by rewrite IH.
  - rewrite Hs. rewrite Hs in IH. simpl in *. done.
Qed.

Lemma split_without sep s : contains sep s = false -> split sep s = [s].
Proof.
  induction s as [|c s IH]; [done |]. simpl.
  intros [Hc Hs]%orb_false_iff. by rewrite Hc, (IH Hs).
Qed.

Lemma split_app sep a b :
  contains sep a = false ->
  split sep (a +:+ String sep b) = a :: split sep b.
Proof.
  induction a as [|c a IH].
  - intros _. apply split_cons_sep.
  - cbn [contains]. intros [Hc Ha]%orb_false_iff. rewrite append_cons.
    by apply split_cons_other; [| apply IH].
Qed.

Lemma split_pieces_without sep c s :
  contains c s = false ->
  Forall (fun piece => contains c piece = false) (split sep s).
Proof.
  induction s as [|d s IH]; [by repeat constructor |].
  simpl. intros [Hd Hs]%orb_false_iff. specialize (IH Hs).
  destruct (Ascii.eqb d sep); [by constructor |].
  destruct (split sep s) as [|piece pieces]; [by repeat constructor; simpl; rewrite Hd |].
  apply Forall_cons in IH as [Hpiece Hpieces].
  constructor; [| done]. simpl. by rewrite Hd, Hpiece.
Qed.

Lemma split_pieces_no_sep sep s :
  Forall (fun piece => contains sep piece = false) (split sep s).
Proof.
  induction s as [|d s IH]; [by repeat constructor |].
  simpl. destruct (Ascii.eqb d sep) eqn:Hd; [by constructor |].
  destruct (split sep s) as [|piece pieces];
    [by repeat constructor; simpl; rewrite Hd |].
  apply Forall_cons in IH as [Hpiece Hpieces].
  constructor; [| done]. simpl. by rewrite Hd, Hpiece.
Qed.

Lemma join_cons_cons sep x y rest :
  join sep (x :: y :: rest) = x +:+ sep +:+ join sep (y :: rest).
Proof. reflexivity. Qed.

Lemma join_split sep s : join (String sep EmptyString) (split sep s) = s.
Proof.
  induction s as [|c s IH]; [done |].
  destruct (split_not_nil sep s) as (piece & pieces & Hs).
  simpl. destruct (Ascii.eqb c sep) eqn:Hc.
  - apply Ascii.eqb_eq in Hc as ->. rewrite Hs, join_cons_cons, <- Hs, IH.
    reflexivity.
  - rewrite Hs. rewrite Hs in IH. destruct pieces as [|y rest].
    + simpl in *. by rewrite IH.
    + rewrite join_cons_cons. rewrite join_cons_cons in IH.
      by rewrite append_cons, IH.
Qed.

Lemma lstrip_without c s : contains c s = false -> lstrip c s = s.
Proof. destruct s as [|d s]; [done |]. simpl. by intros [-> _]%orb_false_iff. Qed.

Lemma contains_app c a b :
  contains c (a +:+ b) = contains c a || contains c b.
Proof.
  induction a as [|d a IH]; [done |].
  rewrite append_cons. simpl. by rewrite IH, orb_assoc.
Qed.

Lemma split_once_app sep k v :
  contains sep k = false -> split_once sep (k +:+ String sep v) = (k, v).
Proof.
  induction k as [|c k IH].
  - intros _. change (EmptyString +:+ String sep v) with (String sep v).
    simpl. by rewrite Ascii.eqb_refl.
  - cbn [contains]. intros [Hc Hk]%orb_false_iff. rewrite append_cons.
    cbn [split_once]. by rewrite Hc, (IH Hk).
Qed.

End Splitting_strings.

Section Url_paths.

Import Request More_samples.

Variable unquote : string -> string.
Variable Mapping : Type.
Variable Mapping_ : Mapping.
Variable add : Mapping -> string -> string -> Mapping.

#[local] Abbreviation part_ := (mkPathPart Mapping).
#[local] Abbreviation add_param_ := (add_param unquote Mapping add).
#[local] Abbreviation extract_component_ :=
  (extract_component unquote Mapping Mapping_ add).
#[local] Abbreviation extract_components_ :=
  (extract_components unquote Mapping Mapping_ add).
#[local] Abbreviation extract_ :=
  (extract_rfc2396_params unquote Mapping Mapping_ add).
#[local] Abbreviation no_params_ := (split_path_no_params unquote Mapping).

#[local] Abbreviation part_of := (Request.part_of unquote Mapping Mapping_ add).

Lemma extract_component_ok component :
  exists part, extract_component_ component = Ok part /\ part_of component part.
Proof.
  destruct (split_not_nil ";" component) as (first & rest & Hs).
  eexists. split.
  - unfold extract_component. rewrite Hs. reflexivity.
  - by exists first, rest.
Qed.

Lemma extract_components_ok pathsegs : forall acc,
  exists parts,
    extract_components_ pathsegs acc = Ok (acc ++ parts)
    /\ Forall2 part_of pathsegs parts.
Proof.
  induction pathsegs as [|component pathsegs IH]; intros acc.
  - exists []. simpl. rewrite app_nil_r. split; [done | constructor].
  - destruct (extract_component_ok component) as (part & Hpart & Hof).
    destruct (IH (acc ++ [part])) as (parts & Hparts & Hall).
    exists (part :: parts). split.
    + simpl. rewrite Hpart. simpl. rewrite Hparts. by rewrite <- app_assoc.
    + by constructor.
Qed.

Lemma extract_components_app a b acc :
  extract_components_ (a ++ b) acc
  = rbind (extract_components_ a acc) (extract_components_ b).
Proof.
  revert acc. induction a as [|component a IH]; intros acc; [done |].
  simpl. destruct (extract_component_ component) as [e | part]; [done |].
  simpl. apply IH.
Qed.

(** [extract_rfc2396_params] never raises.  It returns one part for each
    piece of the path between slashes, leading slashes apart, in the
    order of the pieces, a path without a slash giving one part; the
    segment of a part is the decoded text before the first semicolon of
    its piece. *)
Theorem extract_rfc2396_params_total path :
  exists parts,
    extract_ path = Ok parts
    /\ length parts = S (count "/" (lstrip "/" path))
    /\ Forall2 part_of (split "/" (lstrip "/" path)) parts.
Proof.
  destruct (extract_components_ok (split "/" (lstrip "/" path)) [])
    as (parts & Heq & Hall).
  exists parts. split_and!; [done | | done].
  rewrite <- (Forall2_length _ _ _ Hall). apply length_split.
Qed.

Lemma split_snoc sep s :
  split sep (s +:+ String sep EmptyString) = split sep s ++ [EmptyString].
Proof.
  induction s as [|c s IH].
  - change (EmptyString +:+ String sep EmptyString)
      with (String sep EmptyString).
    by rewrite split_cons_sep.
  - rewrite append_cons.
    destruct (Ascii.eqb c sep) eqn:Hc.
    + apply Ascii.eqb_eq in Hc as ->. by rewrite !split_cons_sep, IH.
    + destruct (split_not_nil sep s) as (piece & pieces & Hs).
      rewrite (split_cons_other sep c s piece pieces Hc Hs).
      rewrite Hs in IH.
      by rewrite (split_cons_other sep c _ piece (pieces ++ [EmptyString]) Hc IH).
Qed.

Lemma lstrip_app c s t :
  lstrip c s <> EmptyString -> lstrip c (s +:+ t) = lstrip c s +:+ t.
Proof.
  induction s as [|d s IH]; [done |].
  rewrite append_cons. simpl. destruct (Ascii.eqb d c); [apply IH | done].
Qed.

(** A slash at the end of a path that is more than slashes adds one last
    part, with an empty segment and no parameters. *)
Theorem trailing_slash_adds_empty_part path parts :
  lstrip "/" path <> EmptyString ->
  extract_ path = Ok parts ->
  extract_ (path +:+ "/")
  = Ok (parts ++ [part_ (unquote EmptyString) (Some Mapping_)]).
Proof.
  intros Hpath Hparts. unfold extract_rfc2396_params in *.
  rewrite (lstrip_app _ _ _ Hpath), split_snoc, extract_components_app, Hparts.
  reflexivity.
Qed.

(** On a path without a semicolon the two ways of splitting agree on the
    segments; [extract_rfc2396_params] gives each part an empty mapping,
    [split_path_no_params] gives it none. *)
Theorem extract_agrees_without_params path :
  contains ";" path = false ->
  extract_ path
  = Ok ((fun part => part_ (segment Mapping part) (Some Mapping_))
          <$> no_params_ path).
Proof.
  intros Hpath. unfold extract_rfc2396_params, split_path_no_params.
  assert (contains ";" (lstrip "/" path) = false) as Hstripped.
  { clear -Hpath. induction path as [|c path IH]; [done |].
    simpl in *. apply orb_false_iff in Hpath as [Hc Hpath].
    destruct (Ascii.eqb c "/"); [by apply IH |]. simpl. by rewrite Hc, Hpath. }
  pose proof (split_pieces_without "/" ";" _ Hstripped) as Hpieces.
  generalize dependent (split "/" (lstrip "/" path)). intros pieces Hpieces.
  assert (forall acc,
            extract_components_ pieces acc
            = Ok (acc ++ ((fun part => part_ (segment Mapping part) (Some Mapping_))
                            <$> map (fun s => part_ (unquote s) None) pieces)))
    as Hgen; [| apply (Hgen [])].
  induction Hpieces as [|piece pieces Hpiece _ IH]; intros acc.
  - simpl. by rewrite app_nil_r.
  - simpl. unfold extract_component at 1. rewrite (split_without _ _ Hpiece).
    simpl. rewrite IH. by rewrite <- app_assoc.
Qed.

(** The pieces [split_path_no_params] decodes hold no slash and, joined
    by slashes, are the path without its leading slashes. *)
Theorem split_path_no_params_pieces path :
  exists pieces,
    no_params_ path = (fun s => part_ (unquote s) None) <$> pieces
    /\ join "/" pieces = lstrip "/" path
    /\ Forall (fun piece => contains "/" piece = false) pieces.
Proof.
  exists (split "/" (lstrip "/" path)). split_and!.
  - reflexivity.
  - apply join_split.
  - apply split_pieces_no_sep.
Qed.

Lemma add_param_written params (p : string * option string) :
  contains "=" p.1 = false ->
  add_param_ params (written_param p)
  = add params (unquote p.1) (unquote (default EmptyString p.2)).
Proof.
  intros Hk. destruct p as [k [v|]]; unfold add_param, written_param; simpl in *.
  - rewrite contains_app. simpl. rewrite orb_true_r.
    by rewrite (split_once_app _ _ _ Hk).
  - by rewrite Hk.
Qed.

Lemma split_written_params ps :
  Forall (fun p : string * option string =>
            contains ";" p.1 = false
            /\ contains ";" (default EmptyString p.2) = false) ps ->
  forall name,
    contains ";" name = false ->
    split ";" (name +:+ written_params ps) = name :: (written_param <$> ps).
Proof.
  induction 1 as [|p ps [Hk Hv] _ IH]; intros name Hname.
  - simpl. rewrite append_nil_r. by apply split_without.
  - cbn [written_params]. rewrite (split_app _ _ _ Hname). f_equal.
    rewrite fmap_cons. apply IH.
    destruct p as [k [v|]]; unfold written_param; simpl in *; [| done].
    rewrite contains_app. simpl. by rewrite Hk, Hv.
Qed.

(** Reading back a segment that was written out.  For a name, keys and
    values without slash or semicolon, and keys without an equals sign,
    the path [name;k1=v1;k2;...] gives one part: the decoded name, with
    each key added in order, decoded, with its decoded value, a bare key
    with the decoded empty string.  A value may hold equals signs: the
    parameter is cut at the first one. *)
Theorem extract_written_component name ps :
  contains "/" (written_component name ps) = false ->
  contains ";" name = false ->
  Forall (fun p : string * option string =>
            contains ";" p.1 = false /\ contains "=" p.1 = false
            /\ contains ";" (default EmptyString p.2) = false) ps ->
  extract_ (written_component name ps)
  = Ok [part_ (unquote name)
          (Some (foldl (fun params (p : string * option string) =>
                          add params (unquote p.1)
                              (unquote (default EmptyString p.2)))
                       Mapping_ ps))].
Proof.
  intros Hslash Hname Hps. unfold extract_rfc2396_params.
  rewrite (lstrip_without _ _ Hslash), (split_without _ _ Hslash).
  simpl. unfold extract_component, written_component.
  rewrite split_written_params; [| | done].
  2:{ eapply Forall_impl; [exact Hps |]. by intros p (? & _ & ?). }
  simpl. do 3 f_equal.
  assert (Forall (fun p : string * option string => contains "=" p.1 = false) ps)
    as Hkeys.
  { eapply Forall_impl; [exact Hps |]. by intros p (_ & ? & _). }
  clear -Hkeys. generalize Mapping_.
  induction Hkeys as [|p ps Hp _ IH]; intros m; [done |].
  rewrite fmap_cons. cbn [foldl]. by rewrite (add_param_written m p Hp), IH.
Qed.

End Url_paths.

Lemma trailing_slash_adds_empty_part_witness :
  Request.extract_rfc2396_params (fun s => s) (list (string * string)) []
                                 More_samples.add_pair "/a;b=c/"
  = Ok [Request.mkPathPart _ "a" (Some [("b", "c")]);
        Request.mkPathPart _ EmptyString (Some [])].
Proof.
  apply (trailing_slash_adds_empty_part (fun s => s) (list (string * string))
           [] More_samples.add_pair "/a;b=c"
           [Request.mkPathPart _ "a" (Some [("b", "c")])]);
    [discriminate | reflexivity].
Defined.

Lemma extract_agrees_without_params_witness :
  Request.extract_rfc2396_params (fun s => s) (list (string * string)) []
                                 More_samples.add_pair "/foo/bar.html"
  = Ok [Request.mkPathPart _ "foo" (Some []);
        Request.mkPathPart _ "bar.html" (Some [])].
Proof.
  rewrite (extract_agrees_without_params (fun s => s)
             (list (string * string)) [] More_samples.add_pair
             "/foo/bar.html" eq_refl).
  reflexivity.
Defined.

Lemma extract_written_component_witness :
  Request.extract_rfc2396_params (fun s => s) (list (string * string)) []
                                 More_samples.add_pair "logo;sponsor=w3c;big;q=a=b"
  = Ok [Request.mkPathPart _ "logo"
          (Some [("sponsor", "w3c"); ("big", EmptyString); ("q", "a=b")])].
Proof.
  apply (extract_written_component (fun s => s) (list (string * string)) []
           More_samples.add_pair "logo"
           [("sponsor", Some "w3c"); ("big", None); ("q", Some "a=b")]);
    [reflexivity | reflexivity |].
  repeat constructor.
Defined.

(** ** Normalisation and rendering, once more *)

Section Failures.

Variable split_and_escape : string -> list Page.

(** [parse_into_pages] fails in one case only, a split without pages,
    and then with an [IndexError].  Otherwise it returns the split pages,
    all of them and in their order, behind at most two blank pages. *)
Theorem parse_into_pages_only_failure decoded :
  (forall e,
     parse_into_pages split_and_escape decoded = Raise e
     <-> split_and_escape decoded = [] /\ e = IndexError)
  /\ (forall out,
        parse_into_pages split_and_escape decoded = Ok out ->
        exists n, (n <= 2)%nat
                  /\ out = replicate n (Page_ EmptyString)
                           ++ split_and_escape decoded).
Proof.
  split.
  - intros e. unfold parse_into_pages.
    destruct (split_and_escape decoded) as [|p0 [|p1 [|p2 rest]]]; simpl.
    + split; [by intros [= <-] | by intros [_ ->]].
    + split; [discriminate | by intros [[=] _]].
    + split; [discriminate | by intros [[=] _]].
    + destruct (str_truthy (header p1));
        (split; [discriminate | by intros [[=] _]]).
  - intros out [-> | [-> | ->]]%parse_into_pages_suffix.
    + exists 0%nat. split; [lia | done].
    + exists 1%nat. split; [lia | done].
    + exists 2%nat. split; [lia | done].
Qed.

End Failures.

Section Propagation.

(** What the run-every code raises is what [render_for_type] raises, in
    the world the code left: no renderer is looked up or called, and the
    [Output] of the call is not returned. *)
Theorem render_for_type_propagates self mt g w w0 out w1 e :
  prepare self mt g w = (w0, Ok out) ->
  exec (page_two self) g w0 = (w1, Raise e) ->
  render_for_type self mt g w = (w1, Raise e)
  /\ (tame (page_two self) -> trace w1 = trace w).
Proof.
  intros Hprep Hexec. split.
  - unfold render_for_type, run_every.
    apply bind_raise. rewrite (bind_ok _ _ _ _ _ Hprep).
    by apply bind_raise.
  - intros Htame.
    pose proof (prepare_trace_kept self mt g w) as Hp.
    rewrite Hprep in Hp.
    destruct (Htame g) as [_ Ht]. specialize (Ht w0). rewrite Hexec in Ht.
    unfold trace_kept in *. simpl in *. congruence.
Qed.

End Propagation.

Lemma render_for_type_propagates_witness :
  render_for_type
    (mkSimplate "raise.spt" "text/plain" {["text/plain" := hello]}
                ["text/plain"] 0
                (block [SAssign "x" (EConst (VInt 1)); SRaise "boom";
                        SSetBody (EConst (VStr "late"))]))
    "text/plain" 1 empty_world
  = (World [∅; <["x" := VInt 1]> (<["output" := VRef 0]> ∅)]
           [OOutput "text/plain" VNone] [],
     Raise (UserError "boom")).
Proof.
  apply (render_for_type_propagates
           (mkSimplate "raise.spt" "text/plain" {["text/plain" := hello]}
                       ["text/plain"] 0
                       (block [SAssign "x" (EConst (VInt 1)); SRaise "boom";
                               SSetBody (EConst (VStr "late"))]))
           "text/plain" 1 empty_world
           (World [∅; <["output" := VRef 0]> ∅] [OOutput "text/plain" VNone] [])
           0%nat);
    vm_compute; reflexivity.
Defined.

(** ** The patterns *)

Section Patterns.

(** [media_type_re] matches exactly the strings made of two non-empty
    runs of letters, digits and [. + * -] with one slash between them,
    and those strings followed by one newline. *)
Theorem media_type_re_language s :
  Re.re_match media_type_re s = true <->
  exists type subtype,
    type <> EmptyString /\ subtype <> EmptyString
    /\ all_chars (Re.in_class media_type_class) type = true
    /\ all_chars (Re.in_class media_type_class) subtype = true
    /\ (s = type +:+ "/" +:+ subtype
        \/ s = type +:+ "/" +:+ subtype +:+ newline).
Proof. apply media_type_re_accepts. Qed.

(** [renderer_re] matches exactly the non-empty strings over the class
    the pattern spells, where [.-_] is a range (lowercase letters, digits
    and the characters from ['.'] to ['_']), and those strings followed
    by one newline. *)
Theorem renderer_re_language s :
  Re.re_match renderer_re s = true <->
  exists name,
    name <> EmptyString
    /\ all_chars (Re.in_class renderer_class) name = true
    /\ (s = name \/ s = name +:+ newline).
Proof. apply renderer_re_accepts. Qed.

End Patterns.
